(** * DRAIN provider core: voucher validation, channel ledger, claims

    A shallow embedding of the provider side of the DRAIN payment-channel
    protocol, following the Taostats provider:
      - [drain.ts]     class [DrainService]
                       (providers/community-taostats/src/drain.ts),
      - [storage.ts]   class [VoucherStorage], imported by [drain.ts]
                       (unnamed/part_004),
      - [constants.ts] [PERMANENT_CLAIM_ERRORS] (unnamed/part_006),
      - [types.ts]     the DRAIN standard types, the same in every provider
                       (providers/community-tpn/src/types.ts),
      - [index.ts]     the request handler (unnamed/part_005),
      - [config.ts]    the endpoint allowlist of the same provider
                       (unnamed/part_006),
    and, of the TPN provider, the pricing of a lease
    (providers/community-tpn/src/config.ts and index.ts).

    Conventions of the embedding.
    - A JavaScript [bigint] is a [Z]; a [number] holding a timestamp or an
      expiry is a [Z] as well (the values are integers far below 2^53, so
      that [Number] of a bigint and the JSON text of a number are exact).
    - Strings are [string]; the text handled here (decimal amounts, hex
      identifiers, error names) is ASCII.
    - The blockchain client, the signature verifier and the wall clock are
      the environment: every call site of the source takes its answer from
      an explicit argument, and a call that throws is a [Throw].
    - The storage object is threaded explicitly.  An object that the source
      shares by reference is modelled where it lives: a [ChannelState]
      obtained from [getChannel] is the entry of the [channels] map, a
      voucher referenced from [lastVoucher] is an index into the
      append-only [vouchers] array.
    - [console.log]/[console.error] output is not part of the model, and
      file-system calls are assumed to succeed. *)

From Stdlib Require Import ZArith Decimal DecimalString DecimalZ DecimalPos Ascii String List.
From stdpp Require Import base option list gmap strings.

Local Open Scope Z_scope.
Local Open Scope string_scope.

(* ===================================================================== *)
(** * JavaScript built-ins used by the source                             *)
(* ===================================================================== *)

Module JS.

(** A call of the source either returns or throws.  Of a thrown value
    the source inspects whether it is an [Error], its [message], and the
    optional [cause.data.errorName] and [cause.reason] a contract revert
    carries. *)
Record thrown : Type := mkThrown {
  instanceofError : bool;
  message : string;
  cause_data_errorName : option string;
  cause_reason : option string;
}.

Inductive result (A : Type) : Type :=
| Ok (a : A)
| Throw (e : thrown).
Arguments Ok {A} a.
Arguments Throw {A} e.

(** Truthiness of an optional string ([undefined] and [""] are falsy). *)
Definition truthy (o : option string) : bool :=
  match o with
  | Some s => negb (String.eqb s "")
  | None => false
  end.

(** [a || b] on optional strings. *)
Definition or_else (a b : option string) : option string :=
  if truthy a then a else b.

(** [String.prototype.toLowerCase] on ASCII text. *)
Definition lower_ascii (c : ascii) : ascii :=
  let n := nat_of_ascii c in
  if (Nat.leb 65 n && Nat.leb n 90)%bool then ascii_of_nat (n + 32) else c.

Fixpoint toLowerCase (s : string) : string :=
  match s with
  | EmptyString => EmptyString
  | String c r => String (lower_ascii c) (toLowerCase r)
  end.

(** White space skipped by the string-to-BigInt conversion (the ASCII
    part of StrWhiteSpaceChar: TAB, LF, VT, FF, CR, SP). *)
Definition is_space (c : ascii) : bool :=
  let n := nat_of_ascii c in
  (Nat.eqb n 9 || Nat.eqb n 10 || Nat.eqb n 11 || Nat.eqb n 12
   || Nat.eqb n 13 || Nat.eqb n 32)%bool.

Fixpoint trimStart (s : string) : string :=
  match s with
  | String c r => if is_space c then trimStart r else s
  | EmptyString => EmptyString
  end.

Fixpoint trimEnd (s : string) : string :=
  match s with
  | EmptyString => EmptyString
  | String c r =>
      match trimEnd r with
      | EmptyString => if is_space c then EmptyString else String c EmptyString
      | r' => String c r'
      end
  end.

Definition trim (s : string) : string := trimEnd (trimStart s).

(** Value of a digit in a radix up to 16, [None] when it is none. *)
Definition digit_value (radix : Z) (c : ascii) : option Z :=
  let n := Z.of_nat (nat_of_ascii c) in
  let v :=
    if (Z.leb 48 n && Z.leb n 57)%bool then Some (n - 48)
    else if (Z.leb 97 n && Z.leb n 102)%bool then Some (n - 87)
    else if (Z.leb 65 n && Z.leb n 70)%bool then Some (n - 55)
    else None in
  match v with
  | Some d => if Z.ltb d radix then Some d else None
  | None => None
  end.

Fixpoint digits_value (radix : Z) (acc : Z) (s : string) : option Z :=
  match s with
  | EmptyString => Some acc
  | String c r =>
      match digit_value radix c with
      | Some d => digits_value radix (acc * radix + d) r
      | None => None
      end
  end.

(** A non-empty run of digits of the radix. *)
Definition radix_literal (radix : Z) (s : string) : option Z :=
  match s with
  | EmptyString => None
  | _ => digits_value radix 0 s
  end.

(** A non-empty run of decimal digits. *)
Definition decimal_literal (s : string) : option Z :=
  Z.of_uint <$> NilZero.uint_of_string s.

(** [t] begins with [p]. *)
Fixpoint startsWith (p t : string) : bool :=
  match p, t with
  | EmptyString, _ => true
  | String a p', String b t' => Ascii.eqb a b && startsWith p' t'
  | String _ _, EmptyString => false
  end.

(** The text after a two-character prefix. *)
Definition skip2 (s : string) : string :=
  match s with
  | String _ (String _ r) => r
  | _ => EmptyString
  end.

(** A decimal literal with an optional sign. *)
Definition signed_decimal (t : string) : option Z :=
  match t with
  | EmptyString => None
  | String c r =>
      if Ascii.eqb c "-" then Z.opp <$> decimal_literal r
      else if Ascii.eqb c "+" then decimal_literal r
      else decimal_literal t
  end.

(** [BigInt(s)] for a string [s] (StringToBigInt): white space is
    trimmed, the empty string is [0n], a literal is a signed decimal or
    an unsigned [0x]/[0o]/[0b] literal; anything else throws a
    SyntaxError, which is [None] here. *)
Definition BigInt (s : string) : option Z :=
  let t := trim s in
  if String.eqb t "" then Some 0
  else if (startsWith "0x" t || startsWith "0X" t)%bool then radix_literal 16 (skip2 t)
  else if (startsWith "0o" t || startsWith "0O" t)%bool then radix_literal 8 (skip2 t)
  else if (startsWith "0b" t || startsWith "0B" t)%bool then radix_literal 2 (skip2 t)
  else signed_decimal t.

(** The SyntaxError thrown by [BigInt] on a string that is no literal. *)
Definition BigInt_error (s : string) : thrown :=
  mkThrown true ("Cannot convert " ++ s ++ " to a BigInt") None None.

(** [BigInt.prototype.toString()]: decimal, with a minus sign. *)
Definition toString (z : Z) : string := NilZero.string_of_int (Z.to_int z).

(** [Number(b)] for a bigint within the exact range of a double, which
    unix timestamps are. *)
Definition Number (b : Z) : Z := b.

End JS.

(* ===================================================================== *)
(** * Data model ([types.ts])                                             *)
(* ===================================================================== *)

(** [VoucherHeader]: the voucher as it arrives, amounts still text. *)
Module VoucherHeader.
Record t : Type := mk {
  channelId : string;
  amount : string;
  nonce : string;
  signature : string;
}.
End VoucherHeader.

(** [StoredVoucher]: the durable record of an accepted voucher. *)
Module StoredVoucher.
Record t : Type := mk {
  channelId : string;
  amount : Z;
  nonce : Z;
  signature : string;
  consumer : string;
  receivedAt : Z;
  claimed : bool;
  claimedAt : option Z;
  claimTxHash : option string;
}.
End StoredVoucher.

(** The object a [lastVoucher] field points to.  [DrainService.storeVoucher]
    pushes one object onto the [vouchers] array and stores the same object
    in [lastVoucher]: that is [InArray i], the [i]-th element of the array
    (the array only grows, so the index names the object for good).  After
    a reload from disk the channel owns a separate copy: [Detached v]. *)
Inductive VoucherRef : Type :=
| InArray (i : nat)
| Detached (v : StoredVoucher.t).

(** [ChannelState]: the ledger entry of a channel.  A falsy [expiry]
    (the source tests [!channel.expiry]; an entry read from a file that
    records no expiry has none) is [0]. *)
Module ChannelState.
Record t : Type := mk {
  channelId : string;
  consumer : string;
  deposit : Z;
  totalCharged : Z;
  expiry : Z;
  lastVoucher : option VoucherRef;
  createdAt : Z;
  lastActivityAt : Z;
}.

Definition set_expiry (e : Z) (c : t) : t :=
  mk (channelId c) (consumer c) (deposit c) (totalCharged c) e
     (lastVoucher c) (createdAt c) (lastActivityAt c).
End ChannelState.

(** The fields of [ProviderConfig] the payment core reads. *)
Module ProviderConfig.
Record t : Type := mk {
  chainId : Z;
  claimThreshold : Z;
}.
End ProviderConfig.

(** [PERMANENT_CLAIM_ERRORS] ([constants.ts]). *)
Definition PERMANENT_CLAIM_ERRORS : list string :=
  ["InvalidAmount"; "ChannelNotFound"; "InvalidSignature"; "NotProvider"; "NotExpired"].

Definition ZERO_ADDRESS : string := "0x0000000000000000000000000000000000000000".

(* ===================================================================== *)
(** * Persistent voucher store ([storage.ts], class [VoucherStorage])     *)
(* ===================================================================== *)

Module VoucherStorage.

(** ** The JSON document on disk

    What [JSON.stringify] keeps of the [serializable] object and what
    [JSON.parse] gives back: bigints are decimal text, a property whose
    value is [undefined] is absent. *)
Record VoucherJson : Type := mkVoucherJson {
  j_channelId : string;
  j_amount : string;
  j_nonce : string;
  j_signature : string;
  j_consumer : string;
  j_receivedAt : Z;
  j_claimed : bool;
  j_claimedAt : option Z;
  j_claimTxHash : option string;
}.

Record ChannelJson : Type := mkChannelJson {
  k_channelId : string;
  k_consumer : string;
  k_deposit : string;
  k_totalCharged : string;
  k_expiry : Z;
  k_lastVoucher : option VoucherJson;
  k_createdAt : Z;
  k_lastActivityAt : Z;
}.

Record Document : Type := mkDocument {
  d_vouchers : list VoucherJson;
  d_channels : gmap string ChannelJson;
  d_totalEarned : string;
  d_totalClaimed : string;
}.

(** The file at [filePath]: absent, not a document, or a document. *)
Inductive File : Type :=
| Missing
| Unparsable
| Json (d : Document).

(** ** The object in memory *)

(** [StorageData]. *)
Record StorageData : Type := mkData {
  vouchers : list StoredVoucher.t;
  channels : gmap string ChannelState.t;
  totalEarned : string;
  totalClaimed : string;
}.

(** A [VoucherStorage] instance together with the file it writes. *)
Record t : Type := mk {
  data : StorageData;
  disk : File;
}.

Definition fresh : StorageData := mkData [] ∅ "0" "0".

(** The voucher object a reference denotes. *)
Definition deref (vs : list StoredVoucher.t) (r : VoucherRef) : option StoredVoucher.t :=
  match r with
  | InArray i => vs !! i
  | Detached v => Some v
  end.

(** [ch.lastVoucher] as a value. *)
Definition lastVoucherOf (vs : list StoredVoucher.t) (ch : ChannelState.t)
  : option StoredVoucher.t :=
  ChannelState.lastVoucher ch ≫= deref vs.

(** ** [load] *)

(** [{ ...v, amount: BigInt(v.amount), nonce: BigInt(v.nonce) }];
    [None] when a conversion throws. *)
Definition load_voucher (v : VoucherJson) : option StoredVoucher.t :=
  a ← JS.BigInt (j_amount v);
  n ← JS.BigInt (j_nonce v);
  Some (StoredVoucher.mk (j_channelId v) a n (j_signature v) (j_consumer v)
          (j_receivedAt v) (j_claimed v) (j_claimedAt v) (j_claimTxHash v)).

(** The body of the [for (const channelId in parsed.channels)] loop. *)
Definition load_channel (ch : ChannelJson) : option ChannelState.t :=
  dep ← JS.BigInt (k_deposit ch);
  tot ← JS.BigInt (k_totalCharged ch);
  lv ← match k_lastVoucher ch with
       | Some v => (λ sv, Some (Detached sv)) <$> load_voucher v
       | None => Some None
       end;
  Some (ChannelState.mk (k_channelId ch) (k_consumer ch) dep tot (k_expiry ch)
          lv (k_createdAt ch) (k_lastActivityAt ch)).

Definition load_document (d : Document) : option StorageData :=
  vs ← mapM load_voucher (d_vouchers d);
  if bool_decide (map_Forall (λ _ ch, is_Some (load_channel ch)) (d_channels d))
  then Some (mkData vs (omap load_channel (d_channels d))
               (d_totalEarned d) (d_totalClaimed d))
  else None.

(** [load()]: a missing file, or any exception while reading it, starts
    from empty data. *)
Definition load (f : File) : StorageData :=
  match f with
  | Missing => fresh
  | Unparsable => fresh
  | Json d => default fresh (load_document d)
  end.

(** [new VoucherStorage(filePath)]. *)
Definition open (f : File) : t := mk (load f) f.

(** ** [save] *)

Definition save_voucher (v : StoredVoucher.t) : VoucherJson :=
  mkVoucherJson (StoredVoucher.channelId v)
    (JS.toString (StoredVoucher.amount v)) (JS.toString (StoredVoucher.nonce v))
    (StoredVoucher.signature v) (StoredVoucher.consumer v)
    (StoredVoucher.receivedAt v) (StoredVoucher.claimed v)
    (StoredVoucher.claimedAt v) (StoredVoucher.claimTxHash v).

Definition save_channel (vs : list StoredVoucher.t) (ch : ChannelState.t) : ChannelJson :=
  mkChannelJson (ChannelState.channelId ch) (ChannelState.consumer ch)
    (JS.toString (ChannelState.deposit ch)) (JS.toString (ChannelState.totalCharged ch))
    (ChannelState.expiry ch)
    (save_voucher <$> lastVoucherOf vs ch)
    (ChannelState.createdAt ch) (ChannelState.lastActivityAt ch).

(** The [serializable] object. *)
Definition serializable (d : StorageData) : Document :=
  mkDocument (save_voucher <$> vouchers d)
    (save_channel (vouchers d) <$> channels d)
    (totalEarned d) (totalClaimed d).

(** [save()]: rewrite the whole document. *)
Definition save (s : t) : t := mk (data s) (Json (serializable (data s))).

(** ** Accessors and updates *)

Definition set_vouchers (vs : list StoredVoucher.t) (d : StorageData) : StorageData :=
  mkData vs (channels d) (totalEarned d) (totalClaimed d).

Definition set_channels (cs : gmap string ChannelState.t) (d : StorageData) : StorageData :=
  mkData (vouchers d) cs (totalEarned d) (totalClaimed d).

(** [storeVoucher(voucher)]: push, then save. *)
Definition storeVoucher (voucher : StoredVoucher.t) (s : t) : t :=
  save (mk (set_vouchers (vouchers (data s) ++ [voucher]) (data s)) (disk s)).

(** [getChannel(channelId)]. *)
Definition getChannel (channelId : string) (s : t) : option ChannelState.t :=
  channels (data s) !! channelId.

(** [updateChannel(channelId, state)]: assign, then save. *)
Definition updateChannel (channelId : string) (state : ChannelState.t) (s : t) : t :=
  save (mk (set_channels (<[channelId := state]> (channels (data s))) (data s)) (disk s)).

(** [getUnclaimedVouchers()]. *)
Definition getUnclaimedVouchers (s : t) : list StoredVoucher.t :=
  filter (λ v, StoredVoucher.claimed v = false) (vouchers (data s)).

(** A JavaScript [Map<Hash, StoredVoucher>]: entries in insertion order,
    one per key. *)
Abbreviation VoucherMap := (list (string * StoredVoucher.t)).

Fixpoint map_get (k : string) (m : VoucherMap) : option StoredVoucher.t :=
  match m with
  | [] => None
  | (k', v) :: r => if decide (k' = k) then Some v else map_get k r
  end.

(** [Map.prototype.set]: an existing key keeps its place. *)
Fixpoint map_set (k : string) (v : StoredVoucher.t) (m : VoucherMap) : VoucherMap :=
  match m with
  | [] => [(k, v)]
  | (k', v') :: r => if decide (k' = k) then (k, v) :: r else (k', v') :: map_set k v r
  end.

(** One turn of the loop of [getHighestVoucherPerChannel]. *)
Definition highest_step (highest : VoucherMap) (voucher : StoredVoucher.t) : VoucherMap :=
  if StoredVoucher.claimed voucher then highest
  else match map_get (StoredVoucher.channelId voucher) highest with
       | None => map_set (StoredVoucher.channelId voucher) voucher highest
       | Some existing =>
           if bool_decide (StoredVoucher.amount voucher > StoredVoucher.amount existing)
           then map_set (StoredVoucher.channelId voucher) voucher highest
           else highest
       end.

(** [getHighestVoucherPerChannel()]. *)
Definition getHighestVoucherPerChannel (s : t) : VoucherMap :=
  fold_left highest_step (vouchers (data s)) [].

(** The assignment inside the loop of [markClaimed]; [now] is what
    [Date.now()] returns at that moment. *)
Definition mark (channelId txHash : string) (now : Z) (v : StoredVoucher.t)
  : StoredVoucher.t :=
  if bool_decide (StoredVoucher.channelId v = channelId) && negb (StoredVoucher.claimed v)
  then StoredVoucher.mk (StoredVoucher.channelId v) (StoredVoucher.amount v)
         (StoredVoucher.nonce v) (StoredVoucher.signature v) (StoredVoucher.consumer v)
         (StoredVoucher.receivedAt v) true (Some now) (Some txHash)
  else v.

(** [markClaimed(channelId, txHash)].  [clock i] is the reading of
    [Date.now()] while the loop is at the [i]-th element of the array:
    the source reads the clock anew for every voucher it marks. *)
Definition markClaimed (channelId txHash : string) (clock : nat → Z) (s : t) : t :=
  save (mk (set_vouchers
              (imap (λ i v, mark channelId txHash (clock i) v) (vouchers (data s)))
              (data s))
           (disk s)).

(** [getTotalUnclaimed()]. *)
Definition getTotalUnclaimed (s : t) : Z :=
  fold_left (λ total kv, total + StoredVoucher.amount kv.2)
    (getHighestVoucherPerChannel s) 0.

(** The object [getStats()] returns. *)
Module Stats.
Record t : Type := mk {
  totalVouchers : nat;
  unclaimedVouchers : nat;
  activeChannels : nat;
  totalEarned : Z;
}.
End Stats.

(** [getStats()].  [BigInt(this.data.totalEarned)] throws when the text
    is no literal. *)
Definition getStats (s : t) : JS.result Stats.t :=
  match JS.BigInt (totalEarned (data s)) with
  | Some earned =>
      JS.Ok (Stats.mk (length (vouchers (data s)))
               (length (filter (λ v, StoredVoucher.claimed v = false) (vouchers (data s))))
               (size (channels (data s)))
               earned)
  | None => JS.Throw (JS.BigInt_error (totalEarned (data s)))
  end.

End VoucherStorage.

(* ===================================================================== *)
(** * The environment: chain client, signature verifier, clock           *)
(* ===================================================================== *)

(** The tuple [getChannel] of the channel contract returns. *)
Module ChannelData.
Record t : Type := mk {
  consumer : string;
  provider : string;
  deposit : Z;
  claimed : Z;
  expiry : Z;
}.
End ChannelData.

(** The answers of the outside world during one call of the service.
    - [readChannel id]: [publicClient.readContract] for [getChannel];
    - [readBalance id]: the same for [getBalance];
    - [writeClaim id amount nonce signature]: [walletClient.writeContract]
      for [claim], returning the transaction hash;
    - [verifyTypedData signer chainId verifyingContract id amount nonce
      signature]: the EIP-712 check of the [Voucher] message under the
      [DrainChannel] version [1] domain;
    - [markClock id i]: the clock while [markClaimed] for channel [id] is at
      the [i]-th stored voucher. *)
Module Env.
Record t : Type := mk {
  readChannel : string → JS.result ChannelData.t;
  readBalance : string → JS.result Z;
  writeClaim : string → Z → Z → string → JS.result string;
  verifyTypedData : string → Z → string → string → Z → Z → string → JS.result bool;
  markClock : string → nat → Z;
}.
End Env.

(** A call the service makes to the chain through the wallet or the public
    client during a claim pass, in the order made. *)
Inductive ChainCall : Type :=
| GetBalance (channelId : string)
| Claim (channelId : string) (amount nonce : Z) (signature : string).

(* ===================================================================== *)
(** * The payment service ([drain.ts], class [DrainService])              *)
(* ===================================================================== *)

Module DrainService.

(** The immutable part of a [DrainService]: its configuration, the
    address of its account and the contract address of its chain. *)
Record t : Type := mk {
  config : ProviderConfig.t;
  account_address : string;
  contractAddress : string;
}.

(** The [error] of a rejected validation.  The six reasons are the
    string constants of the source; [caught e] is the [catch] branch. *)
Inductive Rejection : Type :=
| channel_not_found
| wrong_provider
| insufficient_funds
| exceeds_deposit
| invalid_nonce
| invalid_signature
| caught (e : JS.thrown).

(** The text of the [error] property. *)
Definition error_string (r : Rejection) : string :=
  match r with
  | channel_not_found => "channel_not_found"
  | wrong_provider => "wrong_provider"
  | insufficient_funds => "insufficient_funds"
  | exceeds_deposit => "exceeds_deposit"
  | invalid_nonce => "invalid_nonce"
  | invalid_signature => "invalid_signature"
  | caught e => if JS.instanceofError e then JS.message e else "validation_error"
  end.

(** The object [validateVoucher] resolves to. *)
Record Validation : Type := mkValidation {
  valid : bool;
  error : option Rejection;
  channel : option ChannelState.t;
  newTotal : option Z;
}.

Definition reject (r : Rejection) (ch : option ChannelState.t) : Validation :=
  mkValidation false (Some r) ch None.

Definition accept (ch : ChannelState.t) (amount : Z) : Validation :=
  mkValidation true None (Some ch) (Some amount).

(** Lines 109-123: the ledger entry the checks run on.  A channel not
    in the store gets a new object, which is not stored.  A stored
    channel is used as it is, and when its [expiry] is falsy that field
    of the stored object is assigned from the chain. *)
Definition resolveChannel (createdAt_now activity_now : Z) (channelId : string)
    (cd : ChannelData.t) (s : VoucherStorage.t)
  : ChannelState.t * VoucherStorage.t :=
  match VoucherStorage.getChannel channelId s with
  | None =>
      (ChannelState.mk channelId (ChannelData.consumer cd) (ChannelData.deposit cd)
         0 (JS.Number (ChannelData.expiry cd)) None createdAt_now activity_now,
       s)
  | Some channelState =>
      if bool_decide (ChannelState.expiry channelState = 0)
      then
        let channelState' :=
          ChannelState.set_expiry (JS.Number (ChannelData.expiry cd)) channelState in
        (channelState',
         VoucherStorage.mk
           (VoucherStorage.set_channels
              (<[channelId := channelState']> (VoucherStorage.channels (VoucherStorage.data s)))
              (VoucherStorage.data s))
           (VoucherStorage.disk s))
      else (channelState, s)
  end.

(** Lines 125-168: the checks after the ledger entry is known. *)
Definition checkVoucher (svc : t) (env : Env.t) (voucher : VoucherHeader.t)
    (amount nonce requiredAmount : Z) (cd : ChannelData.t)
    (vs : list StoredVoucher.t) (channelState : ChannelState.t) : Validation :=
  let previousTotal := ChannelState.totalCharged channelState in
  let expectedTotal := previousTotal + requiredAmount in
  if bool_decide (amount < expectedTotal) then
    reject insufficient_funds (Some channelState)
  else if bool_decide (amount > ChannelData.deposit cd) then
    reject exceeds_deposit (Some channelState)
  else if match VoucherStorage.lastVoucherOf vs channelState with
          | Some lastVoucher => bool_decide (nonce <= StoredVoucher.nonce lastVoucher)
          | None => false
          end then
    reject invalid_nonce (Some channelState)
  else
    match Env.verifyTypedData env (ChannelData.consumer cd)
            (ProviderConfig.chainId (config svc)) (contractAddress svc)
            (VoucherHeader.channelId voucher) amount nonce
            (VoucherHeader.signature voucher) with
    | JS.Throw e => reject (caught e) None
    | JS.Ok false => reject invalid_signature None
    | JS.Ok true => accept channelState amount
    end.

(** [validateVoucher(voucher, requiredAmount)].  The two time arguments
    are the readings of [Date.now()] for [createdAt] and
    [lastActivityAt] of a new ledger entry.  The storage comes back
    because of the assignment to [expiry] in [resolveChannel]. *)
Definition validateVoucher (svc : t) (env : Env.t) (createdAt_now activity_now : Z)
    (voucher : VoucherHeader.t) (requiredAmount : Z) (s : VoucherStorage.t)
  : Validation * VoucherStorage.t :=
  match JS.BigInt (VoucherHeader.amount voucher) with
  | None => (reject (caught (JS.BigInt_error (VoucherHeader.amount voucher))) None, s)
  | Some amount =>
  match JS.BigInt (VoucherHeader.nonce voucher) with
  | None => (reject (caught (JS.BigInt_error (VoucherHeader.nonce voucher))) None, s)
  | Some nonce =>
  match Env.readChannel env (VoucherHeader.channelId voucher) with
  | JS.Throw e => (reject (caught e) None, s)
  | JS.Ok channelData =>
      if bool_decide (ChannelData.consumer channelData = ZERO_ADDRESS) then
        (reject channel_not_found None, s)
      else if bool_decide (JS.toLowerCase (ChannelData.provider channelData)
                           ≠ JS.toLowerCase (account_address svc)) then
        (reject wrong_provider None, s)
      else
        let '(channelState, s') :=
          resolveChannel createdAt_now activity_now
            (VoucherHeader.channelId voucher) channelData s in
        (checkVoucher svc env voucher amount nonce requiredAmount channelData
           (VoucherStorage.vouchers (VoucherStorage.data s')) channelState,
         s')
  end end end.

(** [storeVoucher(voucher, channelState, cost)], the commit step.
    [channelState] is the object [validateVoucher] returned for this
    voucher, as at every call site; it is updated in place and assigned
    to [channels[voucher.channelId]].  The new voucher object is pushed
    on the array and is the new [lastVoucher].  A [BigInt] that throws
    leaves everything as it was. *)
Definition storeVoucher (received_now activity_now : Z) (voucher : VoucherHeader.t)
    (channelState : ChannelState.t) (cost : Z) (s : VoucherStorage.t)
  : JS.result VoucherStorage.t :=
  match JS.BigInt (VoucherHeader.amount voucher) with
  | None => JS.Throw (JS.BigInt_error (VoucherHeader.amount voucher))
  | Some amount =>
  match JS.BigInt (VoucherHeader.nonce voucher) with
  | None => JS.Throw (JS.BigInt_error (VoucherHeader.nonce voucher))
  | Some nonce =>
      let storedVoucher :=
        StoredVoucher.mk (VoucherHeader.channelId voucher) amount nonce
          (VoucherHeader.signature voucher) (ChannelState.consumer channelState)
          received_now false None None in
      let channelState' :=
        ChannelState.mk (ChannelState.channelId channelState)
          (ChannelState.consumer channelState) (ChannelState.deposit channelState)
          (ChannelState.totalCharged channelState + cost)
          (ChannelState.expiry channelState)
          (Some (InArray (length (VoucherStorage.vouchers (VoucherStorage.data s)))))
          (ChannelState.createdAt channelState) activity_now in
      JS.Ok (VoucherStorage.updateChannel (VoucherHeader.channelId voucher) channelState'
               (VoucherStorage.storeVoucher storedVoucher s))
  end end.

(** [handleClaimError(context, channelId, error)]. *)
Definition errorNameOf (e : JS.thrown) : option string :=
  JS.or_else (JS.or_else (JS.cause_data_errorName e) (JS.cause_reason e)) None.

Definition isPermanent (e : JS.thrown) : bool :=
  match errorNameOf e with
  | Some errorName =>
      JS.truthy (Some errorName) && bool_decide (errorName ∈ PERMANENT_CLAIM_ERRORS)
  | None => false
  end.

Definition handleClaimError (env : Env.t) (channelId : string) (e : JS.thrown)
    (s : VoucherStorage.t) : VoucherStorage.t :=
  if isPermanent e
  then VoucherStorage.markClaimed channelId "0x0" (Env.markClock env channelId) s
  else s.

(** The state of a claim pass: the hashes collected, the calls made to
    the chain, the storage. *)
Record Pass : Type := mkPass {
  txHashes : list string;
  calls : list ChainCall;
  storage : VoucherStorage.t;
}.

(** The balance pre-check and the submission that end the body of both
    claim loops (lines 204-224 and 254-274). *)
Definition submit (env : Env.t) (channelId : string) (voucher : StoredVoucher.t)
    (p : Pass) : Pass :=
  let id := StoredVoucher.channelId voucher in
  let calls1 := (calls p ++ [GetBalance id])%list in
  match Env.readBalance env id with
  | JS.Ok 0 =>
      mkPass (txHashes p) calls1
        (VoucherStorage.markClaimed channelId "0x0" (Env.markClock env channelId) (storage p))
  | _ =>
      let calls2 :=
        (calls1 ++ [Claim id (StoredVoucher.amount voucher) (StoredVoucher.nonce voucher)
                      (StoredVoucher.signature voucher)])%list in
      match Env.writeClaim env id (StoredVoucher.amount voucher)
              (StoredVoucher.nonce voucher) (StoredVoucher.signature voucher) with
      | JS.Ok hash =>
          mkPass (txHashes p ++ [hash])%list calls2
            (VoucherStorage.markClaimed channelId hash (Env.markClock env channelId) (storage p))
      | JS.Throw e =>
          mkPass (txHashes p) calls2 (handleClaimError env channelId e (storage p))
      end
  end.

(** The body of the loop of [claimPayments]. *)
Definition claimPayments_step (svc : t) (env : Env.t) (forceAll : bool)
    (p : Pass) (entry : string * StoredVoucher.t) : Pass :=
  let '(channelId, voucher) := entry in
  if negb forceAll
     && bool_decide (StoredVoucher.amount voucher < ProviderConfig.claimThreshold (config svc))
  then p
  else submit env channelId voucher p.

(** [claimPayments(forceAll)]. *)
Definition claimPayments (svc : t) (env : Env.t) (forceAll : bool)
    (s : VoucherStorage.t) : Pass :=
  fold_left (claimPayments_step svc env forceAll)
    (VoucherStorage.getHighestVoucherPerChannel s) (mkPass [] [] s).

(** The body of the loop of [claimExpiring]; [now] is in seconds. *)
Definition claimExpiring_step (env : Env.t) (bufferSeconds now : Z)
    (p : Pass) (entry : string * StoredVoucher.t) : Pass :=
  let '(channelId, voucher) := entry in
  match VoucherStorage.getChannel channelId (storage p) with
  | None => p
  | Some channel =>
      if bool_decide (ChannelState.expiry channel = 0) then p
      else
        let timeLeft := ChannelState.expiry channel - now in
        if bool_decide (timeLeft > bufferSeconds) then p
        else if bool_decide (StoredVoucher.amount voucher <= 0) then p
        else submit env channelId voucher p
  end.

(** [claimExpiring(bufferSeconds)]; [dateNow] is [Date.now()], in
    milliseconds.  The method does not read the configuration. *)
Definition claimExpiring (svc : t) (env : Env.t) (dateNow : Z) (bufferSeconds : Z)
    (s : VoucherStorage.t) : Pass :=
  let now := dateNow `div` 1000 in
  fold_left (claimExpiring_step env bufferSeconds now)
    (VoucherStorage.getHighestVoucherPerChannel s) (mkPass [] [] s).

(** ** The auto-claim timer (lines 279-293 and 306-311)

    The field [autoClaimInterval] and what the runtime holds for it.  The
    handle [setInterval] returns is an object, hence truthy; it is named
    here by the number of the [setInterval] call that made it.  A timer
    runs [claimExpiring(bufferSeconds)] every [delay] milliseconds. *)
Record Timer : Type := mkTimer {
  handle : nat;
  delay : Z;
  bufferSeconds : Z;
}.

(** [autoClaimInterval]: the field; [timers]: the interval timers the
    runtime keeps; [made]: the [setInterval] calls so far; [launched]:
    the [bufferSeconds] of the passes started at once by line 292. *)
Record AutoClaim : Type := mkAutoClaim {
  autoClaimInterval : option nat;
  timers : list Timer;
  made : nat;
  launched : list Z;
}.

(** A service as the constructor leaves it: the field is [null]. *)
Definition noAutoClaim : AutoClaim := mkAutoClaim None [] 0 [].

(** [startAutoClaim(intervalMinutes, bufferSeconds)]. *)
Definition startAutoClaim (intervalMinutes bufferSeconds : Z) (a : AutoClaim) : AutoClaim :=
  match autoClaimInterval a with
  | Some _ => a
  | None =>
      mkAutoClaim (Some (made a))
        (timers a ++ [mkTimer (made a) (intervalMinutes * 60 * 1000) bufferSeconds])%list
        (S (made a))
        (launched a ++ [bufferSeconds])%list
  end.

(** [stopAutoClaim()]: [clearInterval], then the field is [null]. *)
Definition stopAutoClaim (a : AutoClaim) : AutoClaim :=
  match autoClaimInterval a with
  | Some h =>
      mkAutoClaim None (filter (λ t, handle t ≠ h) (timers a)) (made a) (launched a)
  | None => a
  end.

End DrainService.

(* ===================================================================== *)
(** * A paid request ([index.ts], handler of [/v1/chat/completions])      *)
(* ===================================================================== *)

(** What one request brings: the answers of the environment while it is
    served, the voucher of its [X-DRAIN-Voucher] header, the flat [cost]
    of the request, whether the upstream query succeeded, and the four
    clock readings taken on the way. *)
Module Request.
Record t : Type := mk {
  env : Env.t;
  voucher : VoucherHeader.t;
  cost : Z;
  work_ok : bool;
  createdAt_now : Z;
  activity_now : Z;
  received_now : Z;
  stored_now : Z;
}.
End Request.

(** The payment part of the handler: validate against [cost]; when the
    voucher is rejected, or the upstream query or the commit throws,
    nothing is committed; otherwise
    [storeVoucher(voucher, validation.channel!, cost)].  The flag tells
    whether the commit took place. *)
Definition chargeRequest (svc : DrainService.t) (r : Request.t) (s : VoucherStorage.t)
  : VoucherStorage.t * bool :=
  let '(validation, s1) :=
    DrainService.validateVoucher svc (Request.env r) (Request.createdAt_now r)
      (Request.activity_now r) (Request.voucher r) (Request.cost r) s in
  if negb (DrainService.valid validation) then (s1, false)
  else if negb (Request.work_ok r) then (s1, false)
  else match DrainService.channel validation with
       | Some channelState =>
           match DrainService.storeVoucher (Request.received_now r) (Request.stored_now r)
                   (Request.voucher r) channelState (Request.cost r) s1 with
           | JS.Ok s2 => (s2, true)
           | JS.Throw _ => (s1, false)
           end
       | None => (s1, false)
       end.

(** Requests served one after the other. *)
Fixpoint serve (svc : DrainService.t) (rs : list Request.t) (s : VoucherStorage.t)
  : VoucherStorage.t :=
  match rs with
  | [] => s
  | r :: rs' => serve svc rs' (chargeRequest svc r s).1
  end.

(** The sum of the [cost] arguments of the commits made for channel [id]
    while [rs] is served from [s]. *)
Fixpoint committedCost (svc : DrainService.t) (id : string) (rs : list Request.t)
    (s : VoucherStorage.t) : Z :=
  match rs with
  | [] => 0
  | r :: rs' =>
      let '(s', done) := chargeRequest svc r s in
      (if done && bool_decide (VoucherHeader.channelId (Request.voucher r) = id)
       then Request.cost r else 0)
      + committedCost svc id rs' s'
  end.

(** The payment headers of a served request (lines 303-308). *)
Module PaymentHeaders.
Record t : Type := mk {
  cost : string;
  total : string;
  remaining : string;
  channel : string;
}.
End PaymentHeaders.

(** What the handler answers once the voucher header and the query have
    been read: 402 with the validation error, and the required amount
    when the error is [insufficient_funds]; 502 when the upstream query
    (or anything after it) throws; 200 with the payment headers. *)
Inductive Response : Type :=
| PaymentRequired (message : string) (required : option string)
| BadGateway
| Completion (headers : PaymentHeaders.t).

(** Lines 284-328 of the handler.  After [storeVoucher] has returned,
    [validation.channel] is the object it has updated in place: its
    [totalCharged] holds the cost of this request already (drain.ts 189)
    when line 300 adds [cost] to it. *)
Definition respond (svc : DrainService.t) (r : Request.t) (s : VoucherStorage.t)
  : Response * VoucherStorage.t :=
  let '(validation, s1) :=
    DrainService.validateVoucher svc (Request.env r) (Request.createdAt_now r)
      (Request.activity_now r) (Request.voucher r) (Request.cost r) s in
  if negb (DrainService.valid validation) then
    let error := from_option DrainService.error_string "undefined"
                   (DrainService.error validation) in
    (PaymentRequired ("Voucher error: " ++ error)
       (if String.eqb error "insufficient_funds"
        then Some (JS.toString (Request.cost r)) else None),
     s1)
  else if negb (Request.work_ok r) then (BadGateway, s1)
  else match DrainService.channel validation with
       | None => (BadGateway, s1)
       | Some channelState =>
           match DrainService.storeVoucher (Request.received_now r) (Request.stored_now r)
                   (Request.voucher r) channelState (Request.cost r) s1 with
           | JS.Throw _ => (BadGateway, s1)
           | JS.Ok s2 =>
               let channel_totalCharged :=
                 ChannelState.totalCharged channelState + Request.cost r in
               let totalCharged := channel_totalCharged + Request.cost r in
               let remaining := ChannelState.deposit channelState - totalCharged in
               (Completion
                  (PaymentHeaders.mk (JS.toString (Request.cost r))
                     (JS.toString totalCharged) (JS.toString remaining)
                     (VoucherHeader.channelId (Request.voucher r))),
                s2)
           end
       end.

(* ===================================================================== *)
(** * The endpoint allowlist of the Taostats provider ([config.ts])       *)
(* ===================================================================== *)

Module Config.

(** [ALLOWED_ENDPOINTS] (unnamed/part_006, lines 98-161). *)
Definition ALLOWED_ENDPOINTS : list string :=
  ["price/latest"; "price/history"; "price/ohlc"; "account/latest"; "account/history";
   "transfer"; "exchange"; "coldkey_swap/pending"; "on_chain_identity/latest";
   "on_chain_identity/history"; "stake/latest"; "stake/history";
   "dtao/stake_balance_aggregated/latest"; "dtao/slippage/latest"; "delegation/event";
   "stake/portfolio"; "validator/latest"; "validator/history";
   "validator/metrics/latest"; "validator/metrics/history";
   "validator/parent_child/latest"; "validator/parent_child/history";
   "validator/performance/latest"; "validator/performance/history";
   "validator/weights/latest/v2"; "validator/weights/history/v2";
   "validator/alpha_shares/latest"; "validator/alpha_shares/history";
   "validator/subnet/latest"; "validator/yield/latest"; "hotkey/emission";
   "validator/apy/history"; "miner/weight/latest"; "miner/weight/history";
   "miner/coldkey"; "metagraph/latest"; "metagraph/history"; "root_metagraph/latest";
   "root_metagraph/history"; "neuron/registration"; "neuron/deregistration";
   "subnet/coldkey_distribution"; "subnet/axon_ip_distribution";
   "subnet/miner_incentive_distribution"; "subnet/latest"; "subnet/history";
   "subnet/pool/latest"; "subnet/pool/history"; "subnet/emission";
   "subnet/identity/latest"; "subnet/identity/history"; "subnet/owner";
   "subnet/registration_cost/latest"; "subnet/registration_cost/history";
   "subnet/registration"; "subnet/deregistration_ranking/latest";
   "subnet/deregistration_ranking/history"; "subnet/price/sum";
   "subnet/price/sum/latest"; "subnet/price/sum/history"; "subnet/burned_alpha";
   "subnet/burned_alpha/total"; "subnet/github/latest"; "subnet/github/history";
   "subnet/tao_flow"; "block/latest"; "block/interval"; "extrinsic"; "event";
   "chain_call"; "stats/latest"; "stats/history"; "runtime_version/latest";
   "runtime_version/history"; "proxy_call"; "tao_emission"; "liquidity/distribution";
   "liquidity/position"; "liquidity/position_event"; "liquidity/tick_to_price";
   "evm/transaction"; "evm/block"; "evm/contract"; "evm/log"; "evm/address";
   "coingecko/asset"; "coingecko/event"; "coingecko/block"; "coingecko/pair";
   "tax/report"; "tax/report/csv"; "tax/tokens_held"; "tradingview/history"].

(** [s.replace(/^\/+|\/+$/g, '')]: the slashes at the start and at the
    end of the text are removed. *)
Fixpoint dropSlashesStart (s : string) : string :=
  match s with
  | String c r => if Ascii.eqb c "/" then dropSlashesStart r else s
  | EmptyString => EmptyString
  end.

Fixpoint dropSlashesEnd (s : string) : string :=
  match s with
  | EmptyString => EmptyString
  | String c r =>
      match dropSlashesEnd r with
      | EmptyString => if Ascii.eqb c "/" then EmptyString else String c EmptyString
      | r' => String c r'
      end
  end.

Definition stripSlashes (s : string) : string := dropSlashesEnd (dropSlashesStart s).

(** [isEndpointAllowed(endpoint)]; [toLowerCase] is that of ASCII text. *)
Definition isEndpointAllowed (endpoint : string) : bool :=
  let normalized := JS.toLowerCase (stripSlashes endpoint) in
  existsb (λ allowed,
             String.eqb normalized (JS.toLowerCase allowed)
             || JS.startsWith (JS.toLowerCase allowed ++ "/") normalized)
    ALLOWED_ENDPOINTS.

(** [getAllowedEndpoints()]: a copy of the list. *)
Definition getAllowedEndpoints : list string := ALLOWED_ENDPOINTS.

End Config.

(* ===================================================================== *)
(** * Lease pricing of the TPN provider ([community-tpn])                 *)
(* ===================================================================== *)

Module Tpn.

(** [calculateCost(minutes, cfg)] (providers/community-tpn/src/config.ts,
    lines 39-44) from its third line on.  The first two lines turn the
    configured prices, floating-point numbers of USDC, into the bigints
    [hourlyPriceWei] and [minPriceWei]; these are arguments here.
    [minutes] is an integer (on any other number [BigInt(minutes)]
    throws).  Division of bigints truncates. *)
Definition calculateCost (hourlyPriceWei minPriceWei : Z) (minutes : Z) : Z :=
  let durationCost := Z.quot (hourlyPriceWei * minutes) 60 in
  if bool_decide (durationCost > minPriceWei) then durationCost else minPriceWei.

(** The lease duration the handler prices
    (providers/community-tpn/src/index.ts, lines 208-211):
    [Math.min(Math.max(leaseParams.minutes ?? defaultLeaseMinutes, 1),
    maxLeaseMinutes)]. *)
Definition leaseMinutes (requested : option Z) (defaultLeaseMinutes maxLeaseMinutes : Z) : Z :=
  Z.min (Z.max (default defaultLeaseMinutes requested) 1) maxLeaseMinutes.

End Tpn.

(* ===================================================================== *)
(** * Vocabulary of the statements                                        *)
(* ===================================================================== *)

(** [totalCharged] of a channel as the validator sees it: the stored
    value, [0] for a channel it has not stored yet. *)
Definition charged (id : string) (s : VoucherStorage.t) : Z :=
  match VoucherStorage.getChannel id s with
  | Some ch => ChannelState.totalCharged ch
  | None => 0
  end.

(** The last voucher of a stored channel, as a value. *)
Definition lastVoucherAt (id : string) (s : VoucherStorage.t) : option StoredVoucher.t :=
  VoucherStorage.getChannel id s
    ≫= VoucherStorage.lastVoucherOf (VoucherStorage.vouchers (VoucherStorage.data s)).

(** A ledger entry with its [lastVoucher] reference replaced by the value
    it denotes. *)
Definition snapshot (vs : list StoredVoucher.t) (ch : ChannelState.t) : ChannelState.t :=
  ChannelState.mk (ChannelState.channelId ch) (ChannelState.consumer ch)
    (ChannelState.deposit ch) (ChannelState.totalCharged ch) (ChannelState.expiry ch)
    (Detached <$> VoucherStorage.lastVoucherOf vs ch)
    (ChannelState.createdAt ch) (ChannelState.lastActivityAt ch).

(** Two stores hold the same vouchers and the same ledger, entry by
    entry and field by field, [lastVoucher] compared as a value. *)
Definition same_content (d1 d2 : VoucherStorage.StorageData) : Prop :=
  VoucherStorage.vouchers d1 = VoucherStorage.vouchers d2
  ∧ snapshot (VoucherStorage.vouchers d1) <$> VoucherStorage.channels d1
    = snapshot (VoucherStorage.vouchers d2) <$> VoucherStorage.channels d2
  ∧ VoucherStorage.totalEarned d1 = VoucherStorage.totalEarned d2
  ∧ VoucherStorage.totalClaimed d1 = VoucherStorage.totalClaimed d2.

(** The channel a chain call is about. *)
Definition call_channel (c : ChainCall) : string :=
  match c with
  | GetBalance id => id
  | Claim id _ _ _ => id
  end.

(** The stored vouchers of a channel that are not claimed yet. *)
Definition unclaimedOf (id : string) (s : VoucherStorage.t) : list StoredVoucher.t :=
  filter (λ v, StoredVoucher.channelId v = id ∧ StoredVoucher.claimed v = false)
    (VoucherStorage.vouchers (VoucherStorage.data s)).


(** A map of vouchers without the entry of one channel. *)
Definition without (id : string) (m : VoucherStorage.VoucherMap) : VoucherStorage.VoucherMap :=
  filter (λ kv, kv.1 ≠ id) m.

(** [highest] as the loop of [getHighestVoucherPerChannel] has built it
    after the vouchers [vs]. *)
Definition highest_of (vs : list StoredVoucher.t) : VoucherStorage.VoucherMap :=
  fold_left VoucherStorage.highest_step vs [].

(** [v] is an unclaimed voucher of channel [k] among [vs], of the
    greatest amount. *)
Definition best (vs : list StoredVoucher.t) (k : string) (v : StoredVoucher.t) : Prop :=
  v ∈ vs ∧ StoredVoucher.channelId v = k ∧ StoredVoucher.claimed v = false
  ∧ ∀ w, w ∈ vs → StoredVoucher.channelId w = k → StoredVoucher.claimed w = false →
         (StoredVoucher.amount w ≤ StoredVoucher.amount v)%Z.

(** The map has one entry per key; an entry is an unclaimed stored
    voucher of the channel it is filed under, of the greatest amount, and
    every channel with an unclaimed voucher has an entry. *)
Record highest_inv (vs : list StoredVoucher.t) (m : VoucherStorage.VoucherMap) : Prop := {
  hi_nodup : NoDup m.*1;
  hi_sound : ∀ k v, VoucherStorage.map_get k m = Some v → best vs k v;
  hi_complete : ∀ w, w ∈ vs → StoredVoucher.claimed w = false →
    is_Some (VoucherStorage.map_get (StoredVoucher.channelId w) m);
}.

(** The sum [getTotalUnclaimed] forms over a map. *)
Definition total_of (m : VoucherStorage.VoucherMap) : Z :=
  fold_left (λ total kv, total + StoredVoucher.amount kv.2) m 0.

(** Every stored voucher of the channel is claimed. *)
Definition all_claimed (id : string) (s : VoucherStorage.t) : Prop :=
  ∀ v, v ∈ VoucherStorage.vouchers (VoucherStorage.data s) →
       StoredVoucher.channelId v = id → StoredVoucher.claimed v = true.

(** The chain calls the claim procedure makes for one entry of the map:
    the balance read, then the claim unless the balance read zero. *)
Definition entry_calls (env : Env.t) (kv : string * StoredVoucher.t) : list ChainCall :=
  let id := StoredVoucher.channelId kv.2 in
  match Env.readBalance env id with
  | JS.Ok 0 => [GetBalance id]
  | _ => [GetBalance id;
          Claim id (StoredVoucher.amount kv.2) (StoredVoucher.nonce kv.2)
            (StoredVoucher.signature kv.2)]
  end.

(** The entries [claimPayments] does not skip. *)
Definition payable (svc : DrainService.t) (forceAll : bool)
    (kv : string * StoredVoucher.t) : bool :=
  negb (negb forceAll
        && bool_decide (StoredVoucher.amount kv.2
                        < ProviderConfig.claimThreshold (DrainService.config svc))).

(** The entries [claimExpiring] does not skip. *)
Definition due (bufferSeconds now : Z) (s : VoucherStorage.t)
    (kv : string * StoredVoucher.t) : bool :=
  match VoucherStorage.getChannel kv.1 s with
  | None => false
  | Some channel =>
      negb (bool_decide (ChannelState.expiry channel = 0))
      && negb (bool_decide (ChannelState.expiry channel - now > bufferSeconds))
      && negb (bool_decide (StoredVoucher.amount kv.2 <= 0))
  end.

(** The claim procedure run on a list of entries. *)
Definition submit_all (env : Env.t) (es : list (string * StoredVoucher.t))
    (p : DrainService.Pass) : DrainService.Pass :=
  fold_left (λ p kv, DrainService.submit env kv.1 kv.2 p) es p.

(** No character of the string satisfies [p]. *)
Fixpoint none_of (p : ascii → bool) (s : string) : Prop :=
  match s with
  | EmptyString => True
  | String c r => p c = false ∧ none_of p r
  end.

Definition is_digit (c : ascii) : bool :=
  (Nat.leb 48 (nat_of_ascii c) && Nat.leb (nat_of_ascii c) 57)%bool.

Fixpoint all_digits (s : string) : Prop :=
  match s with
  | EmptyString => True
  | String c r => is_digit c = true ∧ all_digits r
  end.

(** The voucher passes the reading of its numbers and of the chain: both
    numbers read, the chain knows the channel, with a consumer and with
    this provider. *)
Definition gate (svc : DrainService.t) (env : Env.t) (voucher : VoucherHeader.t)
    (amount nonce : Z) (cd : ChannelData.t) : Prop :=
  JS.BigInt (VoucherHeader.amount voucher) = Some amount
  ∧ JS.BigInt (VoucherHeader.nonce voucher) = Some nonce
  ∧ Env.readChannel env (VoucherHeader.channelId voucher) = JS.Ok cd
  ∧ ChannelData.consumer cd ≠ ZERO_ADDRESS
  ∧ JS.toLowerCase (ChannelData.provider cd)
    = JS.toLowerCase (DrainService.account_address svc).

(** Every [lastVoucher] that points into the array points at an element
    of it. *)
Definition wf_refs (s : VoucherStorage.t) : Prop :=
  ∀ id ch i, VoucherStorage.getChannel id s = Some ch →
             ChannelState.lastVoucher ch = Some (InArray i) →
             (i < length (VoucherStorage.vouchers (VoucherStorage.data s)))%nat.

(** The ledger never charges a channel more than its last voucher
    authorises. *)
Definition ledger_ok (s : VoucherStorage.t) : Prop :=
  wf_refs s
  ∧ ∀ id lv, lastVoucherAt id s = Some lv → (charged id s ≤ StoredVoucher.amount lv)%Z.

(** The entry of a channel, when there is one, has the deposit [D] and
    a total within it. *)
Definition within (id : string) (D : Z) (s : VoucherStorage.t) : Prop :=
  match VoucherStorage.getChannel id s with
  | None => True
  | Some ch => ChannelState.deposit ch = D ∧ (ChannelState.totalCharged ch ≤ D)%Z
  end.

(** The store as a restart of the process finds it. *)
Definition reload (w : VoucherStorage.t) : VoucherStorage.t :=
  VoucherStorage.open (VoucherStorage.disk w).

(** A restart finds the content of [w]: the same vouchers, the same
    channels, every entry equal field by field, [lastVoucher] as a
    value. *)
Definition reloads_as_written (w : VoucherStorage.t) : Prop :=
  VoucherStorage.vouchers (VoucherStorage.data (reload w))
  = VoucherStorage.vouchers (VoucherStorage.data w)
  ∧ ∀ cid,
      match VoucherStorage.getChannel cid w with
      | None => VoucherStorage.getChannel cid (reload w) = None
      | Some ch =>
          ∃ ch', VoucherStorage.getChannel cid (reload w) = Some ch'
            ∧ ChannelState.channelId ch' = ChannelState.channelId ch
            ∧ ChannelState.consumer ch' = ChannelState.consumer ch
            ∧ ChannelState.deposit ch' = ChannelState.deposit ch
            ∧ ChannelState.totalCharged ch' = ChannelState.totalCharged ch
            ∧ ChannelState.expiry ch' = ChannelState.expiry ch
            ∧ ChannelState.createdAt ch' = ChannelState.createdAt ch
            ∧ ChannelState.lastActivityAt ch' = ChannelState.lastActivityAt ch
            ∧ VoucherStorage.lastVoucherOf
                (VoucherStorage.vouchers (VoucherStorage.data (reload w))) ch'
              = VoucherStorage.lastVoucherOf
                  (VoucherStorage.vouchers (VoucherStorage.data w)) ch
      end.

(** One use of the service: a validation, a commit, or a claim pass of
    either kind. *)
Inductive service_step (svc : DrainService.t) : VoucherStorage.t → VoucherStorage.t → Prop :=
| step_validate env t1 t2 voucher c s :
    service_step svc s (DrainService.validateVoucher svc env t1 t2 voucher c s).2
| step_commit t3 t4 voucher channelState cost s s' :
    DrainService.storeVoucher t3 t4 voucher channelState cost s = JS.Ok s' →
    service_step svc s s'
| step_claimPayments env forceAll s :
    service_step svc s (DrainService.storage (DrainService.claimPayments svc env forceAll s))
| step_claimExpiring env dateNow bufferSeconds s :
    service_step svc s
      (DrainService.storage (DrainService.claimExpiring svc env dateNow bufferSeconds s)).





(** The ledger entry [ch'], read with the vouchers [vs'], equals the entry
    [ch], read with the vouchers [vs], field by field; [lastVoucher] is
    compared as the voucher it denotes. *)
Definition same_entry (vs' : list StoredVoucher.t) (ch' : ChannelState.t)
    (vs : list StoredVoucher.t) (ch : ChannelState.t) : Prop :=
  ChannelState.channelId ch' = ChannelState.channelId ch
  ∧ ChannelState.consumer ch' = ChannelState.consumer ch
  ∧ ChannelState.deposit ch' = ChannelState.deposit ch
  ∧ ChannelState.totalCharged ch' = ChannelState.totalCharged ch
  ∧ ChannelState.expiry ch' = ChannelState.expiry ch
  ∧ ChannelState.createdAt ch' = ChannelState.createdAt ch
  ∧ ChannelState.lastActivityAt ch' = ChannelState.lastActivityAt ch
  ∧ VoucherStorage.lastVoucherOf vs' ch' = VoucherStorage.lastVoucherOf vs ch.

(** [v] is stored among [vs], and every unclaimed voucher of channel [k]
    stored before it has a smaller amount. *)
Definition earliest (vs : list StoredVoucher.t) (k : string) (v : StoredVoucher.t) : Prop :=
  ∃ i, vs !! i = Some v
       ∧ ∀ j w, (j < i)%nat → vs !! j = Some w →
                StoredVoucher.channelId w = k → StoredVoucher.claimed w = false →
                (StoredVoucher.amount w < StoredVoucher.amount v)%Z.

(** The sum of the amounts of a list of vouchers. *)
Definition sum_amounts (vs : list StoredVoucher.t) : Z :=
  foldr (λ v acc, StoredVoucher.amount v + acc)%Z 0%Z vs.

(** The two numbers of a voucher of the file are BigInt literals. *)
Definition readable_voucher (v : VoucherStorage.VoucherJson) : Prop :=
  is_Some (JS.BigInt (VoucherStorage.j_amount v))
  ∧ is_Some (JS.BigInt (VoucherStorage.j_nonce v)).

(** The numbers of a channel of the file, those of its last voucher
    included, are BigInt literals. *)
Definition readable_channel (ch : VoucherStorage.ChannelJson) : Prop :=
  is_Some (JS.BigInt (VoucherStorage.k_deposit ch))
  ∧ is_Some (JS.BigInt (VoucherStorage.k_totalCharged ch))
  ∧ match VoucherStorage.k_lastVoucher ch with
    | Some v => readable_voucher v
    | None => True
    end.

(** Every number of the document is a BigInt literal. *)
Definition readable (d : VoucherStorage.Document) : Prop :=
  Forall readable_voucher (VoucherStorage.d_vouchers d)
  ∧ map_Forall (λ _ ch, readable_channel ch) (VoucherStorage.d_channels d).

(** The transaction hash the claim procedure collects for an entry: none
    when the balance reads zero or the claim fails. *)
Definition entry_hash (env : Env.t) (kv : string * StoredVoucher.t) : option string :=
  let id := StoredVoucher.channelId kv.2 in
  match Env.readBalance env id with
  | JS.Ok 0 => None
  | _ =>
      match Env.writeClaim env id (StoredVoucher.amount kv.2) (StoredVoucher.nonce kv.2)
              (StoredVoucher.signature kv.2) with
      | JS.Ok hash => Some hash
      | JS.Throw _ => None
      end
  end.

(** A call of one of the two timer methods. *)
Inductive AutoClaimCall : Type :=
| StartAutoClaim (intervalMinutes bufferSeconds : Z)
| StopAutoClaim.

(** The timer state after a series of such calls on a new service. *)
Definition autoClaim_after (cs : list AutoClaimCall) : DrainService.AutoClaim :=
  fold_left (λ a c, match c with
                    | StartAutoClaim m b => DrainService.startAutoClaim m b a
                    | StopAutoClaim => DrainService.stopAutoClaim a
                    end) cs DrainService.noAutoClaim.

(** A run of [n] slashes. *)
Fixpoint slashes (n : nat) : string :=
  match n with
  | O => EmptyString
  | S n' => String "/" (slashes n')
  end.

(** The text holds ASCII characters only. *)
Fixpoint ascii_text (s : string) : Prop :=
  match s with
  | EmptyString => True
  | String c r => (nat_of_ascii c < 128)%nat ∧ ascii_text r
  end.

(** The endpoint as [isEndpointAllowed] compares it. *)
Definition normalized (endpoint : string) : string :=
  JS.toLowerCase (Config.stripSlashes endpoint).

(** The runtime holds the timer of the field and no other, and every
    timer set came with one pass started at once. *)
Definition timers_ok (a : DrainService.AutoClaim) : Prop :=
  match DrainService.autoClaimInterval a with
  | None => DrainService.timers a = []
  | Some h => ∃ t, DrainService.timers a = [t] ∧ DrainService.handle t = h
  end
  ∧ length (DrainService.launched a) = DrainService.made a.

(** The channels of the claim transactions among a list of chain calls,
    in the order submitted. *)
Definition claim_channels (cs : list ChainCall) : list string :=
  omap (λ c, match c with
             | Claim id _ _ _ => Some id
             | GetBalance _ => None
             end) cs.

(** The channels of the balance reads among a list of chain calls. *)
Definition balance_channels (cs : list ChainCall) : list string :=
  omap (λ c, match c with
             | GetBalance id => Some id
             | Claim _ _ _ _ => None
             end) cs.

(* ===================================================================== *)
(** * Stores, chains and requests of the examples                         *)
(* ===================================================================== *)

(** A provider on Polygon with the default claim threshold of 1 USDC. *)
Definition provider1 : DrainService.t :=
  DrainService.mk (ProviderConfig.mk 137 1000000)
    "0xAb5801a7D398351b8bE11C439e05C5B3259aeC9B"
    "0x1C1918C99b6DcE977392E4131C91654d8aB71e64".

(** A stored voucher of channel [id], unclaimed. *)
Definition voucherOf (id : string) (amount nonce : Z) : StoredVoucher.t :=
  StoredVoucher.mk id amount nonce "0xsig" "0xC0ffee" 1700000000000 false None None.

(** A ledger entry of channel [id] with a deposit of 1 USDC. *)
Definition channelOf (id : string) (totalCharged expiry : Z) (lv : option VoucherRef)
  : ChannelState.t :=
  ChannelState.mk id "0xC0ffee" 1000000 totalCharged expiry lv 1700000000000 1700000000000.

(** A store holding the given vouchers and ledger entries, saved. *)
Definition storeOf (vs : list StoredVoucher.t) (chs : list (string * ChannelState.t))
  : VoucherStorage.t :=
  VoucherStorage.save
    (VoucherStorage.mk (VoucherStorage.mkData vs (list_to_map chs) "0" "0")
       VoucherStorage.Missing).

(** The clock advances by a millisecond from one voucher to the next. *)
Definition ticking (start : Z) : nat → Z := λ i, start + Z.of_nat i.

(** An environment for the validation examples: the channel is open
    towards [provider1] with a deposit of 1 USDC and expires at
    1700003600; signatures verify when [sig_ok]. *)
Definition chain1 (sig_ok : bool) : Env.t :=
  Env.mk
    (λ _, JS.Ok (ChannelData.mk "0xC0ffee" "0xab5801a7d398351b8be11c439e05c5b3259aec9b"
                   1000000 0 1700003600))
    (λ _, JS.Ok 1000000) (λ _ _ _ _, JS.Ok "0xtx")
    (λ _ _ _ _ _ _ _, JS.Ok sig_ok) (λ _, ticking 1700000000000).

(** The same chain with no channel under the identifier. *)
Definition chain_empty : Env.t :=
  Env.mk (λ _, JS.Ok (ChannelData.mk ZERO_ADDRESS ZERO_ADDRESS 0 0 0))
    (λ _, JS.Ok 0) (λ _ _ _ _, JS.Ok "0xtx")
    (λ _ _ _ _ _ _ _, JS.Ok true) (λ _, ticking 1700000000000).

(** A request on channel [0xc1] against [chain1], with a voucher of the
    given amount and nonce, for the given cost. *)
Definition requestOf (amount nonce : string) (cost : Z) : Request.t :=
  Request.mk (chain1 true) (VoucherHeader.mk "0xc1" amount nonce "0xsig") cost true
    1700000000000 1700000000001 1700000000002 1700000000003.

Local Open Scope list_scope.
Local Open Scope Z_scope.

(* ===================================================================== *)
(** * Sanity checks of the built-ins                                      *)
(* ===================================================================== *)

Example BigInt_dec : JS.BigInt "150000" = Some 150000. Proof. reflexivity. Qed.
Example BigInt_neg : JS.BigInt " -42 " = Some (-42). Proof. reflexivity. Qed.
Example BigInt_plus : JS.BigInt "+007" = Some 7. Proof. reflexivity. Qed.
Example BigInt_hex : JS.BigInt "0xff" = Some 255. Proof. reflexivity. Qed.
Example BigInt_bin : JS.BigInt "0b101" = Some 5. Proof. reflexivity. Qed.
Example BigInt_empty : JS.BigInt "" = Some 0. Proof. reflexivity. Qed.
Example BigInt_bad : JS.BigInt "12a" = None. Proof. reflexivity. Qed.
Example BigInt_sign_only : JS.BigInt "-" = None. Proof. reflexivity. Qed.
Example BigInt_neg_hex : JS.BigInt "-0x10" = None. Proof. reflexivity. Qed.
Example BigInt_hex_empty : JS.BigInt "0x" = None. Proof. reflexivity. Qed.
Example toString_neg : JS.toString (-1200) = "-1200". Proof. reflexivity. Qed.
Example toString_zero : JS.toString 0 = "0". Proof. reflexivity. Qed.
Example toLower_ex : JS.toLowerCase "0xAbCdEF09" = "0xabcdef09". Proof. reflexivity. Qed.

(* ===================================================================== *)
(** * Decimal text of a bigint reads back as the same bigint             *)
(* ===================================================================== *)

Section BigIntText.

Lemma digits_of_uint (d : uint) : all_digits (NilEmpty.string_of_uint d).
Proof. induction d; simpl; auto. Qed.

Lemma digit_not_space c : is_digit c = true → JS.is_space c = false.
Proof.
  unfold is_digit, JS.is_space. intros H.
  apply andb_true_iff in H as [H1 H2].
  apply Nat.leb_le in H1.
  repeat (apply orb_false_iff; split); apply Nat.eqb_neq; lia.
Qed.

Lemma digits_no_space s : all_digits s → none_of JS.is_space s.
Proof.
  induction s as [|c r IH]; simpl; [done|].
  intros [Hc Hr]. split; [by apply digit_not_space | by apply IH].
Qed.

Lemma trimEnd_id s : none_of JS.is_space s → JS.trimEnd s = s.
Proof.
  induction s as [|c r IH]; simpl; [done|].
  intros [Hc Hr]. rewrite (IH Hr). destruct r; [by rewrite Hc | done].
Qed.

Lemma trim_id s : none_of JS.is_space s → JS.trim s = s.
Proof.
  intros H. unfold JS.trim.
  destruct s as [|c r]; [done|].
  simpl in H. destruct H as [Hc Hr].
  cbn [JS.trimStart]. rewrite Hc. apply trimEnd_id. by split.
Qed.

(** A radix prefix has a letter in second place, a run of digits has
    none. *)
Lemma digits_no_radix_prefix (x : ascii) s :
  is_digit x = false → all_digits s →
  JS.startsWith (String "0" (String x "")) s = false.
Proof.
  intros Hx Hs.
  destruct s as [|c [|c' r]]; cbn [JS.startsWith]; [done| |].
  - by rewrite andb_false_r.
  - destruct (Ascii.eqb_spec x c') as [->|]; [|by rewrite !andb_false_r].
    cbn in Hs. destruct Hs as (_ & Hc' & _). congruence.
Qed.

Lemma BigInt_of_digits s :
  s ≠ "" → all_digits s → JS.BigInt s = JS.decimal_literal s.
Proof.
  intros Hne Hs. unfold JS.BigInt.
  rewrite (trim_id s) by by apply digits_no_space.
  destruct (String.eqb_spec s ""); [done|].
  rewrite !digits_no_radix_prefix by done. simpl.
  destruct s as [|c r]; [done|].
  unfold JS.signed_decimal.
  simpl in Hs. destruct Hs as [Hc _].
  destruct (Ascii.eqb_spec c "-") as [->|]; [done|].
  destruct (Ascii.eqb_spec c "+") as [->|]; done.
Qed.

Lemma decimal_literal_of_pos p :
  JS.decimal_literal (NilEmpty.string_of_uint (Pos.to_uint p)) = Some (Z.pos p).
Proof.
  unfold JS.decimal_literal.
  pose proof (DecimalPos.Unsigned.to_uint_nonnil p) as Hnil.
  pose proof (NilZero.usu (Pos.to_uint p) Hnil) as Hu.
  assert (NilZero.string_of_uint (Pos.to_uint p)
          = NilEmpty.string_of_uint (Pos.to_uint p)) as E
    by (unfold NilZero.string_of_uint; by destruct (Pos.to_uint p)).
  rewrite <- E, Hu. simpl. unfold Z.of_uint.
  by rewrite DecimalPos.Unsigned.of_to.
Qed.

Lemma string_of_pos_nonempty p : NilEmpty.string_of_uint (Pos.to_uint p) ≠ "".
Proof.
  pose proof (DecimalPos.Unsigned.to_uint_nonnil p).
  by destruct (Pos.to_uint p).
Qed.

(** [BigInt(z.toString()) = z]. *)
Lemma BigInt_toString (z : Z) : JS.BigInt (JS.toString z) = Some z.
Proof.
  destruct z as [|p|p].
  - reflexivity.
  - unfold JS.toString. simpl.
    assert (NilZero.string_of_uint (Pos.to_uint p)
            = NilEmpty.string_of_uint (Pos.to_uint p)) as ->.
    { pose proof (DecimalPos.Unsigned.to_uint_nonnil p).
      unfold NilZero.string_of_uint. by destruct (Pos.to_uint p). }
    rewrite BigInt_of_digits;
      [apply decimal_literal_of_pos | apply string_of_pos_nonempty | apply digits_of_uint].
  - unfold JS.toString. simpl.
    assert (NilZero.string_of_uint (Pos.to_uint p)
            = NilEmpty.string_of_uint (Pos.to_uint p)) as ->.
    { pose proof (DecimalPos.Unsigned.to_uint_nonnil p).
      unfold NilZero.string_of_uint. by destruct (Pos.to_uint p). }
    set (ds := NilEmpty.string_of_uint (Pos.to_uint p)).
    assert (all_digits ds) as Hds by apply digits_of_uint.
    unfold JS.BigInt.
    rewrite (trim_id (String "-" ds))
      by (split; [done | by apply digits_no_space]).
    assert (JS.startsWith "0x" (String "-" ds) = false) as -> by done.
    assert (JS.startsWith "0X" (String "-" ds) = false) as -> by done.
    assert (JS.startsWith "0o" (String "-" ds) = false) as -> by done.
    assert (JS.startsWith "0O" (String "-" ds) = false) as -> by done.
    assert (JS.startsWith "0b" (String "-" ds) = false) as -> by done.
    assert (JS.startsWith "0B" (String "-" ds) = false) as -> by done.
    simpl. subst ds. by rewrite decimal_literal_of_pos.
Qed.

End BigIntText.

(* ===================================================================== *)
(** * The document written by [save] loads back                           *)
(* ===================================================================== *)

Section RoundTrip.

Lemma load_save_voucher v :
  VoucherStorage.load_voucher (VoucherStorage.save_voucher v) = Some v.
Proof.
  unfold VoucherStorage.load_voucher, VoucherStorage.save_voucher. cbn.
  rewrite !BigInt_toString. by destruct v.
Qed.

Lemma load_save_channel vs ch :
  VoucherStorage.load_channel (VoucherStorage.save_channel vs ch)
  = Some (snapshot vs ch).
Proof.
  unfold VoucherStorage.load_channel, VoucherStorage.save_channel, snapshot. cbn.
  rewrite !BigInt_toString. cbn.
  destruct (VoucherStorage.lastVoucherOf vs ch) as [lv|]; cbn; [|done].
  by rewrite load_save_voucher.
Qed.

Lemma load_save_vouchers vs :
  mapM VoucherStorage.load_voucher (VoucherStorage.save_voucher <$> vs) = Some vs.
Proof. apply mapM_fmap_Some. intros v. apply load_save_voucher. Qed.

Lemma load_save_channels vs (m : gmap string ChannelState.t) :
  omap VoucherStorage.load_channel (VoucherStorage.save_channel vs <$> m)
  = snapshot vs <$> m.
Proof.
  apply map_eq. intros id.
  rewrite lookup_omap, !lookup_fmap.
  destruct (m !! id) as [ch|]; cbn; [|done].
  apply load_save_channel.
Qed.

Lemma load_serializable d :
  VoucherStorage.load (VoucherStorage.Json (VoucherStorage.serializable d))
  = VoucherStorage.mkData (VoucherStorage.vouchers d)
      (snapshot (VoucherStorage.vouchers d) <$> VoucherStorage.channels d)
      (VoucherStorage.totalEarned d) (VoucherStorage.totalClaimed d).
Proof.
  unfold VoucherStorage.load, VoucherStorage.load_document, VoucherStorage.serializable.
  cbn. rewrite load_save_vouchers. cbn.
  rewrite bool_decide_eq_true_2.
  - cbn. by rewrite load_save_channels.
  - apply map_Forall_lookup. intros id cj Hid.
    rewrite lookup_fmap in Hid.
    destruct (VoucherStorage.channels d !! id) as [ch|]; cbn in Hid; [|done].
    injection Hid as <-. rewrite load_save_channel. by eexists.
Qed.

Lemma lastVoucherOf_snapshot vs vs' ch :
  VoucherStorage.lastVoucherOf vs' (snapshot vs ch) = VoucherStorage.lastVoucherOf vs ch.
Proof.
  unfold snapshot. unfold VoucherStorage.lastVoucherOf. cbn.
  destruct (ChannelState.lastVoucher ch) as [r|]; cbn; [|done].
  by destruct (VoucherStorage.deref vs r).
Qed.

Lemma snapshot_idemp vs vs' ch : snapshot vs' (snapshot vs ch) = snapshot vs ch.
Proof.
  unfold snapshot at 1. rewrite lastVoucherOf_snapshot. by destruct ch.
Qed.

(** Reloading what [save] wrote gives the content that was saved. *)
Lemma reload_saved (s : VoucherStorage.t) :
  same_content
    (VoucherStorage.data (VoucherStorage.open (VoucherStorage.disk (VoucherStorage.save s))))
    (VoucherStorage.data s).
Proof.
  unfold VoucherStorage.open, VoucherStorage.save. cbn [VoucherStorage.data VoucherStorage.disk].
  rewrite load_serializable. repeat split; cbn; try done.
  rewrite <- map_fmap_compose. apply map_fmap_ext. intros id ch _. cbn.
  apply snapshot_idemp.
Qed.

End RoundTrip.

(* ===================================================================== *)
(** * Facts about the insertion-ordered map                               *)
(* ===================================================================== *)

Section VoucherMapFacts.

Import VoucherStorage.

Implicit Types (m : VoucherMap) (k id : string) (v w : StoredVoucher.t).

Lemma map_get_set_eq k v m : map_get k (map_set k v m) = Some v.
Proof.
  induction m as [|[k' v'] m IH]; cbn.
  - by rewrite decide_True.
  - destruct (decide (k' = k)) as [->|Hne]; cbn.
    + by rewrite decide_True.
    + by rewrite decide_False.
Qed.

Lemma map_get_set_ne k k' v m : k ≠ k' → map_get k' (map_set k v m) = map_get k' m.
Proof.
  intros Hne. induction m as [|[k0 v0] m IH]; cbn.
  - by rewrite decide_False.
  - destruct (decide (k0 = k)) as [->|Hk0]; cbn.
    + by rewrite !decide_False.
    + by rewrite IH.
Qed.

Lemma map_set_keys_None k v m :
  map_get k m = None → (map_set k v m).*1 = m.*1 ++ [k].
Proof.
  induction m as [|[k' v'] m IH]; cbn; [done|].
  destruct (decide (k' = k)); [done|]. intros H. cbn. by rewrite IH.
Qed.

Lemma map_set_keys_Some k v m :
  is_Some (map_get k m) → (map_set k v m).*1 = m.*1.
Proof.
  induction m as [|[k' v'] m IH]; cbn; [by intros [? ?]|].
  destruct (decide (k' = k)) as [->|]; [done|]. intros H. cbn. by rewrite IH.
Qed.

Lemma map_get_None_keys k m : map_get k m = None ↔ k ∉ m.*1.
Proof.
  induction m as [|[k' v'] m IH]; cbn.
  - split; [intros _; apply not_elem_of_nil | done].
  - rewrite not_elem_of_cons. destruct (decide (k' = k)) as [->|Hne].
    + split; [done | by intros [? _]].
    + rewrite IH. split; [by intros ? | by intros [_ ?]].
Qed.

Lemma map_get_elem_of k v m : map_get k m = Some v → (k, v) ∈ m.
Proof.
  induction m as [|[k' v'] m IH]; cbn; [done|].
  destruct (decide (k' = k)) as [->|].
  - intros [= ->]. apply list_elem_of_here.
  - intros H. apply list_elem_of_further. by apply IH.
Qed.

Lemma elem_of_map_get k v m : NoDup m.*1 → (k, v) ∈ m → map_get k m = Some v.
Proof.
  induction m as [|[k' v'] m IH]; cbn; [by intros _ ?%elem_of_nil|].
  intros [Hk' Hnd]%NoDup_cons [[= -> ->]|Hin]%elem_of_cons.
  - by rewrite decide_True.
  - destruct (decide (k' = k)) as [->|]; [|by apply IH].
    exfalso. apply Hk'. apply list_elem_of_fmap. by exists (k, v).
Qed.

Lemma map_set_NoDup k v m : NoDup m.*1 → NoDup (map_set k v m).*1.
Proof.
  intros Hnd. destruct (map_get k m) as [v0|] eqn:E.
  - by rewrite map_set_keys_Some.
  - rewrite map_set_keys_None by done.
    apply NoDup_app. split; [done|]. split; [|apply NoDup_singleton].
    intros x Hx ->%list_elem_of_singleton. by apply map_get_None_keys in E.
Qed.

(** Dropping one key commutes with lookups and updates of the others. *)

Lemma without_cons id k v m :
  without id ((k, v) :: m)
  = if decide (k = id) then without id m else (k, v) :: without id m.
Proof.
  unfold without. rewrite filter_cons. cbn [fst].
  destruct (decide (k = id)) as [->|Hne].
  - by rewrite decide_False by auto.
  - by rewrite decide_True.
Qed.

Lemma without_nil id : without id [] = [].
Proof. done. Qed.

Lemma map_get_without_ne id k m : k ≠ id → map_get k (without id m) = map_get k m.
Proof.
  intros Hne. induction m as [|[k' v'] m IH]; [done|].
  rewrite without_cons. cbn [map_get].
  destruct (decide (k' = id)) as [->|Hk'].
  - by rewrite decide_False.
  - cbn [map_get]. by rewrite IH.
Qed.

Lemma map_get_without_eq id m : map_get id (without id m) = None.
Proof.
  induction m as [|[k' v'] m IH]; [done|].
  rewrite without_cons. destruct (decide (k' = id)) as [->|Hk']; [done|].
  cbn [map_get]. by rewrite decide_False.
Qed.

Lemma map_set_without_ne id k v m :
  k ≠ id → map_set k v (without id m) = without id (map_set k v m).
Proof.
  intros Hne. induction m as [|[k' v'] m IH].
  - cbn [map_set]. rewrite without_nil, without_cons. by rewrite decide_False.
  - cbn [map_set]. rewrite without_cons.
    destruct (decide (k' = k)) as [->|Hkk].
    + rewrite decide_False by done. cbn [map_set]. rewrite decide_True by done.
      by rewrite without_cons, decide_False.
    + rewrite without_cons. destruct (decide (k' = id)) as [->|Hk']; [done|].
      cbn [map_set]. by rewrite decide_False, IH.
Qed.

Lemma without_map_set_eq id v m : without id (map_set id v m) = without id m.
Proof.
  induction m as [|[k' v'] m IH]; cbn [map_set].
  - by rewrite without_cons, decide_True.
  - destruct (decide (k' = id)) as [->|Hne].
    + by rewrite !without_cons, !decide_True.
    + by rewrite !without_cons, !decide_False, IH.
Qed.

End VoucherMapFacts.

(* ===================================================================== *)
(** * The highest unclaimed voucher of every channel                      *)
(* ===================================================================== *)

Section Highest.

Import VoucherStorage.

Implicit Types (m : VoucherMap) (k id : string) (v w : StoredVoucher.t)
  (vs : list StoredVoucher.t).

Lemma highest_of_snoc vs v : highest_of (vs ++ [v]) = highest_step (highest_of vs) v.
Proof. unfold highest_of. by rewrite fold_left_app. Qed.

Lemma highest_step_claimed m v : StoredVoucher.claimed v = true → highest_step m v = m.
Proof. unfold highest_step. by intros ->. Qed.

Lemma best_snoc_keep vs k v0 v :
  best vs k v0 →
  (StoredVoucher.channelId v = k → StoredVoucher.claimed v = false →
   StoredVoucher.amount v ≤ StoredVoucher.amount v0) →
  best (vs ++ [v]) k v0.
Proof.
  intros (Hin & Hk & Hcl & Hmax) Hv. split_and!; [|done|done|].
  - apply elem_of_app. by left.
  - intros w [Hw| ->%list_elem_of_singleton]%elem_of_app Hwk Hwc; [by apply Hmax | by apply Hv].
Qed.

Lemma best_snoc_new vs v :
  StoredVoucher.claimed v = false →
  (∀ w, w ∈ vs → StoredVoucher.channelId w = StoredVoucher.channelId v →
        StoredVoucher.claimed w = false →
        StoredVoucher.amount w ≤ StoredVoucher.amount v) →
  best (vs ++ [v]) (StoredVoucher.channelId v) v.
Proof.
  intros Hcl Hmax. split_and!; [|done|done|].
  - apply elem_of_app. right. by apply list_elem_of_singleton.
  - intros w [Hw| ->%list_elem_of_singleton]%elem_of_app Hwk Hwc; [by apply Hmax | lia].
Qed.

Lemma complete_snoc vs m v :
  (∀ w, w ∈ vs → StoredVoucher.claimed w = false →
        is_Some (map_get (StoredVoucher.channelId w) m)) →
  (StoredVoucher.claimed v = false → is_Some (map_get (StoredVoucher.channelId v) m)) →
  ∀ w, w ∈ vs ++ [v] → StoredVoucher.claimed w = false →
       is_Some (map_get (StoredVoucher.channelId w) m).
Proof.
  intros Hc Hv w [Hw| ->%list_elem_of_singleton]%elem_of_app Hwc; [by apply Hc | by apply Hv].
Qed.

Lemma highest_inv_nil : highest_inv [] [].
Proof.
  split; [apply NoDup_nil_2 | done |]. by intros w ?%elem_of_nil.
Qed.

(** Filing [v] under its channel, when it beats what is filed there. *)
Lemma highest_inv_set vs m v :
  highest_inv vs m →
  StoredVoucher.claimed v = false →
  (∀ e, map_get (StoredVoucher.channelId v) m = Some e →
        StoredVoucher.amount v > StoredVoucher.amount e) →
  highest_inv (vs ++ [v]) (map_set (StoredVoucher.channelId v) v m).
Proof.
  intros [Hnd Hs Hc] Hcl Hbeat.
  set (kv := StoredVoucher.channelId v) in *.
  split; [by apply map_set_NoDup | |].
  - intros k v0 Hget. destruct (decide (k = kv)) as [->|Hne].
    + rewrite map_get_set_eq in Hget. injection Hget as <-.
      apply best_snoc_new; [done|]. intros w Hw Hwk Hwc.
      destruct (Hc w Hw Hwc) as [e He]. rewrite Hwk in He. fold kv in He.
      specialize (Hbeat e He).
      destruct (Hs kv e He) as (_ & _ & _ & Hmax).
      specialize (Hmax w Hw Hwk Hwc). lia.
    + rewrite map_get_set_ne in Hget by done.
      apply best_snoc_keep; [by apply Hs|]. intros Hk. by subst kv.
  - apply complete_snoc.
    + intros w Hw Hwc. destruct (decide (StoredVoucher.channelId w = kv)) as [->|Hne].
      * rewrite map_get_set_eq. by eexists.
      * rewrite map_get_set_ne by done. by apply Hc.
    + intros _. fold kv. rewrite map_get_set_eq. by eexists.
Qed.

Lemma highest_inv_step vs m v :
  highest_inv vs m → highest_inv (vs ++ [v]) (highest_step m v).
Proof.
  intros Hinv. pose proof Hinv as [Hnd Hs Hc]. unfold highest_step.
  destruct (StoredVoucher.claimed v) eqn:Hcl.
  { split; [done| |].
    - intros k v0 Hget. apply best_snoc_keep; [by apply Hs|]. congruence.
    - apply complete_snoc; [done|]. congruence. }
  destruct (map_get (StoredVoucher.channelId v) m) as [existing|] eqn:Hex.
  - case_bool_decide as Hgt.
    + apply highest_inv_set; [done|done|]. intros e He. rewrite Hex in He. by injection He as <-.
    + split; [done| |].
      * intros k v0 Hget. apply best_snoc_keep; [by apply Hs|].
        intros <- _. rewrite Hex in Hget. injection Hget as <-. lia.
      * apply complete_snoc; [done|]. intros _. rewrite Hex. by eexists.
  - apply highest_inv_set; [done|done|]. intros e He. by rewrite Hex in He.
Qed.

Lemma highest_of_inv vs : highest_inv vs (highest_of vs).
Proof.
  induction vs as [|v vs IH] using rev_ind; [apply highest_inv_nil|].
  rewrite highest_of_snoc. by apply highest_inv_step.
Qed.

Lemma getHighest_inv s :
  highest_inv (vouchers (data s)) (getHighestVoucherPerChannel s).
Proof. apply highest_of_inv. Qed.

End Highest.

(* ===================================================================== *)
(** * [markClaimed]                                                       *)
(* ===================================================================== *)

Section MarkClaimed.

Import VoucherStorage.

Implicit Types (m : VoucherMap) (k id txHash : string) (v w : StoredVoucher.t)
  (vs : list StoredVoucher.t) (clock : nat → Z).

Lemma mark_channelId id txHash now v :
  StoredVoucher.channelId (mark id txHash now v) = StoredVoucher.channelId v.
Proof. unfold mark. by destruct (_ && _). Qed.

Lemma mark_other id txHash now v :
  StoredVoucher.channelId v ≠ id → mark id txHash now v = v.
Proof. intros Hne. unfold mark. by rewrite bool_decide_eq_false_2. Qed.

Lemma mark_already id txHash now v :
  StoredVoucher.claimed v = true → mark id txHash now v = v.
Proof. intros Hcl. unfold mark. by rewrite Hcl, andb_false_r. Qed.

Lemma mark_fresh id txHash now v :
  StoredVoucher.channelId v = id → StoredVoucher.claimed v = false →
  mark id txHash now v
  = StoredVoucher.mk (StoredVoucher.channelId v) (StoredVoucher.amount v)
      (StoredVoucher.nonce v) (StoredVoucher.signature v) (StoredVoucher.consumer v)
      (StoredVoucher.receivedAt v) true (Some now) (Some txHash).
Proof. intros Hid Hcl. unfold mark. by rewrite bool_decide_eq_true_2, Hcl. Qed.

Lemma mark_claimed id txHash now v :
  StoredVoucher.channelId v = id → StoredVoucher.claimed (mark id txHash now v) = true.
Proof.
  intros Hid. destruct (StoredVoucher.claimed v) eqn:Hcl.
  - by rewrite mark_already.
  - by rewrite mark_fresh.
Qed.

(** Marking never clears a flag. *)
Lemma mark_keeps_claimed id txHash now v :
  StoredVoucher.claimed v = true → StoredVoucher.claimed (mark id txHash now v) = true.
Proof. intros Hcl. by rewrite mark_already. Qed.

Lemma highest_step_without_ne id m v :
  StoredVoucher.channelId v ≠ id →
  highest_step (without id m) v = without id (highest_step m v).
Proof.
  intros Hne. unfold highest_step.
  destruct (StoredVoucher.claimed v); [done|].
  rewrite map_get_without_ne by done.
  destruct (map_get (StoredVoucher.channelId v) m) as [e|].
  - case_bool_decide; [by apply map_set_without_ne | done].
  - by apply map_set_without_ne.
Qed.

Lemma highest_step_without_eq id m v :
  StoredVoucher.channelId v = id → without id (highest_step m v) = without id m.
Proof.
  intros <-. unfold highest_step.
  destruct (StoredVoucher.claimed v); [done|].
  destruct (map_get (StoredVoucher.channelId v) m) as [e|].
  - case_bool_decide; [by apply without_map_set_eq | done].
  - by apply without_map_set_eq.
Qed.

Lemma highest_after_mark id txHash vs : ∀ clock m,
  fold_left highest_step (imap (λ i v, mark id txHash (clock i) v) vs) (without id m)
  = without id (fold_left highest_step vs m).
Proof.
  induction vs as [|v vs IH]; intros clock m; [done|].
  rewrite imap_cons. cbn [fold_left].
  destruct (decide (StoredVoucher.channelId v = id)) as [Hid|Hne].
  - rewrite highest_step_claimed by by apply mark_claimed.
    rewrite <- (highest_step_without_eq id m v) by done.
    apply (IH (clock ∘ S)).
  - rewrite mark_other by done.
    rewrite highest_step_without_ne by done.
    apply (IH (clock ∘ S)).
Qed.

Lemma getHighest_markClaimed id txHash clock s :
  getHighestVoucherPerChannel (markClaimed id txHash clock s)
  = without id (getHighestVoucherPerChannel s).
Proof.
  unfold getHighestVoucherPerChannel, markClaimed. cbn.
  apply (highest_after_mark id txHash (vouchers (data s)) clock []).
Qed.

Lemma markClaimed_lookup id txHash clock s i :
  vouchers (data (markClaimed id txHash clock s)) !! i
  = mark id txHash (clock i) <$> vouchers (data s) !! i.
Proof. cbn. by rewrite list_lookup_imap. Qed.

Lemma markClaimed_all_claimed id txHash clock s v :
  v ∈ vouchers (data (markClaimed id txHash clock s)) →
  StoredVoucher.channelId v = id → StoredVoucher.claimed v = true.
Proof.
  intros [i Hi]%list_elem_of_lookup Hid.
  rewrite markClaimed_lookup in Hi.
  destruct (vouchers (data s) !! i) as [v0|]; cbn in Hi; [|done].
  injection Hi as <-. apply mark_claimed. by rewrite mark_channelId in Hid.
Qed.

Lemma unclaimedOf_markClaimed id txHash clock s :
  unclaimedOf id (markClaimed id txHash clock s) = [].
Proof.
  unfold unclaimedOf.
  destruct (filter _ _) as [|v l] eqn:E; [done|].
  assert (v ∈ v :: l) as Hv by apply list_elem_of_here.
  rewrite <- E in Hv. apply list_elem_of_filter in Hv as [[Hid Hcl] Hv].
  rewrite (markClaimed_all_claimed _ _ _ _ _ Hv Hid) in Hcl. done.
Qed.

Lemma total_fold m : ∀ a,
  fold_left (λ total (kv : string * StoredVoucher.t), total + StoredVoucher.amount kv.2) m a
  = a + total_of m.
Proof.
  unfold total_of. induction m as [|kv m IH]; intros a; cbn [fold_left]; [lia|].
  rewrite (IH (a + _)), (IH (0 + _)). lia.
Qed.

Lemma total_cons kv m : total_of (kv :: m) = StoredVoucher.amount kv.2 + total_of m.
Proof. unfold total_of at 1. cbn [fold_left]. rewrite total_fold. lia. Qed.

Lemma total_without_absent id m : id ∉ m.*1 → without id m = m.
Proof.
  induction m as [|[k v] m IH]; [done|].
  rewrite fmap_cons. cbn [fst].
  intros [Hk Hm]%not_elem_of_cons. rewrite without_cons, decide_False by done.
  by rewrite IH.
Qed.

Lemma total_without id m :
  NoDup m.*1 →
  total_of (without id m)
  = total_of m - default 0 (StoredVoucher.amount <$> map_get id m).
Proof.
  induction m as [|[k v] m IH]; [done|].
  rewrite fmap_cons. cbn [fst]. intros [Hk Hnd]%NoDup_cons.
  rewrite without_cons. cbn [map_get]. destruct (decide (k = id)) as [->|Hne].
  - rewrite total_without_absent by done. rewrite total_cons. cbn. lia.
  - rewrite !total_cons, IH by done. cbn. lia.
Qed.

Lemma getTotalUnclaimed_markClaimed id txHash clock s :
  getTotalUnclaimed (markClaimed id txHash clock s)
  = getTotalUnclaimed s
    - default 0 (StoredVoucher.amount <$> map_get id (getHighestVoucherPerChannel s)).
Proof.
  unfold getTotalUnclaimed. rewrite getHighest_markClaimed.
  apply total_without. apply getHighest_inv.
Qed.

End MarkClaimed.

(* ===================================================================== *)
(** * Claim passes                                                        *)
(* ===================================================================== *)

Section ClaimPass.

Import VoucherStorage DrainService.

Implicit Types (k id : string) (v w : StoredVoucher.t) (p : Pass) (env : Env.t)
  (es : list (string * StoredVoucher.t)).

Lemma all_claimed_unclaimedOf id s : all_claimed id s ↔ unclaimedOf id s = [].
Proof.
  unfold all_claimed, unclaimedOf. split.
  - intros H. destruct (filter _ _) as [|v l] eqn:E; [done|].
    assert (v ∈ v :: l) as Hv by apply list_elem_of_here.
    rewrite <- E in Hv. apply list_elem_of_filter in Hv as [[Hid Hcl] Hv].
    rewrite (H v Hv Hid) in Hcl. done.
  - intros H v Hv Hid. destruct (StoredVoucher.claimed v) eqn:Hcl; [done|].
    exfalso. eapply (filter_nil_not_elem_of _ _ v H); [|done]. done.
Qed.

Lemma all_claimed_markClaimed_same id txHash clock s :
  all_claimed id (markClaimed id txHash clock s).
Proof. intros v Hv Hid. by eapply markClaimed_all_claimed. Qed.

Lemma all_claimed_markClaimed id k txHash clock s :
  all_claimed id s → all_claimed id (markClaimed k txHash clock s).
Proof.
  intros H v [i Hi]%list_elem_of_lookup Hid.
  rewrite markClaimed_lookup in Hi.
  destruct (vouchers (data s) !! i) as [v0|] eqn:E; cbn in Hi; [|done].
  injection Hi as <-. rewrite mark_channelId in Hid.
  apply mark_keeps_claimed, H; [|done]. by eapply list_elem_of_lookup_2.
Qed.

Lemma all_claimed_handleClaimError id env k e s :
  all_claimed id s → all_claimed id (handleClaimError env k e s).
Proof.
  unfold handleClaimError. destruct (isPermanent e); [|done].
  apply all_claimed_markClaimed.
Qed.

Lemma all_claimed_submit id env k v p :
  all_claimed id (storage p) → all_claimed id (storage (submit env k v p)).
Proof.
  intros H. unfold submit.
  destruct (Env.readBalance env _) as [[| |]|]; cbn;
    try (destruct (Env.writeClaim env _ _ _ _); cbn);
    auto using all_claimed_markClaimed, all_claimed_handleClaimError.
Qed.

Lemma all_claimed_submit_all id env es : ∀ p,
  all_claimed id (storage p) → all_claimed id (storage (submit_all env es p)).
Proof.
  induction es as [|[k v] es IH]; intros p H; [done|].
  apply IH. by apply all_claimed_submit.
Qed.

(** A channel whose vouchers are all claimed has no entry in the map. *)
Lemma all_claimed_not_highest id s :
  all_claimed id s → map_get id (getHighestVoucherPerChannel s) = None.
Proof.
  intros H. destruct (map_get _ _) as [v|] eqn:E; [|done].
  destruct (hi_sound _ _ (getHighest_inv s) id v E) as (Hin & Hid & Hcl & _).
  rewrite (H v Hin Hid) in Hcl. done.
Qed.

(** The channels are never touched by the claim procedure. *)
Lemma channels_handleClaimError env k e s :
  channels (data (handleClaimError env k e s)) = channels (data s).
Proof. unfold handleClaimError. by destruct (isPermanent e). Qed.

Lemma channels_submit env k v p :
  channels (data (storage (submit env k v p))) = channels (data (storage p)).
Proof.
  unfold submit.
  destruct (Env.readBalance env _) as [[| |]|]; cbn;
    try (destruct (Env.writeClaim env _ _ _ _); cbn);
    auto using channels_handleClaimError.
Qed.

Lemma getChannel_submit id env k v p :
  getChannel id (storage (submit env k v p)) = getChannel id (storage p).
Proof. unfold getChannel. by rewrite channels_submit. Qed.

(** The calls of one turn. *)
Lemma calls_submit env k v p :
  calls (submit env k v p) = calls p ++ entry_calls env (k, v).
Proof.
  unfold submit, entry_calls. cbn [snd].
  destruct (Env.readBalance env _) as [[| |]|]; cbn [calls];
    try (destruct (Env.writeClaim env _ _ _ _); cbn [calls]);
    by rewrite <- ?app_assoc.
Qed.

Lemma calls_submit_all env es : ∀ p,
  calls (submit_all env es p) = calls p ++ mjoin (entry_calls env <$> es).
Proof.
  induction es as [|[k v] es IH]; intros p; cbn.
  - by rewrite app_nil_r.
  - unfold submit_all in IH. rewrite IH, calls_submit. by rewrite <- app_assoc.
Qed.

(** Both passes are the claim procedure run on the entries they do not
    skip. *)
Lemma claimPayments_submit_all svc env forceAll s :
  claimPayments svc env forceAll s
  = submit_all env (filter (λ kv, payable svc forceAll kv = true)
                      (getHighestVoucherPerChannel s)) (mkPass [] [] s).
Proof.
  unfold claimPayments. generalize (mkPass [] [] s) as p.
  induction (getHighestVoucherPerChannel s) as [|[k v] es IH]; intros p; [done|].
  cbn [fold_left]. destruct (payable svc forceAll (k, v)) eqn:E.
  - rewrite filter_cons_True by done. unfold submit_all. cbn [fold_left fst snd].
    unfold payable in E. cbn [snd] in E. unfold claimPayments_step at 2.
    apply negb_true_iff in E. rewrite E. apply IH.
  - rewrite filter_cons_False by (by rewrite E).
    unfold payable in E. cbn [snd] in E. unfold claimPayments_step at 2.
    apply negb_false_iff in E. rewrite E. apply IH.
Qed.

Lemma claimExpiring_fold env bufferSeconds now es : ∀ p,
  fold_left (claimExpiring_step env bufferSeconds now) es p
  = submit_all env (filter (λ kv, due bufferSeconds now (storage p) kv = true) es) p.
Proof.
  induction es as [|[k v] es IH]; intros p; [done|].
  cbn [fold_left]. destruct (due bufferSeconds now (storage p) (k, v)) eqn:E.
  - rewrite filter_cons_True by done. unfold submit_all at 1. cbn [fold_left fst snd].
    assert (claimExpiring_step env bufferSeconds now p (k, v) = submit env k v p) as ->.
    { unfold due in E. cbn [fst snd] in E. unfold claimExpiring_step.
      destruct (getChannel k (storage p)) as [ch|]; [|done].
      apply andb_true_iff in E as [[E1 E2]%andb_true_iff E3].
      apply negb_true_iff in E1, E2, E3. by rewrite E1, E2, E3. }
    rewrite IH. unfold submit_all. f_equal. apply list_filter_iff. intros kv.
    unfold due. by rewrite getChannel_submit.
  - rewrite filter_cons_False by (by rewrite E).
    assert (claimExpiring_step env bufferSeconds now p (k, v) = p) as ->; [|apply IH].
    unfold due in E. cbn [fst snd] in E. unfold claimExpiring_step.
    destruct (getChannel k (storage p)) as [ch|]; [|done].
    destruct (bool_decide (ChannelState.expiry ch = 0)); [done|].
    destruct (bool_decide (ChannelState.expiry ch - now > bufferSeconds)); [done|].
    destruct (bool_decide (StoredVoucher.amount v <= 0)); [done|]. done.
Qed.

Lemma claimExpiring_submit_all svc env dateNow bufferSeconds s :
  claimExpiring svc env dateNow bufferSeconds s
  = submit_all env (filter (λ kv, due bufferSeconds (dateNow `div` 1000) s kv = true)
                      (getHighestVoucherPerChannel s)) (mkPass [] [] s).
Proof. unfold claimExpiring. by rewrite claimExpiring_fold. Qed.

End ClaimPass.

Section ClaimPassMore.

Import VoucherStorage DrainService.

Implicit Types (k id : string) (v w : StoredVoucher.t) (p : Pass) (env : Env.t)
  (es : list (string * StoredVoucher.t)).

Lemma submit_all_app env es1 es2 p :
  submit_all env (es1 ++ es2) p = submit_all env es2 (submit_all env es1 p).
Proof. unfold submit_all. apply fold_left_app. Qed.

Lemma submit_all_cons env k v es p :
  submit_all env ((k, v) :: es) p = submit_all env es (submit env k v p).
Proof. done. Qed.

(** The turns that end in [markClaimed]: a balance of zero, a claim that
    goes through. *)
Lemma submit_zero_balance env k v p :
  Env.readBalance env (StoredVoucher.channelId v) = JS.Ok 0 →
  storage (submit env k v p) = markClaimed k "0x0" (Env.markClock env k) (storage p)
  ∧ txHashes (submit env k v p) = txHashes p.
Proof. intros H. unfold submit. by rewrite H. Qed.

Lemma submit_success env k v p hash :
  Env.readBalance env (StoredVoucher.channelId v) ≠ JS.Ok 0 →
  Env.writeClaim env (StoredVoucher.channelId v) (StoredVoucher.amount v)
    (StoredVoucher.nonce v) (StoredVoucher.signature v) = JS.Ok hash →
  storage (submit env k v p) = markClaimed k hash (Env.markClock env k) (storage p)
  ∧ txHashes (submit env k v p) = txHashes p ++ [hash].
Proof.
  intros Hb Hw. unfold submit.
  destruct (Env.readBalance env _) as [[| |]|]; try done; by rewrite Hw.
Qed.

(** Marking one channel leaves the unclaimed vouchers of another. *)
Lemma unclaimedOf_markClaimed_ne id k txHash clock s :
  k ≠ id → unclaimedOf id (markClaimed k txHash clock s) = unclaimedOf id s.
Proof.
  intros Hne. unfold unclaimedOf, markClaimed. cbn.
  generalize clock. induction (vouchers (data s)) as [|v vs IH]; intros c; [done|].
  rewrite imap_cons, !filter_cons.
  destruct (decide (StoredVoucher.channelId v = k)) as [Hk|Hk].
  - rewrite decide_False by (rewrite mark_channelId; intros [? _]; congruence).
    rewrite decide_False by (intros [? _]; congruence).
    apply (IH (c ∘ S)).
  - rewrite mark_other by done.
    destruct (decide _); [f_equal|]; apply (IH (c ∘ S)).
Qed.

Lemma unclaimedOf_handleClaimError_ne id env k e s :
  k ≠ id → unclaimedOf id (handleClaimError env k e s) = unclaimedOf id s.
Proof.
  intros Hne. unfold handleClaimError. destruct (isPermanent e); [|done].
  by apply unclaimedOf_markClaimed_ne.
Qed.

Lemma unclaimedOf_submit_ne id env k v p :
  k ≠ id → unclaimedOf id (storage (submit env k v p)) = unclaimedOf id (storage p).
Proof.
  intros Hne. unfold submit.
  destruct (Env.readBalance env _) as [[| |]|]; cbn [storage];
    [by apply unclaimedOf_markClaimed_ne|..];
    destruct (Env.writeClaim env _ _ _ _); cbn [storage];
    first [by apply unclaimedOf_markClaimed_ne | by apply unclaimedOf_handleClaimError_ne].
Qed.

Lemma unclaimedOf_submit_all_ne id env es : ∀ p,
  id ∉ es.*1 →
  unclaimedOf id (storage (submit_all env es p)) = unclaimedOf id (storage p).
Proof.
  induction es as [|[k v] es IH]; intros p Hid; [done|].
  rewrite fmap_cons in Hid. cbn [fst] in Hid. apply not_elem_of_cons in Hid as [Hk Hes].
  rewrite submit_all_cons, IH by done. by apply unclaimedOf_submit_ne.
Qed.

(** An entry of the map is filed under the channel of its voucher. *)
Lemma highest_entry_key s k v :
  (k, v) ∈ getHighestVoucherPerChannel s →
  StoredVoucher.channelId v = k ∧ StoredVoucher.claimed v = false
  ∧ v ∈ vouchers (data s).
Proof.
  intros Hin. pose proof (getHighest_inv s) as [Hnd Hs _].
  apply elem_of_map_get in Hin; [|done].
  destruct (Hs k v Hin) as (? & ? & ? & _). done.
Qed.

(** Every call of a run of the claim procedure over entries of the map
    is about the channel of one of them. *)
Lemma calls_submit_all_channel env s es c :
  es ⊆ getHighestVoucherPerChannel s →
  c ∈ mjoin (entry_calls env <$> es) →
  call_channel c ∈ es.*1.
Proof.
  intros Hsub Hc. apply list_elem_of_join in Hc as (cs & Hc & Hcs).
  apply list_elem_of_fmap in Hcs as ([k v] & -> & Hkv).
  destruct (highest_entry_key s k v (Hsub _ Hkv)) as (Hk & _).
  assert (call_channel c = k) as ->.
  { unfold entry_calls in Hc. cbn [snd] in Hc. rewrite Hk in Hc.
    destruct (Env.readBalance env k) as [[| |]|];
      repeat (apply elem_of_cons in Hc as [->|Hc]; [done|]);
      by apply elem_of_nil in Hc. }
  apply list_elem_of_fmap. by exists (k, v).
Qed.

Lemma filter_subseteq_highest (P : string * StoredVoucher.t → Prop)
    `{∀ x, Decision (P x)} (m : list (string * StoredVoucher.t)) :
  filter P m ⊆ m.
Proof. intros x Hx. by apply list_elem_of_filter in Hx as [_ ?]. Qed.

(** A channel without an entry in the map is not called upon. *)
Lemma no_entry_no_call env s (P : string * StoredVoucher.t → Prop)
    `{∀ x, Decision (P x)} id c :
  map_get id (getHighestVoucherPerChannel s) = None →
  c ∈ mjoin (entry_calls env <$> filter P (getHighestVoucherPerChannel s)) →
  call_channel c ≠ id.
Proof.
  intros Hnone Hc Heq.
  apply (calls_submit_all_channel env s) in Hc; [|apply filter_subseteq_highest].
  apply map_get_None_keys in Hnone. apply Hnone. rewrite <- Heq.
  apply list_elem_of_fmap in Hc as (kv & -> & Hkv).
  apply list_elem_of_filter in Hkv as [_ Hkv].
  apply list_elem_of_fmap. by exists kv.
Qed.

Lemma claimPayments_calls svc env forceAll s :
  calls (claimPayments svc env forceAll s)
  = mjoin (entry_calls env <$> filter (λ kv, payable svc forceAll kv = true)
                                  (getHighestVoucherPerChannel s)).
Proof. by rewrite claimPayments_submit_all, calls_submit_all. Qed.

Lemma claimExpiring_calls svc env dateNow bufferSeconds s :
  calls (claimExpiring svc env dateNow bufferSeconds s)
  = mjoin (entry_calls env <$>
              filter (λ kv, due bufferSeconds (dateNow `div` 1000) s kv = true)
                (getHighestVoucherPerChannel s)).
Proof. by rewrite claimExpiring_submit_all, calls_submit_all. Qed.

(** Once every voucher of a channel is claimed, no pass calls the chain
    for it. *)
Lemma all_claimed_no_call_payments svc env forceAll s id c :
  all_claimed id s → c ∈ calls (claimPayments svc env forceAll s) → call_channel c ≠ id.
Proof.
  intros Hall Hc. rewrite claimPayments_calls in Hc.
  eapply no_entry_no_call; [|done]. by apply all_claimed_not_highest.
Qed.


End ClaimPassMore.

(* ===================================================================== *)
(** * Errors of a claim                                                 *)
(* ===================================================================== *)

Section ClaimTheorems.

Import VoucherStorage DrainService.





(** A call of a pass stems from the entry of its channel. *)
Lemma call_entry env s es c :
  es ⊆ getHighestVoucherPerChannel s →
  c ∈ mjoin (entry_calls env <$> es) →
  ∃ v, map_get (call_channel c) (getHighestVoucherPerChannel s) = Some v
    ∧ (call_channel c, v) ∈ es
    ∧ c ∈ entry_calls env (call_channel c, v).
Proof.
  intros Hsub Hc. apply list_elem_of_join in Hc as (cs & Hc & Hcs).
  apply list_elem_of_fmap in Hcs as ([k v] & -> & Hkv).
  destruct (highest_entry_key s k v (Hsub _ Hkv)) as (Hk & _).
  assert (call_channel c = k) as ->.
  { unfold entry_calls in Hc. cbn [snd] in Hc. rewrite Hk in Hc.
    destruct (Env.readBalance env k) as [[| |]|];
      repeat (apply elem_of_cons in Hc as [->|Hc]; [done|]);
      by apply elem_of_nil in Hc. }
  exists v. split_and!; [|done|done].
  apply elem_of_map_get; [apply getHighest_inv | by apply Hsub].
Qed.

(** An entry that is run ends with its channel fully claimed when the
    balance reads zero or the claim goes through. *)
Lemma submit_all_claims env es k v p :
  (k, v) ∈ es →
  Env.readBalance env (StoredVoucher.channelId v) = JS.Ok 0
  ∨ (∃ hash, Env.writeClaim env (StoredVoucher.channelId v) (StoredVoucher.amount v)
               (StoredVoucher.nonce v) (StoredVoucher.signature v) = JS.Ok hash) →
  all_claimed k (storage (submit_all env es p)).
Proof.
  intros (es1 & es2 & ->)%list_elem_of_split Hend.
  rewrite submit_all_app, submit_all_cons.
  apply all_claimed_submit_all.
  assert (Env.readBalance env (StoredVoucher.channelId v) = JS.Ok 0
          ∨ Env.readBalance env (StoredVoucher.channelId v) ≠ JS.Ok 0) as [Hz|Hnz]
    by (destruct (Env.readBalance env _) as [[| |]|]; by auto).
  - destruct (submit_zero_balance env k v (submit_all env es1 p) Hz) as [-> _].
    apply all_claimed_markClaimed_same.
  - destruct Hend as [?|[hash Hw]]; [done|].
    destruct (submit_success env k v (submit_all env es1 p) hash Hnz Hw) as [-> _].
    apply all_claimed_markClaimed_same.
Qed.

End ClaimTheorems.

(* ===================================================================== *)
(** * Validation                                                          *)
(* ===================================================================== *)

Section Validation.

Import VoucherStorage DrainService.

Implicit Types (svc : DrainService.t) (env : Env.t) (voucher : VoucherHeader.t)
  (s : VoucherStorage.t) (cd : ChannelData.t).

(** The ledger entry the checks run on carries the stored total and the
    stored last voucher. *)
Lemma resolveChannel_totalCharged t1 t2 id cd s :
  ChannelState.totalCharged (resolveChannel t1 t2 id cd s).1 = charged id s.
Proof.
  unfold resolveChannel, charged. destruct (getChannel id s) as [ch|]; [|done].
  by case_bool_decide.
Qed.

Lemma resolveChannel_vouchers t1 t2 id cd s :
  vouchers (data (resolveChannel t1 t2 id cd s).2) = vouchers (data s).
Proof.
  unfold resolveChannel. destruct (getChannel id s) as [ch|]; [|done].
  by case_bool_decide.
Qed.


Lemma resolveChannel_lastVoucher t1 t2 id cd s :
  lastVoucherOf (vouchers (data s)) (resolveChannel t1 t2 id cd s).1
  = lastVoucherAt id s.
Proof.
  unfold resolveChannel, lastVoucherAt. destruct (getChannel id s) as [ch|]; [|done].
  by case_bool_decide.
Qed.

(** The entries after [resolveChannel]: all as before, except the
    expiry of the voucher's channel when it was unset. *)
Lemma resolveChannel_channels t1 t2 id cd s id' :
  getChannel id' (resolveChannel t1 t2 id cd s).2 = getChannel id' s
  ∨ (id' = id ∧ ∃ ch, getChannel id s = Some ch ∧ ChannelState.expiry ch = 0
     ∧ getChannel id' (resolveChannel t1 t2 id cd s).2
       = Some (ChannelState.set_expiry (JS.Number (ChannelData.expiry cd)) ch)).
Proof.
  unfold resolveChannel. destruct (getChannel id s) as [ch|] eqn:Hch; [|by left].
  case_bool_decide as He; [|by left]. cbn [snd].
  unfold getChannel. cbn.
  destruct (decide (id = id')) as [<-|Hne].
  - right. split; [done|]. exists ch. by rewrite lookup_insert_eq.
  - left. by rewrite lookup_insert_ne.
Qed.

Lemma validate_gate svc env t1 t2 voucher c s amount nonce cd :
  gate svc env voucher amount nonce cd →
  validateVoucher svc env t1 t2 voucher c s
  = (checkVoucher svc env voucher amount nonce c cd (vouchers (data s))
       (resolveChannel t1 t2 (VoucherHeader.channelId voucher) cd s).1,
     (resolveChannel t1 t2 (VoucherHeader.channelId voucher) cd s).2).
Proof.
  intros (Ha & Hn & Hcd & Hcons & Hprov). unfold validateVoucher.
  rewrite Ha, Hn, Hcd.
  rewrite bool_decide_eq_false_2 by done.
  rewrite bool_decide_eq_false_2 by (intros H; by apply H).
  destruct (resolveChannel _ _ _ _ _) as [cs s'] eqn:E. cbn [fst snd].
  f_equal. f_equal.
  change s' with (cs, s').2. rewrite <- E. apply resolveChannel_vouchers.
Qed.

(** An accepted voucher passed every check. *)
Lemma validate_accepted svc env t1 t2 voucher c s :
  valid (validateVoucher svc env t1 t2 voucher c s).1 = true →
  ∃ amount nonce cd,
    gate svc env voucher amount nonce cd
    ∧ charged (VoucherHeader.channelId voucher) s + c ≤ amount
    ∧ amount ≤ ChannelData.deposit cd
    ∧ (∀ lv, lastVoucherAt (VoucherHeader.channelId voucher) s = Some lv →
             StoredVoucher.nonce lv < nonce)
    ∧ Env.verifyTypedData env (ChannelData.consumer cd)
        (ProviderConfig.chainId (config svc)) (contractAddress svc)
        (VoucherHeader.channelId voucher) amount nonce
        (VoucherHeader.signature voucher) = JS.Ok true
    ∧ (validateVoucher svc env t1 t2 voucher c s).1
      = accept (resolveChannel t1 t2 (VoucherHeader.channelId voucher) cd s).1 amount.
Proof.
  intros Hv.
  destruct (JS.BigInt (VoucherHeader.amount voucher)) as [amount|] eqn:Ha;
    [|by unfold validateVoucher in Hv; rewrite Ha in Hv].
  destruct (JS.BigInt (VoucherHeader.nonce voucher)) as [nonce|] eqn:Hn;
    [|by unfold validateVoucher in Hv; rewrite Ha, Hn in Hv].
  destruct (Env.readChannel env (VoucherHeader.channelId voucher)) as [cd|e] eqn:Hcd;
    [|by unfold validateVoucher in Hv; rewrite Ha, Hn, Hcd in Hv].
  destruct (decide (ChannelData.consumer cd = ZERO_ADDRESS)) as [Hz|Hz].
  { unfold validateVoucher in Hv. rewrite Ha, Hn, Hcd in Hv.
    by rewrite bool_decide_eq_true_2 in Hv. }
  destruct (decide (JS.toLowerCase (ChannelData.provider cd)
                    = JS.toLowerCase (account_address svc))) as [Hp|Hp].
  2:{ unfold validateVoucher in Hv. rewrite Ha, Hn, Hcd in Hv.
      rewrite bool_decide_eq_false_2 in Hv by done.
      by rewrite bool_decide_eq_true_2 in Hv. }
  assert (gate svc env voucher amount nonce cd) as Hg by done.
  exists amount, nonce, cd. split; [done|].
  rewrite (validate_gate _ _ _ _ _ _ _ _ _ _ Hg) in Hv |- *. cbn [fst] in Hv |- *.
  unfold checkVoucher in Hv |- *.
  rewrite resolveChannel_totalCharged, resolveChannel_lastVoucher in Hv |- *.
  case_bool_decide as H1; [done|].
  case_bool_decide as H2; [done|].
  destruct (lastVoucherAt (VoucherHeader.channelId voucher) s) as [lv|] eqn:Hlv.
  - case_bool_decide as H3; [done|].
    destruct (Env.verifyTypedData env _ _ _ _ _ _ _) as [[|]|]; try done.
    split_and!; try done; try lia. intros lv' [= <-]. lia.
  - destruct (Env.verifyTypedData env _ _ _ _ _ _ _) as [[|]|]; try done.
    split_and!; try done; lia.
Qed.

(** The result is an acceptance or a rejection with a reason. *)
Lemma checkVoucher_shape svc env voucher amount nonce c cd vs cs :
  (∃ a, checkVoucher svc env voucher amount nonce c cd vs cs = accept cs a)
  ∨ (∃ rej ch, checkVoucher svc env voucher amount nonce c cd vs cs = reject rej ch).
Proof.
  unfold checkVoucher.
  case_bool_decide; [right; by eauto|].
  case_bool_decide; [right; by eauto|].
  destruct (match lastVoucherOf vs cs with Some _ => _ | None => _ end);
    [right; by eauto|].
  destruct (Env.verifyTypedData env _ _ _ _ _ _ _) as [[|]|e];
    [left | right | right]; by eauto.
Qed.

Lemma validation_shape svc env t1 t2 voucher c s :
  (∃ cs a, (validateVoucher svc env t1 t2 voucher c s).1 = accept cs a)
  ∨ (∃ rej ch, (validateVoucher svc env t1 t2 voucher c s).1 = reject rej ch).
Proof.
  unfold validateVoucher.
  destruct (JS.BigInt (VoucherHeader.amount voucher)) as [amount|]; [|right; by eauto].
  destruct (JS.BigInt (VoucherHeader.nonce voucher)) as [nonce|]; [|right; by eauto].
  destruct (Env.readChannel env _) as [cd|e]; [|right; by eauto].
  case_bool_decide; [right; by eauto|].
  case_bool_decide; [right; by eauto|].
  destruct (resolveChannel _ _ _ _ _) as [cs s']. cbn [fst].
  destruct (checkVoucher_shape svc env voucher amount nonce c cd
              (vouchers (data s')) cs) as [[a ->]|(rej & ch & ->)]; by eauto.
Qed.

End Validation.

(** Validation either leaves the store alone or leaves what
    [resolveChannel] made of it. *)
Lemma validate_storage (svc : DrainService.t) (env : Env.t) (t1 t2 : Z)
    (voucher : VoucherHeader.t) (c : Z) (s : VoucherStorage.t) :
  (DrainService.validateVoucher svc env t1 t2 voucher c s).2 = s
  ∨ ∃ cd, Env.readChannel env (VoucherHeader.channelId voucher) = JS.Ok cd
       ∧ (DrainService.validateVoucher svc env t1 t2 voucher c s).2
         = (DrainService.resolveChannel t1 t2 (VoucherHeader.channelId voucher) cd s).2.
Proof.
  unfold DrainService.validateVoucher.
  destruct (JS.BigInt (VoucherHeader.amount voucher)); [|by left].
  destruct (JS.BigInt (VoucherHeader.nonce voucher)); [|by left].
  destruct (Env.readChannel env _) as [cd|e]; [|by left].
  case_bool_decide; [by left|]. case_bool_decide; [by left|].
  right. exists cd. split; [done|]. by destruct (DrainService.resolveChannel _ _ _ _ _).
Qed.

Lemma validate_vouchers (svc : DrainService.t) (env : Env.t) (t1 t2 : Z)
    (voucher : VoucherHeader.t) (c : Z) (s : VoucherStorage.t) :
  VoucherStorage.vouchers
    (VoucherStorage.data (DrainService.validateVoucher svc env t1 t2 voucher c s).2)
  = VoucherStorage.vouchers (VoucherStorage.data s).
Proof.
  destruct (validate_storage svc env t1 t2 voucher c s) as [->|(cd & _ & ->)];
    [done | apply resolveChannel_vouchers].
Qed.

(** The entries after a validation: all as before, except the expiry of
    the voucher's channel when it had none. *)
Lemma validate_channels (svc : DrainService.t) (env : Env.t) (t1 t2 : Z)
    (voucher : VoucherHeader.t) (c : Z) (s : VoucherStorage.t) (id : string) :
  VoucherStorage.getChannel id (DrainService.validateVoucher svc env t1 t2 voucher c s).2
  = VoucherStorage.getChannel id s
  ∨ (id = VoucherHeader.channelId voucher
     ∧ ∃ channel cd,
         VoucherStorage.getChannel id s = Some channel
         ∧ ChannelState.expiry channel = 0
         ∧ Env.readChannel env id = JS.Ok cd
         ∧ VoucherStorage.getChannel id
             (DrainService.validateVoucher svc env t1 t2 voucher c s).2
           = Some (ChannelState.set_expiry (JS.Number (ChannelData.expiry cd)) channel)).
Proof.
  destruct (validate_storage svc env t1 t2 voucher c s) as [->|(cd & Hcd & ->)]; [by left|].
  destruct (resolveChannel_channels t1 t2 (VoucherHeader.channelId voucher) cd s id)
    as [H|(-> & ch & Hch & He & H)]; [by left|].
  right. split; [done|]. by exists ch, cd.
Qed.

(* ===================================================================== *)
(** * Requests served in sequence                                         *)
(* ===================================================================== *)

Section Serving.

Import VoucherStorage DrainService.

Implicit Types (svc : DrainService.t) (r : Request.t) (s : VoucherStorage.t).

(** What a request that was not committed leaves behind. *)
Lemma chargeRequest_not_done svc r s s' :
  chargeRequest svc r s = (s', false) →
  s' = (validateVoucher svc (Request.env r) (Request.createdAt_now r)
          (Request.activity_now r) (Request.voucher r) (Request.cost r) s).2.
Proof.
  unfold chargeRequest.
  destruct (validateVoucher _ _ _ _ _ _ _) as [validation s1]. cbn [snd].
  destruct (valid validation); cbn [negb]; [|by intros [= ->]].
  destruct (Request.work_ok r); cbn [negb]; [|by intros [= ->]].
  destruct (channel validation); [|by intros [= ->]].
  destruct (DrainService.storeVoucher _ _ _ _ _ _); [done | by intros [= ->]].
Qed.

(** What a committed request has gone through and leaves behind. *)
Lemma chargeRequest_done svc r s s' :
  chargeRequest svc r s = (s', true) →
  let id := VoucherHeader.channelId (Request.voucher r) in
  ∃ amount nonce cd,
    gate svc (Request.env r) (Request.voucher r) amount nonce cd
    ∧ charged id s + Request.cost r ≤ amount
    ∧ amount ≤ ChannelData.deposit cd
    ∧ let cs := (resolveChannel (Request.createdAt_now r) (Request.activity_now r)
                   id cd s).1 in
      let s1 := (resolveChannel (Request.createdAt_now r) (Request.activity_now r)
                   id cd s).2 in
      s' = VoucherStorage.updateChannel id
             (ChannelState.mk (ChannelState.channelId cs) (ChannelState.consumer cs)
                (ChannelState.deposit cs) (ChannelState.totalCharged cs + Request.cost r)
                (ChannelState.expiry cs)
                (Some (InArray (length (vouchers (data s)))))
                (ChannelState.createdAt cs) (Request.stored_now r))
             (VoucherStorage.storeVoucher
                (StoredVoucher.mk id amount nonce
                   (VoucherHeader.signature (Request.voucher r))
                   (ChannelState.consumer cs) (Request.received_now r) false None None)
                s1).
Proof.
  cbn zeta. unfold chargeRequest.
  destruct (validateVoucher _ _ _ _ _ _ _) as [validation s1] eqn:Ev.
  destruct (valid validation) eqn:Hv; cbn [negb]; [|done].
  destruct (Request.work_ok r); cbn [negb]; [|done].
  pose proof (validate_accepted svc (Request.env r) (Request.createdAt_now r)
                (Request.activity_now r) (Request.voucher r) (Request.cost r) s) as Hacc.
  rewrite Ev in Hacc. cbn [fst] in Hacc.
  destruct (Hacc Hv) as (amount & nonce & cd & Hg & Hlo & Hhi & _ & _ & ->).
  cbn [channel accept].
  rewrite (validate_gate _ _ _ _ _ _ _ _ _ _ Hg) in Ev. injection Ev as _ <-.
  unfold DrainService.storeVoucher.
  destruct Hg as (Ha & Hn & Hg'). rewrite Ha, Hn.
  intros [= <-]. exists amount, nonce, cd.
  split_and!; [done|done|done|]. by rewrite resolveChannel_vouchers.
Qed.

(** The ledger seen through [charged], [deposit] and [lastVoucherAt]
    does not change under validation. *)
Lemma validate_charged svc env t1 t2 voucher c s id :
  charged id (validateVoucher svc env t1 t2 voucher c s).2 = charged id s.
Proof.
  unfold charged.
  destruct (validate_channels svc env t1 t2 voucher c s id)
    as [->|(_ & ch & cd & -> & _ & _ & ->)]; done.
Qed.

Lemma validate_deposit svc env t1 t2 voucher c s id :
  ChannelState.deposit <$> getChannel id (validateVoucher svc env t1 t2 voucher c s).2
  = ChannelState.deposit <$> getChannel id s.
Proof.
  destruct (validate_channels svc env t1 t2 voucher c s id)
    as [->|(_ & ch & cd & -> & _ & _ & ->)]; done.
Qed.

Lemma validate_lastVoucherAt svc env t1 t2 voucher c s id :
  lastVoucherAt id (validateVoucher svc env t1 t2 voucher c s).2 = lastVoucherAt id s.
Proof.
  unfold lastVoucherAt. rewrite validate_vouchers.
  destruct (validate_channels svc env t1 t2 voucher c s id)
    as [->|(_ & ch & cd & -> & _ & _ & ->)]; done.
Qed.

Lemma validate_wf_refs svc env t1 t2 voucher c s :
  wf_refs s → wf_refs (validateVoucher svc env t1 t2 voucher c s).2.
Proof.
  intros Hwf id ch i Hch Hlv. rewrite validate_vouchers.
  destruct (validate_channels svc env t1 t2 voucher c s id)
    as [Heq|(_ & ch0 & cd & Hch0 & _ & _ & Heq)]; rewrite Heq in Hch.
  - by eapply Hwf.
  - injection Hch as <-. by eapply Hwf.
Qed.

(** The effect of a committed request on the ledger. *)
Lemma chargeRequest_done_effect svc r s s' :
  chargeRequest svc r s = (s', true) →
  let id := VoucherHeader.channelId (Request.voucher r) in
  ∃ amount cd ch' sv,
    Env.readChannel (Request.env r) id = JS.Ok cd
    ∧ charged id s + Request.cost r ≤ amount
    ∧ amount ≤ ChannelData.deposit cd
    ∧ getChannel id s' = Some ch'
    ∧ ChannelState.totalCharged ch' = charged id s + Request.cost r
    ∧ ChannelState.deposit ch'
      = match getChannel id s with
        | Some ch => ChannelState.deposit ch
        | None => ChannelData.deposit cd
        end
    ∧ ChannelState.lastVoucher ch' = Some (InArray (length (vouchers (data s))))
    ∧ vouchers (data s') = vouchers (data s) ++ [sv]
    ∧ StoredVoucher.amount sv = amount
    ∧ JS.BigInt (VoucherHeader.amount (Request.voucher r)) = Some amount
    ∧ (∀ id0, id0 ≠ id → getChannel id0 s' = getChannel id0 s).
Proof.
  cbn zeta. intros Hdone.
  destruct (chargeRequest_done svc r s s' Hdone)
    as (amount & nonce & cd & Hg & Hlo & Hhi & ->).
  set (id := VoucherHeader.channelId (Request.voucher r)) in *.
  set (t1 := Request.createdAt_now r) in *. set (t2 := Request.activity_now r) in *.
  eexists amount, cd, _, _. split_and!.
  - by destruct Hg as (_ & _ & ? & _).
  - done.
  - done.
  - unfold getChannel, updateChannel. cbn. by rewrite lookup_insert_eq.
  - cbn. by rewrite resolveChannel_totalCharged.
  - cbn. unfold resolveChannel. destruct (getChannel id s) as [ch|]; [|done].
    by case_bool_decide.
  - done.
  - cbn. by rewrite resolveChannel_vouchers.
  - done.
  - by destruct Hg as (? & _).
  - intros id0 Hne. unfold getChannel, updateChannel. cbn.
    rewrite lookup_insert_ne by done.
    destruct (resolveChannel_channels t1 t2 id cd s id0) as [H|(-> & _)]; done.
Qed.

End Serving.

Section Ledger.

Import VoucherStorage DrainService.

Implicit Types (svc : DrainService.t) (r : Request.t) (s : VoucherStorage.t).

Lemma serve_cons svc r rs s :
  serve svc (r :: rs) s = serve svc rs (chargeRequest svc r s).1.
Proof. done. Qed.

(** One request keeps the ledger within what the vouchers authorise. *)
Lemma chargeRequest_ledger_ok svc r s :
  ledger_ok s → ledger_ok (chargeRequest svc r s).1.
Proof.
  intros [Hwf Hle]. destruct (chargeRequest svc r s) as [s1 [|]] eqn:E; cbn [fst].
  - destruct (chargeRequest_done_effect svc r s s1 E)
      as (amount & cd & ch' & sv & _ & Hlo & _ & Hch' & Htot & _ & Hlv & Hvs & Hsv & _ & Hother).
    set (id := VoucherHeader.channelId (Request.voucher r)) in *.
    split.
    + intros id0 ch i Hch Hi. rewrite Hvs, length_app. cbn.
      destruct (decide (id0 = id)) as [->|Hne].
      * rewrite Hch' in Hch. injection Hch as <-. rewrite Hlv in Hi.
        injection Hi as <-. lia.
      * rewrite Hother in Hch by done. specialize (Hwf id0 ch i Hch Hi). lia.
    + intros id0 lv. unfold lastVoucherAt, charged.
      destruct (decide (id0 = id)) as [->|Hne].
      * rewrite Hch'. cbn. unfold lastVoucherOf. rewrite Hlv. cbn.
        rewrite Hvs, lookup_app_r by lia. rewrite Nat.sub_diag. cbn.
        intros [= <-]. lia.
      * rewrite Hother by done.
        destruct (getChannel id0 s) as [ch|] eqn:Hch; cbn; [|done].
        intros Hlv0. specialize (Hle id0 lv). unfold lastVoucherAt, charged in Hle.
        rewrite Hch in Hle. cbn in Hle. apply Hle.
        unfold lastVoucherOf in Hlv0 |- *.
        destruct (ChannelState.lastVoucher ch) as [[i|v]|] eqn:Hr; cbn in Hlv0 |- *;
          [|done|done].
        specialize (Hwf id0 ch i Hch Hr).
        by rewrite Hvs, lookup_app_l in Hlv0.
  - apply chargeRequest_not_done in E as ->. split.
    + by apply validate_wf_refs.
    + intros id0 lv. rewrite validate_lastVoucherAt, validate_charged. apply Hle.
Qed.

Lemma chargeRequest_monotone svc r s id :
  0 ≤ Request.cost r → charged id s ≤ charged id (chargeRequest svc r s).1.
Proof.
  intros Hc. destruct (chargeRequest svc r s) as [s1 [|]] eqn:E; cbn [fst].
  - destruct (chargeRequest_done_effect svc r s s1 E)
      as (amount & cd & ch' & sv & _ & _ & _ & Hch' & Htot & _ & _ & _ & _ & _ & Hother).
    destruct (decide (id = VoucherHeader.channelId (Request.voucher r))) as [->|Hne].
    + unfold charged at 2. rewrite Hch', Htot. lia.
    + unfold charged. by rewrite Hother.
  - apply chargeRequest_not_done in E as ->. by rewrite validate_charged.
Qed.

Lemma serve_ledger_ok svc rs : ∀ s, ledger_ok s → ledger_ok (serve svc rs s).
Proof.
  induction rs as [|r rs IH]; intros s Hs; [done|].
  rewrite serve_cons. by apply IH, chargeRequest_ledger_ok.
Qed.

Lemma serve_monotone svc rs id : ∀ s,
  Forall (λ r, 0 ≤ Request.cost r) rs → charged id s ≤ charged id (serve svc rs s).
Proof.
  induction rs as [|r rs IH]; intros s Hrs; [done|].
  apply Forall_cons in Hrs as [Hr Hrs]. rewrite serve_cons.
  etrans; [by apply (chargeRequest_monotone svc r s)|]. by apply IH.
Qed.

Lemma chargeRequest_within svc r s id D :
  (∀ cd, Env.readChannel (Request.env r) id = JS.Ok cd → ChannelData.deposit cd = D) →
  within id D s →
  within id D (chargeRequest svc r s).1
  ∧ charged id (chargeRequest svc r s).1
    = charged id s
      + (if (chargeRequest svc r s).2
            && bool_decide (VoucherHeader.channelId (Request.voucher r) = id)
         then Request.cost r else 0).
Proof.
  intros HD Hin. destruct (chargeRequest svc r s) as [s1 [|]] eqn:E; cbn [fst snd andb].
  - destruct (chargeRequest_done_effect svc r s s1 E)
      as (amount & cd & ch' & sv & Hcd & Hlo & Hhi & Hch' & Htot & Hdep & _ & _ & _ & _ & Hother).
    case_bool_decide as Hid.
    + subst id. specialize (HD cd Hcd). split.
      * unfold within in Hin |- *. rewrite Hch'. split; [|lia].
        rewrite Hdep. destruct (getChannel _ s); [by destruct Hin | done].
      * unfold charged at 1. by rewrite Hch'.
    + unfold within, charged. rewrite Hother by done. split; [done|lia].
  - apply chargeRequest_not_done in E as ->. split.
    + unfold within in Hin |- *.
      pose proof (validate_deposit svc (Request.env r) (Request.createdAt_now r)
                    (Request.activity_now r) (Request.voucher r) (Request.cost r) s id) as Hd.
      pose proof (validate_charged svc (Request.env r) (Request.createdAt_now r)
                    (Request.activity_now r) (Request.voucher r) (Request.cost r) s id) as Ht.
      unfold charged in Ht.
      destruct (getChannel id (validateVoucher _ _ _ _ _ _ _).2) as [ch1|],
               (getChannel id s) as [ch|]; cbn in Hd; try done.
      injection Hd as Hd. destruct Hin. split; congruence.
    + rewrite validate_charged. lia.
Qed.

Lemma serve_within svc id D rs : ∀ s,
  Forall (λ r, ∀ cd, Env.readChannel (Request.env r) id = JS.Ok cd →
                     ChannelData.deposit cd = D) rs →
  within id D s →
  within id D (serve svc rs s)
  ∧ charged id (serve svc rs s) = charged id s + committedCost svc id rs s.
Proof.
  induction rs as [|r rs IH]; intros s Hrs Hin.
  - split; [done|]. cbn. lia.
  - apply Forall_cons in Hrs as [Hr Hrs].
    destruct (chargeRequest_within svc r s id D Hr Hin) as [Hin1 Hch1].
    rewrite serve_cons. destruct (IH _ Hrs Hin1) as [Hin2 Hch2].
    split; [done|]. rewrite Hch2, Hch1. cbn [committedCost].
    destruct (chargeRequest svc r s) as [s1 done]. cbn [fst snd]. lia.
Qed.

End Ledger.

(* ===================================================================== *)
(** * Reloading what was saved                                          *)
(* ===================================================================== *)

Lemma saved_reloads (w : VoucherStorage.t) : reloads_as_written (VoucherStorage.save w).
Proof.
  unfold reloads_as_written, reload, VoucherStorage.getChannel.
  pose proof (reload_saved w) as Hs.
  change (VoucherStorage.data (VoucherStorage.save w)) with (VoucherStorage.data w).
  split; [by destruct Hs|].
  intros cid. destruct (VoucherStorage.channels (VoucherStorage.data w) !! cid) as [ch|] eqn:E.
  - destruct Hs as (Hv & Hc & _). apply (f_equal (λ m, m !! cid)) in Hc.
    rewrite !lookup_fmap, E in Hc.
    destruct (VoucherStorage.channels _ !! cid) as [ch'|]; [|done].
    exists ch'. cbn in Hc. injection Hc as H1 H2 H3 H4 H5 H6 H7 H8.
    split_and!; try done.
    destruct (VoucherStorage.lastVoucherOf _ ch'), (VoucherStorage.lastVoucherOf _ ch);
      cbn in H6; congruence.
  - destruct Hs as (_ & Hc & _). apply (f_equal (λ m, m !! cid)) in Hc.
    rewrite !lookup_fmap, E in Hc.
    by destruct (VoucherStorage.channels _ !! cid).
Qed.

(* ===================================================================== *)
(** * A claimed voucher stays claimed                                   *)
(* ===================================================================== *)

Section Forever.

Import VoucherStorage DrainService.







End Forever.

(* ===================================================================== *)
(** * A claim that fails inside a pass                                  *)
(* ===================================================================== *)

Section ClaimFailure.

Import VoucherStorage DrainService.
















End ClaimFailure.

(* ===================================================================== *)
(** * C1: the sufficiency check                                         *)
(* ===================================================================== *)

(** C1, as stated, fails in both directions.  With [totalCharged = 100000]
    and [requiredCharge = 100000]: a voucher of exactly 200000 whose
    signature does not verify is rejected ([invalid_signature]), so the
    boundary is not always accepted; and a voucher of 150000 for a channel
    the chain does not know is rejected as [channel_not_found], not as
    [insufficient_funds]. *)
Lemma C1_counterexample :
  let s := storeOf [voucherOf "0xc1" 100000 1]
             [("0xc1", channelOf "0xc1" 100000 1700003600 (Some (InArray 0%nat)))] in
  let boundary := VoucherHeader.mk "0xc1" "200000" "2" "0xbad" in
  let short := VoucherHeader.mk "0xc1" "150000" "2" "0xsig" in
  charged "0xc1" s = 100000
  ∧ DrainService.valid
      (DrainService.validateVoucher provider1 (chain1 false) 0 0 boundary 100000 s).1 = false
  ∧ DrainService.error
      (DrainService.validateVoucher provider1 (chain1 false) 0 0 boundary 100000 s).1
    = Some DrainService.invalid_signature
  ∧ DrainService.error
      (DrainService.validateVoucher provider1 chain_empty 0 0 short 100000 s).1
    = Some DrainService.channel_not_found.
Proof. by vm_compute. Qed.

(** C1 (amended): for a voucher whose amount and nonce read as numbers,
    on a channel the chain reports with a consumer and with this provider,
    [validateVoucher] rejects with [insufficient_funds] exactly when
    [amount < T + c], where [T] is the stored [totalCharged] ([0] for a
    channel not stored yet) and [c] the required charge.  A voucher with
    [amount >= T + c], the boundary [amount = T + c] included, is never
    rejected for insufficient funds, and is accepted exactly when moreover
    [amount <= deposit], its nonce is above that of the last voucher, if
    any, and the signature verifies. *)
Theorem C1_sufficiency (svc : DrainService.t) (env : Env.t) (t1 t2 : Z)
    (voucher : VoucherHeader.t) (c : Z) (s : VoucherStorage.t)
    (amount nonce : Z) (cd : ChannelData.t) :
  let id := VoucherHeader.channelId voucher in
  let T := charged id s in
  let r := (DrainService.validateVoucher svc env t1 t2 voucher c s).1 in
  gate svc env voucher amount nonce cd →
  (DrainService.error r = Some DrainService.insufficient_funds ↔ amount < T + c)
  ∧ (amount < T + c → DrainService.valid r = false)
  ∧ (T + c ≤ amount →
     (DrainService.valid r = true
      ↔ amount ≤ ChannelData.deposit cd
        ∧ (∀ lv, lastVoucherAt id s = Some lv → StoredVoucher.nonce lv < nonce)
        ∧ Env.verifyTypedData env (ChannelData.consumer cd)
            (ProviderConfig.chainId (DrainService.config svc))
            (DrainService.contractAddress svc) id amount nonce
            (VoucherHeader.signature voucher) = JS.Ok true)).
Proof.
  cbn zeta. intros Hg.
  rewrite (validate_gate _ _ _ _ _ _ _ _ _ _ Hg). cbn [fst].
  unfold DrainService.checkVoucher.
  rewrite resolveChannel_totalCharged, resolveChannel_lastVoucher.
  case_bool_decide as H1.
  { split_and!; [done|done|lia]. }
  case_bool_decide as H2.
  { split_and!; [split; [done|lia] | lia |]. intros _. split; [done|]. intros (? & _). lia. }
  destruct (lastVoucherAt (VoucherHeader.channelId voucher) s) as [lv|] eqn:Hlv.
  - case_bool_decide as H3.
    { split_and!; [split; [done|lia] | lia |]. intros _. split; [done|].
      intros (_ & Hn & _). specialize (Hn lv eq_refl). lia. }
    destruct (Env.verifyTypedData env _ _ _ _ _ _ _) as [[|]|e]; cbn.
    + split_and!; [split; [done|lia] | lia |]. intros _. split; [|done]. intros _.
      split_and!; [lia| |done]. intros lv' [= <-]. lia.
    + split_and!; [split; [done|lia] | lia |]. intros _. split; [done|].
      by intros (_ & _ & ?).
    + split_and!; [split; [done|lia] | lia |]. intros _. split; [done|].
      by intros (_ & _ & ?).
  - destruct (Env.verifyTypedData env _ _ _ _ _ _ _) as [[|]|e]; cbn.
    + split_and!; [split; [done|lia] | lia |]. intros _. split; [|done]. intros _.
      split_and!; [lia|done|done].
    + split_and!; [split; [done|lia] | lia |]. intros _. split; [done|].
      by intros (_ & _ & ?).
    + split_and!; [split; [done|lia] | lia |]. intros _. split; [done|].
      by intros (_ & _ & ?).
Qed.

(** C1 at the boundary of the scenario of the specification: with
    [T = 100000] and [c = 100000], a voucher of 200000 with a fresh nonce
    and a good signature is accepted, one of 150000 is rejected for
    insufficient funds. *)
Lemma C1_witness :
  let s := storeOf [voucherOf "0xc1" 100000 1]
             [("0xc1", channelOf "0xc1" 100000 1700003600 (Some (InArray 0%nat)))] in
  let cd := ChannelData.mk "0xC0ffee" "0xab5801a7d398351b8be11c439e05c5b3259aec9b"
              1000000 0 1700003600 in
  let boundary := VoucherHeader.mk "0xc1" "200000" "2" "0xsig" in
  let short := VoucherHeader.mk "0xc1" "150000" "2" "0xsig" in
  gate provider1 (chain1 true) boundary 200000 2 cd
  ∧ DrainService.valid
      (DrainService.validateVoucher provider1 (chain1 true) 0 0 boundary 100000 s).1 = true
  ∧ DrainService.error
      (DrainService.validateVoucher provider1 (chain1 true) 0 0 short 100000 s).1
    = Some DrainService.insufficient_funds.
Proof.
  cbn zeta.
  assert (Hb : gate provider1 (chain1 true) (VoucherHeader.mk "0xc1" "200000" "2" "0xsig")
                 200000 2
                 (ChannelData.mk "0xC0ffee" "0xab5801a7d398351b8be11c439e05c5b3259aec9b"
                    1000000 0 1700003600))
    by (by vm_compute).
  assert (Hs : gate provider1 (chain1 true) (VoucherHeader.mk "0xc1" "150000" "2" "0xsig")
                 150000 2
                 (ChannelData.mk "0xC0ffee" "0xab5801a7d398351b8be11c439e05c5b3259aec9b"
                    1000000 0 1700003600))
    by (by vm_compute).
  split; [exact Hb|]. split.
  - apply (C1_sufficiency provider1 (chain1 true) 0 0 _ 100000 _ 200000 2 _ Hb).
    + by vm_compute.
    + split_and!; [by vm_compute | | reflexivity].
      intros lv Hlv. vm_compute in Hlv. injection Hlv as <-. by vm_compute.
  - apply (C1_sufficiency provider1 (chain1 true) 0 0 _ 100000 _ 150000 2 _ Hs).
    by vm_compute.
Defined.

(* ===================================================================== *)
(** * C2: the total and the last voucher                                *)
(* ===================================================================== *)

(** C2, as stated, fails: [totalCharged] is the sum of the costs
    committed, not the amount of the last voucher.  A first request of
    cost 100000 pays with a voucher of 500000; it is accepted and
    committed, after which [totalCharged] is 100000 and the amount of
    [lastVoucher] is 500000. *)
Lemma C2_counterexample :
  let s := serve provider1 [requestOf "500000" "1" 100000]
             (VoucherStorage.open VoucherStorage.Missing) in
  charged "0xc1" s = 100000
  ∧ StoredVoucher.amount <$> lastVoucherAt "0xc1" s = Some 500000.
Proof. by vm_compute. Qed.

(** C2 (amended): while requests are served one after the other, each
    validated against its cost and committed with the same, non-negative
    cost, [totalCharged] of a channel never exceeds the amount of its
    [lastVoucher] once one exists (it need not equal it), it never
    decreases, and the amount of an accepted voucher is never less than
    [totalCharged] before it, nor than [totalCharged] after its commit. *)
Theorem C2_ledger_invariant (svc : DrainService.t) (rs : list Request.t)
    (s : VoucherStorage.t) :
  ledger_ok s →
  Forall (λ r, 0 ≤ Request.cost r) rs →
  let s' := serve svc rs s in
  (∀ id lv, lastVoucherAt id s' = Some lv → charged id s' ≤ StoredVoucher.amount lv)
  ∧ (∀ id, charged id s ≤ charged id s')
  ∧ (∀ r s0 s1, 0 ≤ Request.cost r → chargeRequest svc r s0 = (s1, true) →
       let id := VoucherHeader.channelId (Request.voucher r) in
       ∃ amount, JS.BigInt (VoucherHeader.amount (Request.voucher r)) = Some amount
                 ∧ StoredVoucher.amount <$> lastVoucherAt id s1 = Some amount
                 ∧ charged id s0 ≤ amount
                 ∧ charged id s1 = charged id s0 + Request.cost r
                 ∧ charged id s1 ≤ amount).
Proof.
  cbn zeta. intros Hok Hrs. split_and!.
  - apply (serve_ledger_ok svc rs s Hok).
  - intros id. by apply serve_monotone.
  - intros r s0 s1 Hc E.
    destruct (chargeRequest_done_effect svc r s0 s1 E)
      as (amount & cd & ch' & sv & _ & Hlo & _ & Hch' & Htot & _ & Hlv & Hvs & Hsv & Ha & _).
    exists amount. split_and!; [done| |lia| |].
    + unfold lastVoucherAt. rewrite Hch'. cbn. unfold VoucherStorage.lastVoucherOf.
      rewrite Hlv. cbn. rewrite Hvs, lookup_app_r by lia. rewrite Nat.sub_diag. cbn.
      by rewrite Hsv.
    + unfold charged at 1. by rewrite Hch'.
    + unfold charged at 1. rewrite Hch'. lia.
Qed.

(** C2 on two requests of the scenario of the specification. *)
Lemma C2_witness :
  let s0 := VoucherStorage.open VoucherStorage.Missing in
  let rs := [requestOf "500000" "1" 100000; requestOf "500000" "2" 100000] in
  ledger_ok s0
  ∧ Forall (λ r, 0 ≤ Request.cost r) rs
  ∧ charged "0xc1" (serve provider1 rs s0) = 200000
  ∧ (∀ lv, lastVoucherAt "0xc1" (serve provider1 rs s0) = Some lv →
           charged "0xc1" (serve provider1 rs s0) ≤ StoredVoucher.amount lv).
Proof.
  cbn zeta.
  assert (H0 : ledger_ok (VoucherStorage.open VoucherStorage.Missing)).
  { split.
    - intros id ch i Hch. vm_compute in Hch. discriminate Hch.
    - intros id lv Hlv. vm_compute in Hlv. discriminate Hlv. }
  assert (Hrs : Forall (λ r, 0 ≤ Request.cost r)
                  [requestOf "500000" "1" 100000; requestOf "500000" "2" 100000]).
  { repeat constructor; by vm_compute. }
  split_and!; [exact H0 | exact Hrs | by vm_compute |].
  intros lv. apply (C2_ledger_invariant provider1 _ _ H0 Hrs).
Defined.

(* ===================================================================== *)
(** * C3: the total is the sum of the costs                             *)
(* ===================================================================== *)

(** C3: for a channel that is not in the ledger yet (it is entered with
    [totalCharged = 0] by its first validation) and whose deposit on chain
    is [D], after any sequence of requests served one after the other,
    each validated against its cost and, when accepted and worked,
    committed with the same cost, [totalCharged] equals the sum of the
    cost arguments of the commits made for the channel, the stored deposit
    is [D], and [totalCharged] does not exceed it. *)
Theorem C3_total_is_sum_of_costs (svc : DrainService.t) (id : string) (D : Z)
    (rs : list Request.t) (s : VoucherStorage.t) :
  VoucherStorage.getChannel id s = None →
  Forall (λ r, ∀ cd, Env.readChannel (Request.env r) id = JS.Ok cd →
                     ChannelData.deposit cd = D) rs →
  let s' := serve svc rs s in
  charged id s' = committedCost svc id rs s
  ∧ (∀ ch, VoucherStorage.getChannel id s' = Some ch →
           ChannelState.totalCharged ch = committedCost svc id rs s
           ∧ ChannelState.deposit ch = D
           ∧ ChannelState.totalCharged ch ≤ ChannelState.deposit ch).
Proof.
  cbn zeta. intros Hnone Hrs.
  assert (Hin : within id D s) by (unfold within; by rewrite Hnone).
  destruct (serve_within svc id D rs s Hrs Hin) as [Hw Hc].
  assert (charged id s = 0) as Hz by (unfold charged; by rewrite Hnone).
  rewrite Hz in Hc. split; [lia|].
  intros ch Hch. unfold within in Hw. unfold charged in Hc. rewrite Hch in Hw, Hc.
  destruct Hw as [Hd Ht]. split_and!; [lia | done | lia].
Qed.

(** C3 on three requests: two are committed (costs 100000 and 250000),
    the third is rejected for insufficient funds; the total is 350000 and
    below the deposit of 1000000. *)
Lemma C3_witness :
  let s0 := VoucherStorage.open VoucherStorage.Missing in
  let rs := [requestOf "100000" "1" 100000; requestOf "350000" "2" 250000;
             requestOf "400000" "3" 100000] in
  VoucherStorage.getChannel "0xc1" s0 = None
  ∧ committedCost provider1 "0xc1" rs s0 = 350000
  ∧ charged "0xc1" (serve provider1 rs s0) = 350000
  ∧ (∀ ch, VoucherStorage.getChannel "0xc1" (serve provider1 rs s0) = Some ch →
           ChannelState.totalCharged ch ≤ ChannelState.deposit ch).
Proof.
  cbn zeta. split; [reflexivity|]. split; [by vm_compute|].
  assert (Hrs : Forall (λ r, ∀ cd, Env.readChannel (Request.env r) "0xc1" = JS.Ok cd →
                                   ChannelData.deposit cd = 1000000)
                  [requestOf "100000" "1" 100000; requestOf "350000" "2" 250000;
                   requestOf "400000" "3" 100000]).
  { repeat constructor; intros cd [= <-]; reflexivity. }
  pose proof (C3_total_is_sum_of_costs provider1 "0xc1" 1000000 _
                (VoucherStorage.open VoucherStorage.Missing) eq_refl Hrs) as [H1 H2].
  split.
  - rewrite H1. by vm_compute.
  - intros ch Hch. by apply H2.
Defined.

(* ===================================================================== *)
(** * C4: replayed nonces                                               *)
(* ===================================================================== *)

(** C4: a voucher whose nonce is not above the nonce of the channel's
    last voucher is never accepted, whatever its amount, its signature,
    the required charge and the answers of the chain. *)
Theorem C4_stale_nonce_rejected (svc : DrainService.t) (env : Env.t) (t1 t2 : Z)
    (voucher : VoucherHeader.t) (c : Z) (s : VoucherStorage.t)
    (channel : ChannelState.t) (lastVoucher : StoredVoucher.t) (nonce : Z) :
  VoucherStorage.getChannel (VoucherHeader.channelId voucher) s = Some channel →
  VoucherStorage.lastVoucherOf (VoucherStorage.vouchers (VoucherStorage.data s)) channel
    = Some lastVoucher →
  JS.BigInt (VoucherHeader.nonce voucher) = Some nonce →
  nonce ≤ StoredVoucher.nonce lastVoucher →
  DrainService.valid (DrainService.validateVoucher svc env t1 t2 voucher c s).1 = false
  ∧ DrainService.error (DrainService.validateVoucher svc env t1 t2 voucher c s).1 ≠ None.
Proof.
  intros Hch Hlv Hn Hle.
  destruct (DrainService.valid (DrainService.validateVoucher svc env t1 t2 voucher c s).1)
    eqn:Hv.
  - exfalso. apply validate_accepted in Hv
      as (amount & nonce' & cd & (_ & Hn' & _) & _ & _ & Hfresh & _).
    rewrite Hn in Hn'. injection Hn' as <-.
    assert (lastVoucherAt (VoucherHeader.channelId voucher) s = Some lastVoucher) as Hat
      by (unfold lastVoucherAt; rewrite Hch; exact Hlv).
    specialize (Hfresh _ Hat). lia.
  - split; [done|].
    destruct (validation_shape svc env t1 t2 voucher c s) as [(cs & a & Hr)|(rej & ch & Hr)];
      rewrite Hr in Hv |- *; done.
Qed.

(** C4 at a concrete replay: the nonce of the last voucher is 5; a
    voucher with nonce 5 and a far larger amount is rejected. *)
Lemma C4_witness :
  let s := storeOf [voucherOf "0xc1" 100000 5]
             [("0xc1", channelOf "0xc1" 100000 1700003600 (Some (InArray 0%nat)))] in
  let replay := VoucherHeader.mk "0xc1" "900000" "5" "0xsig" in
  VoucherStorage.lastVoucherOf (VoucherStorage.vouchers (VoucherStorage.data s))
    (channelOf "0xc1" 100000 1700003600 (Some (InArray 0%nat)))
  = Some (voucherOf "0xc1" 100000 5)
  ∧ DrainService.valid
      (DrainService.validateVoucher provider1 (chain1 true) 0 0 replay 100000 s).1 = false.
Proof.
  cbn zeta. split; [reflexivity|].
  eapply (C4_stale_nonce_rejected provider1 (chain1 true) 0 0
            (VoucherHeader.mk "0xc1" "900000" "5" "0xsig") 100000 _
            (channelOf "0xc1" 100000 1700003600 (Some (InArray 0%nat)))
            (voucherOf "0xc1" 100000 5) 5).
  - by vm_compute.
  - reflexivity.
  - reflexivity.
  - by vm_compute.
Defined.

(* ===================================================================== *)
(** * C5: permanent and transient claim errors                          *)
(* ===================================================================== *)



(* ===================================================================== *)
(** * C6: claiming twice                                                *)
(* ===================================================================== *)

(** C6: when a call of [claimPayments] claimed a channel with success
    (the claim for it was submitted and the chain answered with a
    transaction hash), then after that call the channel has no unclaimed
    voucher and no entry among the claim candidates, and a second call
    right after it makes no call to the chain for that channel, whatever
    the chain would answer and whatever [forceAll] is: no new claim
    transaction. *)
Theorem C6_claim_idempotent (svc : DrainService.t) (env1 env2 : Env.t)
    (forceAll1 forceAll2 : bool) (s : VoucherStorage.t)
    (id : string) (amount nonce : Z) (signature hash : string) :
  let pass1 := DrainService.claimPayments svc env1 forceAll1 s in
  let pass2 := DrainService.claimPayments svc env2 forceAll2 (DrainService.storage pass1) in
  Claim id amount nonce signature ∈ DrainService.calls pass1 →
  Env.writeClaim env1 id amount nonce signature = JS.Ok hash →
  unclaimedOf id (DrainService.storage pass1) = []
  ∧ VoucherStorage.map_get id
      (VoucherStorage.getHighestVoucherPerChannel (DrainService.storage pass1)) = None
  ∧ (∀ c, c ∈ DrainService.calls pass2 → call_channel c ≠ id)
  ∧ (∀ a n sg, Claim id a n sg ∉ DrainService.calls pass2).
Proof.
  cbn zeta. intros Hcall Hok.
  assert (all_claimed id (DrainService.storage (DrainService.claimPayments svc env1 forceAll1 s)))
    as Hall.
  { rewrite claimPayments_calls in Hcall.
    apply (call_entry env1 s) in Hcall as (v & Hget & Hin & Hc);
      [|apply filter_subseteq_highest].
    cbn [call_channel] in Hget, Hin, Hc.
    rewrite claimPayments_submit_all.
    apply (submit_all_claims env1 _ id v); [done|].
    unfold entry_calls in Hc. cbn [snd] in Hc.
    destruct (Env.readBalance env1 (StoredVoucher.channelId v)) as [[| |]|];
      repeat (apply elem_of_cons in Hc as [Hc|Hc]; [try done|]);
      try (by apply elem_of_nil in Hc);
      injection Hc as -> -> -> ->; right; by exists hash. }
  split_and!.
  - by apply all_claimed_unclaimedOf.
  - by apply all_claimed_not_highest.
  - intros c. by apply all_claimed_no_call_payments.
  - intros a n sg Hc. by apply (all_claimed_no_call_payments _ _ _ _ _ _ Hall Hc).
Qed.

(** C6 at a concrete store: the first forced pass claims channel [0xc1]
    with the hash [0xtx]; the second pass makes no call at all. *)
Lemma C6_witness :
  let s := storeOf [voucherOf "0xc1" 100 1; voucherOf "0xc1" 250 2] [] in
  let env := Env.mk (λ _, JS.Throw (JS.mkThrown true "rpc" None None))
               (λ _, JS.Ok 250) (λ _ _ _ _, JS.Ok "0xtx")
               (λ _ _ _ _ _ _ _, JS.Ok true) (λ _, ticking 1700000000000) in
  let pass1 := DrainService.claimPayments provider1 env true s in
  let pass2 := DrainService.claimPayments provider1 env true (DrainService.storage pass1) in
  Claim "0xc1" 250 2 "0xsig" ∈ DrainService.calls pass1
  ∧ DrainService.txHashes pass1 = ["0xtx"]
  ∧ DrainService.txHashes pass2 = []
  ∧ (∀ c, c ∈ DrainService.calls pass2 → call_channel c ≠ "0xc1").
Proof.
  cbn zeta. split_and!.
  - vm_compute. apply list_elem_of_further, list_elem_of_here.
  - by vm_compute.
  - by vm_compute.
  - eapply (C6_claim_idempotent provider1 _ _ true true _ "0xc1" 250 2 "0xsig" "0xtx").
    + vm_compute. apply list_elem_of_further, list_elem_of_here.
    + reflexivity.
Defined.

(* ===================================================================== *)
(** * C7: channels about to expire                                      *)
(* ===================================================================== *)

(** The zero-balance pre-check of the claim procedure on an expiring
    channel.  The channel expires 1800 s from now, the buffer is 3600 s,
    the unclaimed amount is 250 (below the threshold of 1000000): the
    procedure is run for it; the balance reads zero, so that it ends
    without a transaction and marks the voucher claimed with the null
    reference. *)
Example expiring_zero_balance :
  let now_ms := 1700000000000 in
  let s := storeOf [voucherOf "0xc1" 250 2]
             [("0xc1", channelOf "0xc1" 250 (1700000000 + 1800) (Some (InArray 0%nat)))] in
  let env := Env.mk (λ _, JS.Throw (JS.mkThrown true "rpc" None None))
               (λ _, JS.Ok 0) (λ _ _ _ _, JS.Ok "0xtx")
               (λ _ _ _ _ _ _ _, JS.Ok true) (λ _, ticking now_ms) in
  let pass := DrainService.claimExpiring provider1 env now_ms 3600 s in
  DrainService.calls pass = [GetBalance "0xc1"]
  ∧ DrainService.txHashes pass = []
  ∧ StoredVoucher.claimTxHash
      <$> VoucherStorage.vouchers (VoucherStorage.data (DrainService.storage pass))
    = [Some "0x0"].
Proof. by vm_compute. Qed.

(** C7: on a pass of [claimExpiring], a claim is attempted for every
    channel with a cached expiry, [expiry - now <= bufferSeconds] and a
    positive highest unclaimed amount, whatever the claim threshold of the
    configuration is: the claim procedure is run for it.  Its balance is
    read; unless the balance reads zero the claim for its highest
    unclaimed voucher is submitted; when the balance reads zero the
    procedure ends without a transaction and marks its vouchers claimed.
    A channel with [expiry - now > bufferSeconds] gets no call and keeps
    its unclaimed vouchers. *)
Theorem C7_expiring_channels (svc : DrainService.t) (env : Env.t)
    (dateNow bufferSeconds : Z) (s : VoucherStorage.t)
    (id : string) (channel : ChannelState.t) (v : StoredVoucher.t) :
  let now := dateNow `div` 1000 in
  let pass := DrainService.claimExpiring svc env dateNow bufferSeconds s in
  VoucherStorage.getChannel id s = Some channel →
  ChannelState.expiry channel ≠ 0 →
  VoucherStorage.map_get id (VoucherStorage.getHighestVoucherPerChannel s) = Some v →
  (ChannelState.expiry channel - now ≤ bufferSeconds → StoredVoucher.amount v > 0 →
     GetBalance id ∈ DrainService.calls pass
     ∧ (Env.readBalance env id ≠ JS.Ok 0 →
        Claim id (StoredVoucher.amount v) (StoredVoucher.nonce v) (StoredVoucher.signature v)
          ∈ DrainService.calls pass)
     ∧ (Env.readBalance env id = JS.Ok 0 →
        (∀ a n sg, Claim id a n sg ∉ DrainService.calls pass)
        ∧ unclaimedOf id (DrainService.storage pass) = []))
  ∧ (ChannelState.expiry channel - now > bufferSeconds →
     (∀ c, c ∈ DrainService.calls pass → call_channel c ≠ id)
     ∧ unclaimedOf id (DrainService.storage pass) = unclaimedOf id s).
Proof.
  cbn zeta. intros Hch Hexp Hget.
  pose proof (getHighest_inv s) as [Hnd Hsound _].
  destruct (Hsound id v Hget) as (_ & Hid & _).
  set (es := filter (λ kv, due bufferSeconds (dateNow `div` 1000) s kv = true)
               (VoucherStorage.getHighestVoucherPerChannel s)).
  assert (Hcalls : DrainService.calls (DrainService.claimExpiring svc env dateNow bufferSeconds s)
                   = mjoin (entry_calls env <$> es)) by apply claimExpiring_calls.
  assert (Hsub : es ⊆ VoucherStorage.getHighestVoucherPerChannel s)
    by apply filter_subseteq_highest.
  assert (Hentry : ∀ c, c ∈ mjoin (entry_calls env <$> es) → call_channel c = id →
                        (id, v) ∈ es ∧ c ∈ entry_calls env (id, v)).
  { intros c Hc Hcid. destruct (call_entry env s es c Hsub Hc) as (v' & Hg & Hin & Hc').
    rewrite Hcid in Hg, Hin, Hc'. rewrite Hget in Hg. by injection Hg as <-. }
  split.
  - intros Hdue Hpos.
    assert (Hin : (id, v) ∈ es).
    { apply list_elem_of_filter. split; [|by apply map_get_elem_of].
      unfold due. cbn [fst snd]. rewrite Hch.
      rewrite !bool_decide_eq_false_2 by lia. done. }
    assert (Hjoin : ∀ c, c ∈ entry_calls env (id, v) → c ∈ mjoin (entry_calls env <$> es)).
    { intros c Hc. apply list_elem_of_join. exists (entry_calls env (id, v)).
      split; [done|]. apply list_elem_of_fmap. by exists (id, v). }
    rewrite Hcalls. split_and!.
    + apply Hjoin. unfold entry_calls. cbn [snd]. rewrite Hid.
      destruct (Env.readBalance env id) as [[| |]|]; apply list_elem_of_here.
    + intros Hnz. apply Hjoin. unfold entry_calls. cbn [snd]. rewrite Hid.
      destruct (Env.readBalance env id) as [[| |]|]; [done|..];
        apply list_elem_of_further, list_elem_of_here.
    + intros Hz. split.
      * intros a n sg Hc. destruct (Hentry _ Hc eq_refl) as [_ Hc'].
        unfold entry_calls in Hc'. cbn [snd] in Hc'. rewrite Hid, Hz in Hc'.
        apply list_elem_of_singleton in Hc'. done.
      * apply all_claimed_unclaimedOf. rewrite claimExpiring_submit_all. fold es.
        apply (submit_all_claims env es id v); [done|]. left. by rewrite Hid.
  - intros Hnot.
    assert (Hout : (id, v) ∉ es).
    { intros [Hd _]%list_elem_of_filter. unfold due in Hd. cbn [fst snd] in Hd.
      rewrite Hch in Hd. rewrite (bool_decide_eq_true_2 (_ > _)) in Hd by done.
      by rewrite andb_false_r in Hd. }
    split.
    + intros c Hc Hcid. rewrite Hcalls in Hc. by destruct (Hentry c Hc Hcid).
    + rewrite claimExpiring_submit_all. fold es.
      rewrite unclaimedOf_submit_all_ne; [done|].
      intros Hin. apply list_elem_of_fmap in Hin as ([k v'] & Hk & Hkv). cbn in Hk. subst k.
      assert (v' = v) as ->; [|done].
      pose proof (elem_of_map_get _ _ _ Hnd (Hsub _ Hkv)) as Hg. rewrite Hget in Hg.
      by injection Hg.
Qed.

(** C7 at the scenario of the specification: expiry 1800 s away, buffer
    3600 s, amount 250 below the threshold, a balance left on chain: the
    claim is submitted. *)
Lemma C7_witness :
  let now_ms := 1700000000000 in
  let ch := channelOf "0xc1" 250 (1700000000 + 1800) (Some (InArray 0%nat)) in
  let s := storeOf [voucherOf "0xc1" 250 2] [("0xc1", ch)] in
  let env := Env.mk (λ _, JS.Throw (JS.mkThrown true "rpc" None None))
               (λ _, JS.Ok 999750) (λ _ _ _ _, JS.Ok "0xtx")
               (λ _ _ _ _ _ _ _, JS.Ok true) (λ _, ticking now_ms) in
  let pass := DrainService.claimExpiring provider1 env now_ms 3600 s in
  250 < ProviderConfig.claimThreshold (DrainService.config provider1)
  ∧ GetBalance "0xc1" ∈ DrainService.calls pass
  ∧ Claim "0xc1" 250 2 "0xsig" ∈ DrainService.calls pass.
Proof.
  cbn zeta. split; [done|].
  pose proof (C7_expiring_channels provider1
    (Env.mk (λ _, JS.Throw (JS.mkThrown true "rpc" None None))
       (λ _, JS.Ok 999750) (λ _ _ _ _, JS.Ok "0xtx")
       (λ _ _ _ _ _ _ _, JS.Ok true) (λ _, ticking 1700000000000))
    1700000000000 3600
    (storeOf [voucherOf "0xc1" 250 2]
       [("0xc1", channelOf "0xc1" 250 (1700000000 + 1800) (Some (InArray 0%nat)))])
    "0xc1" (channelOf "0xc1" 250 (1700000000 + 1800) (Some (InArray 0%nat)))
    (voucherOf "0xc1" 250 2)) as H.
  cbn zeta in H.
  destruct H as [H _]; [by vm_compute | by vm_compute | by vm_compute |].
  destruct H as (H1 & H2 & _); [by vm_compute | by vm_compute |].
  split; [exact H1|]. apply H2. discriminate.
Defined.

(* ===================================================================== *)
(** * C8: what validation leaves untouched                              *)
(* ===================================================================== *)



(* ===================================================================== *)
(** * C9: the storage file                                              *)
(* ===================================================================== *)

Section RoundTripWritten.

Import VoucherStorage.

(** What a restart finds of a store that was just saved: its vouchers,
    and for every channel an entry equal to the one in memory. *)
Lemma reload_save w :
  vouchers (data (reload (save w))) = vouchers (data w)
  ∧ ∀ cid,
      match getChannel cid w with
      | None => getChannel cid (reload (save w)) = None
      | Some ch =>
          ∃ ch', getChannel cid (reload (save w)) = Some ch'
                 ∧ same_entry (vouchers (data (reload (save w)))) ch' (vouchers (data w)) ch
      end.
Proof.
  destruct (saved_reloads w) as [Hv Hc]. split; [exact Hv|].
  intros cid. specialize (Hc cid).
  change (getChannel cid (save w)) with (getChannel cid w) in Hc.
  destruct (getChannel cid w) as [ch|]; [|done].
  destruct Hc as (ch' & Hg & H1 & H2 & H3 & H4 & H5 & H6 & H7 & H8).
  exists ch'. split; [done|]. by split_and!.
Qed.

End RoundTripWritten.

(** C9: what is written is what a restart finds.  After
    [storeVoucher(v)] the reloaded store holds the vouchers that were
    there followed by [v]; after [updateChannel(id, state)] it holds
    under [id] an entry equal to [state], with the same [deposit], the
    same [totalCharged] and, as a value, the same [lastVoucher]; in both
    cases every other channel is found as it was in memory and none is
    added.  The commit step of the service, for a voucher whose numbers
    read, succeeds, and the reloaded store holds the committed voucher,
    with its amount and nonce, as the last of the list and as the
    [lastVoucher] of the channel, whose entry has the deposit of the
    state committed and its [totalCharged] raised by the cost. *)
Theorem C9_storage_round_trip (s : VoucherStorage.t) (v : StoredVoucher.t)
    (id : string) (state : ChannelState.t) :
  let vs := VoucherStorage.vouchers (VoucherStorage.data s) in
  (let w := reload (VoucherStorage.storeVoucher v s) in
   VoucherStorage.vouchers (VoucherStorage.data w) = vs ++ [v]
   ∧ ∀ cid,
       match VoucherStorage.getChannel cid s with
       | None => VoucherStorage.getChannel cid w = None
       | Some ch =>
           ∃ ch', VoucherStorage.getChannel cid w = Some ch'
                  ∧ same_entry (VoucherStorage.vouchers (VoucherStorage.data w)) ch'
                      (vs ++ [v]) ch
       end)
  ∧ (let w := reload (VoucherStorage.updateChannel id state s) in
     VoucherStorage.vouchers (VoucherStorage.data w) = vs
     ∧ (∃ state', VoucherStorage.getChannel id w = Some state'
                  ∧ same_entry (VoucherStorage.vouchers (VoucherStorage.data w)) state'
                      vs state)
     ∧ ∀ cid, cid ≠ id →
         match VoucherStorage.getChannel cid s with
         | None => VoucherStorage.getChannel cid w = None
         | Some ch =>
             ∃ ch', VoucherStorage.getChannel cid w = Some ch'
                    ∧ same_entry (VoucherStorage.vouchers (VoucherStorage.data w)) ch' vs ch
         end)
  ∧ (∀ t3 t4 voucher cost amount nonce,
       JS.BigInt (VoucherHeader.amount voucher) = Some amount →
       JS.BigInt (VoucherHeader.nonce voucher) = Some nonce →
       let stored :=
         StoredVoucher.mk (VoucherHeader.channelId voucher) amount nonce
           (VoucherHeader.signature voucher) (ChannelState.consumer state)
           t3 false None None in
       ∃ s', DrainService.storeVoucher t3 t4 voucher state cost s = JS.Ok s'
         ∧ VoucherStorage.vouchers (VoucherStorage.data (reload s')) = vs ++ [stored]
         ∧ ∃ state',
             VoucherStorage.getChannel (VoucherHeader.channelId voucher) (reload s')
             = Some state'
             ∧ ChannelState.channelId state' = ChannelState.channelId state
             ∧ ChannelState.consumer state' = ChannelState.consumer state
             ∧ ChannelState.deposit state' = ChannelState.deposit state
             ∧ ChannelState.totalCharged state' = ChannelState.totalCharged state + cost
             ∧ ChannelState.expiry state' = ChannelState.expiry state
             ∧ ChannelState.createdAt state' = ChannelState.createdAt state
             ∧ ChannelState.lastActivityAt state' = t4
             ∧ VoucherStorage.lastVoucherOf
                 (VoucherStorage.vouchers (VoucherStorage.data (reload s'))) state'
               = Some stored).
Proof.
  cbn zeta. split_and!.
  - exact (proj1 (reload_save
                    (VoucherStorage.mk
                       (VoucherStorage.set_vouchers
                          (VoucherStorage.vouchers (VoucherStorage.data s) ++ [v])
                          (VoucherStorage.data s)) (VoucherStorage.disk s)))).
  - intros cid.
    exact (proj2 (reload_save
                    (VoucherStorage.mk
                       (VoucherStorage.set_vouchers
                          (VoucherStorage.vouchers (VoucherStorage.data s) ++ [v])
                          (VoucherStorage.data s)) (VoucherStorage.disk s))) cid).
  - exact (proj1 (reload_save
                    (VoucherStorage.mk
                       (VoucherStorage.set_channels
                          (<[id := state]> (VoucherStorage.channels (VoucherStorage.data s)))
                          (VoucherStorage.data s)) (VoucherStorage.disk s)))).
  - pose proof (proj2 (reload_save
                    (VoucherStorage.mk
                       (VoucherStorage.set_channels
                          (<[id := state]> (VoucherStorage.channels (VoucherStorage.data s)))
                          (VoucherStorage.data s)) (VoucherStorage.disk s))) id) as H.
    assert (VoucherStorage.getChannel id
              (VoucherStorage.mk
                 (VoucherStorage.set_channels
                    (<[id := state]> (VoucherStorage.channels (VoucherStorage.data s)))
                    (VoucherStorage.data s)) (VoucherStorage.disk s)) = Some state) as E
      by apply lookup_insert_eq.
    rewrite E in H. exact H.
  - intros cid Hne.
    pose proof (proj2 (reload_save
                    (VoucherStorage.mk
                       (VoucherStorage.set_channels
                          (<[id := state]> (VoucherStorage.channels (VoucherStorage.data s)))
                          (VoucherStorage.data s)) (VoucherStorage.disk s))) cid) as H.
    assert (VoucherStorage.getChannel cid
              (VoucherStorage.mk
                 (VoucherStorage.set_channels
                    (<[id := state]> (VoucherStorage.channels (VoucherStorage.data s)))
                    (VoucherStorage.data s)) (VoucherStorage.disk s))
            = VoucherStorage.getChannel cid s) as E
      by (by apply lookup_insert_ne).
    rewrite E in H. exact H.
  - intros t3 t4 voucher cost amount nonce Ha Hn.
    unfold DrainService.storeVoucher. rewrite Ha, Hn. eexists. split; [reflexivity|].
    match goal with
    | |- context [reload (VoucherStorage.updateChannel ?k ?st ?w0)] =>
        pose proof (reload_save
                      (VoucherStorage.mk
                         (VoucherStorage.set_channels
                            (<[k := st]> (VoucherStorage.channels (VoucherStorage.data w0)))
                            (VoucherStorage.data w0)) (VoucherStorage.disk w0))) as [Hv Hc];
        specialize (Hc k);
        assert (VoucherStorage.getChannel k
                  (VoucherStorage.mk
                     (VoucherStorage.set_channels
                        (<[k := st]> (VoucherStorage.channels (VoucherStorage.data w0)))
                        (VoucherStorage.data w0)) (VoucherStorage.disk w0)) = Some st) as E
          by apply lookup_insert_eq;
        rewrite E in Hc
    end.
    split; [exact Hv|].
    destruct Hc as (state' & Hg & H1 & H2 & H3 & H4 & H5 & H6 & H7 & H8).
    exists state'. split; [exact Hg|]. split_and!; try done.
    etrans; [exact H8|]. unfold VoucherStorage.lastVoucherOf. cbn.
    by rewrite lookup_app_r, Nat.sub_diag by lia.
Qed.

(** C9 on a commit with numbers far beyond 2^53: the voucher and the
    entry written are the ones a restart finds. *)
Lemma C9_witness :
  let big := 340282366920938463463374607431768211456 in
  let s := storeOf [voucherOf "0xc1" 100 1] [] in
  let voucher := VoucherHeader.mk "0xc1" "340282366920938463463374607431768211456"
                   "18446744073709551616" "0xsig" in
  let state := channelOf "0xc1" 100 1700003600 (Some (InArray 0%nat)) in
  let stored := StoredVoucher.mk "0xc1" big 18446744073709551616 "0xsig" "0xC0ffee"
                  1700000000002 false None None in
  ∃ s', DrainService.storeVoucher 1700000000002 1700000000003 voucher state 250 s = JS.Ok s'
    ∧ VoucherStorage.vouchers (VoucherStorage.data (reload s'))
      = [voucherOf "0xc1" 100 1; stored]
    ∧ ∃ state', VoucherStorage.getChannel "0xc1" (reload s') = Some state'
        ∧ ChannelState.channelId state' = "0xc1"%string
        ∧ ChannelState.consumer state' = "0xC0ffee"%string
        ∧ ChannelState.deposit state' = 1000000
        ∧ ChannelState.totalCharged state' = 100 + 250
        ∧ ChannelState.expiry state' = 1700003600
        ∧ ChannelState.createdAt state' = 1700000000000
        ∧ ChannelState.lastActivityAt state' = 1700000000003
        ∧ VoucherStorage.lastVoucherOf
            (VoucherStorage.vouchers (VoucherStorage.data (reload s'))) state'
          = Some stored.
Proof.
  exact (proj2 (proj2 (C9_storage_round_trip
                         (storeOf [voucherOf "0xc1" 100 1] [])
                         (voucherOf "0xc1" 100 1) "0xc1"
                         (channelOf "0xc1" 100 1700003600 (Some (InArray 0%nat)))))
           1700000000002 1700000000003
           (VoucherHeader.mk "0xc1" "340282366920938463463374607431768211456"
              "18446744073709551616" "0xsig")
           250 340282366920938463463374607431768211456 18446744073709551616
           eq_refl eq_refl).
Defined.

(** Reloading a store whose amounts are far beyond 2^53. *)
Example reload_example :
  let big := 340282366920938463463374607431768211456 in
  let s := storeOf [voucherOf "0xc1" big 18446744073709551616]
             [("0xc1", channelOf "0xc1" big 1700003600 (Some (InArray 0%nat)))] in
  lastVoucherAt "0xc1" (reload s) = Some (voucherOf "0xc1" big 18446744073709551616)
  ∧ charged "0xc1" (reload s) = big
  ∧ ChannelState.lastVoucher <$> VoucherStorage.getChannel "0xc1" (reload s)
    = Some (Some (Detached (voucherOf "0xc1" big 18446744073709551616))).
Proof. by vm_compute. Qed.

(* ===================================================================== *)
(** * C10: markClaimed                                                  *)
(* ===================================================================== *)

(** C10, as stated, fails: the claim has all vouchers marked by one call
    carry the same [claimedAt].  [Date.now()] is read once per marked
    voucher; when the clock ticks between two of them they differ.  Here
    two unclaimed vouchers of one channel are marked at 1700000000000 and
    1700000000001. *)
Lemma C10_counterexample :
  let s := storeOf [voucherOf "0xc1" 100 1; voucherOf "0xc1" 250 2] [] in
  let s' := VoucherStorage.markClaimed "0xc1" "0xtx" (ticking 1700000000000) s in
  StoredVoucher.claimed <$> VoucherStorage.vouchers (VoucherStorage.data s') = [true; true]
  ∧ StoredVoucher.claimTxHash <$> VoucherStorage.vouchers (VoucherStorage.data s')
    = [Some "0xtx"; Some "0xtx"]
  ∧ StoredVoucher.claimedAt <$> VoucherStorage.vouchers (VoucherStorage.data s')
    = [Some 1700000000000; Some 1700000000001].
Proof. by vm_compute. Qed.

(** C10 (amended): [markClaimed(channelId, txHash)] marks every unclaimed
    stored voucher of the channel, not only the highest: each gets
    [claimed = true], the given [txHash] and as [claimedAt] the clock
    reading taken when it is marked.  Vouchers of other channels and
    vouchers already claimed are unchanged.  Afterwards the channel has no
    unclaimed voucher, [getHighestVoucherPerChannel] is what it was without
    the entry of the channel, and [getTotalUnclaimed] has dropped by the
    amount of that entry.  Every turn of a claim loop (zero balance,
    successful claim, permanent error) leaves the channel so, except a
    transient failure, which leaves the store as it was. *)
Theorem C10_markClaimed_marks_all (id txHash : string) (clock : nat → Z)
    (s : VoucherStorage.t) :
  let s' := VoucherStorage.markClaimed id txHash clock s in
  let vs := VoucherStorage.vouchers (VoucherStorage.data s) in
  let vs' := VoucherStorage.vouchers (VoucherStorage.data s') in
  length vs' = length vs
  ∧ (∀ i v, vs !! i = Some v →
       StoredVoucher.channelId v = id → StoredVoucher.claimed v = false →
       vs' !! i = Some (StoredVoucher.mk (StoredVoucher.channelId v) (StoredVoucher.amount v)
                          (StoredVoucher.nonce v) (StoredVoucher.signature v)
                          (StoredVoucher.consumer v) (StoredVoucher.receivedAt v)
                          true (Some (clock i)) (Some txHash)))
  ∧ (∀ i v, vs !! i = Some v →
       StoredVoucher.channelId v ≠ id ∨ StoredVoucher.claimed v = true →
       vs' !! i = Some v)
  ∧ unclaimedOf id s' = []
  ∧ VoucherStorage.getHighestVoucherPerChannel s'
    = without id (VoucherStorage.getHighestVoucherPerChannel s)
  ∧ VoucherStorage.map_get id (VoucherStorage.getHighestVoucherPerChannel s') = None
  ∧ VoucherStorage.getTotalUnclaimed s'
    = VoucherStorage.getTotalUnclaimed s
      - default 0 (StoredVoucher.amount
                     <$> VoucherStorage.map_get id (VoucherStorage.getHighestVoucherPerChannel s))
  ∧ VoucherStorage.channels (VoucherStorage.data s')
    = VoucherStorage.channels (VoucherStorage.data s)
  ∧ (∀ env k v p,
       unclaimedOf k (DrainService.storage (DrainService.submit env k v p)) = []
       ∨ DrainService.storage (DrainService.submit env k v p) = DrainService.storage p).
Proof.
  cbn zeta. split_and!.
  - cbn. by rewrite length_imap.
  - intros i v Hi Hid Hcl. rewrite markClaimed_lookup, Hi. cbn.
    by rewrite mark_fresh.
  - intros i v Hi Hv. rewrite markClaimed_lookup, Hi. cbn.
    destruct Hv as [Hne|Hcl]; [by rewrite mark_other | by rewrite mark_already].
  - apply unclaimedOf_markClaimed.
  - apply getHighest_markClaimed.
  - rewrite getHighest_markClaimed. apply map_get_without_eq.
  - apply getTotalUnclaimed_markClaimed.
  - done.
  - intros env k v p. unfold DrainService.submit.
    destruct (Env.readBalance env _) as [[| |]|eb]; cbn [DrainService.storage];
      [left; apply unclaimedOf_markClaimed|..];
      (destruct (Env.writeClaim env _ _ _ _) as [h|ec]; cbn [DrainService.storage];
       [left; apply unclaimedOf_markClaimed|]);
      unfold DrainService.handleClaimError;
      (destruct (DrainService.isPermanent ec); [left; apply unclaimedOf_markClaimed | by right]).
Qed.

(* ===================================================================== *)
(** * Further properties: the voucher store                              *)
(* ===================================================================== *)

Section HighestMore.
Import VoucherStorage.

Lemma all_claimed_highest_of vs :
  (∀ v, v ∈ vs → StoredVoucher.claimed v = true) → ∀ m, fold_left highest_step vs m = m.
Proof.
  induction vs as [|v vs IH]; intros H m; [done|]. cbn [fold_left].
  rewrite highest_step_claimed by (apply H; left). apply IH. intros w Hw. apply H. by right.
Qed.

Lemma unclaimed_nil_all_claimed s :
  getUnclaimedVouchers s = [] → ∀ v, v ∈ vouchers (data s) → StoredVoucher.claimed v = true.
Proof.
  unfold getUnclaimedVouchers. intros H v Hv.
  destruct (StoredVoucher.claimed v) eqn:E; [done|].
  assert (v ∈ filter (λ v, StoredVoucher.claimed v = false) (vouchers (data s))) as Hin
    by (apply list_elem_of_filter; done).
  rewrite H in Hin. by apply elem_of_nil in Hin.
Qed.

Lemma getHighest_nil s : getUnclaimedVouchers s = [] → getHighestVoucherPerChannel s = [].
Proof.
  intros H. unfold getHighestVoucherPerChannel.
  apply all_claimed_highest_of. by apply unclaimed_nil_all_claimed.
Qed.

Lemma earliest_snoc_keep vs k v0 v : earliest vs k v0 → earliest (vs ++ [v]) k v0.
Proof.
  intros (i & Hi & Hlt). exists i. split.
  - by apply lookup_app_l_Some.
  - intros j w Hj Hw. apply lookup_lt_Some in Hi.
    rewrite lookup_app_l in Hw by lia. by apply (Hlt j).
Qed.

Lemma earliest_snoc_new vs v :
  (∀ w, w ∈ vs → StoredVoucher.channelId w = StoredVoucher.channelId v →
        StoredVoucher.claimed w = false →
        StoredVoucher.amount w < StoredVoucher.amount v) →
  earliest (vs ++ [v]) (StoredVoucher.channelId v) v.
Proof.
  intros H. exists (length vs). split.
  - by rewrite lookup_app_r, Nat.sub_diag by lia.
  - intros j w Hj Hw. rewrite lookup_app_l in Hw by lia.
    apply H. by eapply list_elem_of_lookup_2.
Qed.

Lemma highest_earliest_step vs m v :
  highest_inv vs m →
  (∀ k e, map_get k m = Some e → earliest vs k e) →
  ∀ k e, map_get k (highest_step m v) = Some e → earliest (vs ++ [v]) k e.
Proof.
  intros Hinv He k e. unfold highest_step.
  destruct (StoredVoucher.claimed v) eqn:Ecl.
  { intros Hk. apply earliest_snoc_keep. by apply He. }
  destruct (map_get (StoredVoucher.channelId v) m) as [ex|] eqn:Eex.
  - case_bool_decide as Hgt.
    + destruct (decide (StoredVoucher.channelId v = k)) as [<-|Hne].
      * rewrite map_get_set_eq. intros [= <-]. apply earliest_snoc_new.
        intros w Hw Hid Hwcl.
        destruct (hi_sound _ _ Hinv _ _ Eex) as (_ & _ & _ & Hmax).
        specialize (Hmax w Hw Hid Hwcl). lia.
      * rewrite map_get_set_ne by done. intros Hk. apply earliest_snoc_keep. by apply He.
    + intros Hk. apply earliest_snoc_keep. by apply He.
  - destruct (decide (StoredVoucher.channelId v = k)) as [<-|Hne].
    + rewrite map_get_set_eq. intros [= <-]. apply earliest_snoc_new.
      intros w Hw Hid Hwcl.
      destruct (hi_complete _ _ Hinv w Hw Hwcl) as [x Hx]. rewrite Hid in Hx. congruence.
    + rewrite map_get_set_ne by done. intros Hk. apply earliest_snoc_keep. by apply He.
Qed.

Lemma highest_of_earliest vs :
  ∀ k e, map_get k (highest_of vs) = Some e → earliest vs k e.
Proof.
  induction vs as [|v vs IH] using rev_ind; [done|].
  intros k e. rewrite highest_of_snoc. apply highest_earliest_step; [apply highest_of_inv | done].
Qed.

End HighestMore.

(** X1: [getHighestVoucherPerChannel] holds one entry per channel; the
    entry of a channel is a stored, unclaimed voucher of that channel whose
    amount no unclaimed voucher of the channel exceeds; a channel has no
    entry exactly when all its stored vouchers are claimed. *)
Theorem X1_highest_per_channel (s : VoucherStorage.t) :
  let m := VoucherStorage.getHighestVoucherPerChannel s in
  NoDup m.*1
  ∧ (∀ k v, (k, v) ∈ m ↔ VoucherStorage.map_get k m = Some v)
  ∧ (∀ k v, VoucherStorage.map_get k m = Some v →
       best (VoucherStorage.vouchers (VoucherStorage.data s)) k v)
  ∧ (∀ k, VoucherStorage.map_get k m = None ↔ all_claimed k s).
Proof.
  cbn zeta. pose proof (getHighest_inv s) as [Hnd Hs Hc]. split_and!.
  - done.
  - intros k v. split; [by apply elem_of_map_get | apply map_get_elem_of].
  - done.
  - intros k. split; [|apply all_claimed_not_highest].
    intros Hn v Hv Hid. destruct (StoredVoucher.claimed v) eqn:E; [done|].
    destruct (Hc v Hv E) as [x Hx]. rewrite Hid in Hx. congruence.
Qed.

(** X2: among the unclaimed vouchers of a channel that share the highest
    amount, [getHighestVoucherPerChannel] keeps the one stored first: every
    unclaimed voucher of the channel stored before the entry has a
    strictly smaller amount. *)
Theorem X2_highest_is_earliest (s : VoucherStorage.t) (k : string) (v : StoredVoucher.t) :
  VoucherStorage.map_get k (VoucherStorage.getHighestVoucherPerChannel s) = Some v →
  earliest (VoucherStorage.vouchers (VoucherStorage.data s)) k v.
Proof. apply highest_of_earliest. Qed.

(** X2 on two vouchers of the same amount: the first is the entry. *)
Lemma X2_witness :
  let s := storeOf [voucherOf "0xc1" 250 1; voucherOf "0xc1" 250 2] [] in
  VoucherStorage.map_get "0xc1" (VoucherStorage.getHighestVoucherPerChannel s)
    = Some (voucherOf "0xc1" 250 1)
  ∧ earliest (VoucherStorage.vouchers (VoucherStorage.data s)) "0xc1" (voucherOf "0xc1" 250 1).
Proof.
  split; [reflexivity|].
  apply (X2_highest_is_earliest
           (storeOf [voucherOf "0xc1" 250 1; voucherOf "0xc1" 250 2] []) "0xc1").
  reflexivity.
Defined.

(** X3: when no stored voucher is unclaimed, nothing is owed and a claim
    pass of either kind does nothing: no call to the chain, no
    transaction hash, the store as it was. *)
Theorem X3_nothing_unclaimed (svc : DrainService.t) (env : Env.t) (forceAll : bool)
    (dateNow bufferSeconds : Z) (s : VoucherStorage.t) :
  VoucherStorage.getUnclaimedVouchers s = [] →
  VoucherStorage.getHighestVoucherPerChannel s = []
  ∧ VoucherStorage.getTotalUnclaimed s = 0
  ∧ DrainService.claimPayments svc env forceAll s = DrainService.mkPass [] [] s
  ∧ DrainService.claimExpiring svc env dateNow bufferSeconds s = DrainService.mkPass [] [] s.
Proof.
  intros H. pose proof (getHighest_nil s H) as Hn.
  unfold VoucherStorage.getTotalUnclaimed, DrainService.claimPayments,
    DrainService.claimExpiring. by rewrite Hn.
Qed.

(** X3 on a store whose only voucher is claimed. *)
Lemma X3_witness :
  let v := StoredVoucher.mk "0xc1" 250 1 "0xsig" "0xC0ffee" 1700000000000 true
             (Some 1700000000500) (Some "0xtx") in
  DrainService.claimPayments provider1 (chain1 true) true (storeOf [v] [])
  = DrainService.mkPass [] [] (storeOf [v] []).
Proof.
  apply (X3_nothing_unclaimed provider1 (chain1 true) true 0 0). reflexivity.
Defined.

Section Totals.
Import VoucherStorage.

Lemma total_of_ge m kv :
  (∀ e, e ∈ m → 0 ≤ StoredVoucher.amount e.2) →
  kv ∈ m → StoredVoucher.amount kv.2 ≤ total_of m.
Proof.
  induction m as [|e m IH]; intros Hpos Hin; [by apply elem_of_nil in Hin|].
  rewrite total_cons.
  assert (0 ≤ total_of m) as H0.
  { clear IH Hin. induction m as [|e' m IH']; [done|]. rewrite total_cons.
    assert (0 ≤ StoredVoucher.amount e'.2) by (apply Hpos; right; left).
    assert (0 ≤ total_of m); [|lia].
    apply IH'. intros x Hx. apply Hpos. apply elem_of_cons in Hx as [->|Hx]; [left|].
    right. by right. }
  apply elem_of_cons in Hin as [->|Hin].
  - lia.
  - assert (0 ≤ StoredVoucher.amount e.2) by (apply Hpos; left).
    assert (StoredVoucher.amount kv.2 ≤ total_of m); [|lia].
    apply IH; [|done]. intros x Hx. apply Hpos. by right.
Qed.

Lemma sum_amounts_cons v l :
  sum_amounts (v :: l) = StoredVoucher.amount v + sum_amounts l.
Proof. done. Qed.

Lemma total_of_sum m : total_of m = sum_amounts m.*2.
Proof.
  induction m as [|e m IH]; [done|]. rewrite total_cons, fmap_cons, sum_amounts_cons. by rewrite IH.
Qed.

Lemma values_NoDup (m : VoucherMap) :
  NoDup m.*1 → (∀ k v, (k, v) ∈ m → StoredVoucher.channelId v = k) → NoDup m.*2.
Proof.
  induction m as [|[k v] m IH]; intros Hnd Hk; [constructor|].
  rewrite fmap_cons in *. cbn in *. apply NoDup_cons in Hnd as [Hni Hnd].
  apply NoDup_cons. split.
  - intros Hin. apply list_elem_of_fmap in Hin as ([k' v'] & Hv & Hin). cbn in Hv. subst v'.
    apply Hni. apply list_elem_of_fmap. exists (k', v). split; [|done]. cbn.
    rewrite <- (Hk k v) by left. apply Hk. by right.
  - apply IH; [done|]. intros k' v' Hin. apply Hk. by right.
Qed.

Lemma sum_amounts_submseteq l1 l2 :
  l1 ⊆+ l2 → (∀ v, v ∈ l2 → 0 ≤ StoredVoucher.amount v) → sum_amounts l1 ≤ sum_amounts l2.
Proof.
  induction 1 as [|x l1 l2 H IH|x y l|x l1 l2 H IH|l1 l2 l3 H1 IH1 H2 IH2]; intros Hpos.
  - done.
  - rewrite !sum_amounts_cons. assert (sum_amounts l1 ≤ sum_amounts l2); [|lia].
    apply IH. intros v Hv. apply Hpos. by right.
  - rewrite !sum_amounts_cons. lia.
  - rewrite !sum_amounts_cons. assert (0 ≤ StoredVoucher.amount x) by (apply Hpos; left).
    assert (sum_amounts l1 ≤ sum_amounts l2); [|lia].
    apply IH. intros v Hv. apply Hpos. by right.
  - etrans; [apply IH1|apply IH2; done].
    intros v Hv. apply Hpos. by eapply elem_of_submseteq.
Qed.

Lemma unclaimed_elem s v :
  v ∈ getUnclaimedVouchers s ↔ v ∈ vouchers (data s) ∧ StoredVoucher.claimed v = false.
Proof. unfold getUnclaimedVouchers. rewrite list_elem_of_filter. tauto. Qed.

End Totals.

(** X4: when no unclaimed voucher has a negative amount,
    [getTotalUnclaimed] is at least the amount of every unclaimed voucher
    and at most the sum of the amounts of all unclaimed vouchers: it
    counts one voucher per channel, the highest. *)
Theorem X4_total_unclaimed_bounds (s : VoucherStorage.t) :
  (∀ v, v ∈ VoucherStorage.getUnclaimedVouchers s → 0 ≤ StoredVoucher.amount v) →
  (∀ v, v ∈ VoucherStorage.getUnclaimedVouchers s →
        StoredVoucher.amount v ≤ VoucherStorage.getTotalUnclaimed s)
  ∧ VoucherStorage.getTotalUnclaimed s
    ≤ sum_amounts (VoucherStorage.getUnclaimedVouchers s).
Proof.
  intros Hpos. pose proof (getHighest_inv s) as [Hnd Hs Hc].
  assert (∀ k e, (k, e) ∈ VoucherStorage.getHighestVoucherPerChannel s →
                 e ∈ VoucherStorage.getUnclaimedVouchers s ∧ StoredVoucher.channelId e = k)
    as Hent.
  { intros k e He. apply highest_entry_key in He as (Hk & Hcl & Hin).
    split; [by apply unclaimed_elem | done]. }
  change (VoucherStorage.getTotalUnclaimed s)
    with (total_of (VoucherStorage.getHighestVoucherPerChannel s)).
  split.
  - intros v Hv. apply unclaimed_elem in Hv as [Hin Hcl].
    destruct (Hc v Hin Hcl) as [e He].
    destruct (Hs _ _ He) as (_ & _ & _ & Hmax).
    specialize (Hmax v Hin eq_refl Hcl).
    etrans; [exact Hmax|].
    apply (total_of_ge _ (StoredVoucher.channelId v, e)).
    + intros [k x] Hx. cbn. apply Hpos. by apply (Hent k x).
    + by apply map_get_elem_of.
  - rewrite total_of_sum. apply sum_amounts_submseteq; [|done].
    apply NoDup_submseteq.
    + apply values_NoDup; [done|]. intros k v Hkv. by apply (Hent k v).
    + intros v Hv. apply list_elem_of_fmap in Hv as ([k e] & -> & Hin). cbn.
      by apply (Hent k e).
Qed.

(** X4 on a store with three unclaimed vouchers on two channels: 250 and
    70 are counted, 100 is not. *)
Lemma X4_witness :
  let s := storeOf [voucherOf "0xc1" 100 1; voucherOf "0xc1" 250 2; voucherOf "0xc2" 70 1] [] in
  VoucherStorage.getTotalUnclaimed s = 320
  ∧ VoucherStorage.getTotalUnclaimed s ≤ sum_amounts (VoucherStorage.getUnclaimedVouchers s).
Proof.
  split; [reflexivity|].
  apply (X4_total_unclaimed_bounds
           (storeOf [voucherOf "0xc1" 100 1; voucherOf "0xc1" 250 2; voucherOf "0xc2" 70 1] [])).
  intros v Hv. vm_compute in Hv.
  repeat (apply elem_of_cons in Hv as [->|Hv]; [by vm_compute|]).
  by apply elem_of_nil in Hv.
Defined.

Section StatsFacts.
Import VoucherStorage.

Lemma unclaimed_count_marked id txHash vs :
  ∀ g : nat → StoredVoucher.t → StoredVoucher.t,
  (∀ i v, ∃ now, g i v = mark id txHash now v) →
  length (filter (λ v, StoredVoucher.claimed v = false) vs)
  = (length (filter (λ v, StoredVoucher.claimed v = false) (imap g vs))
     + length (filter (λ v, StoredVoucher.channelId v = id ∧ StoredVoucher.claimed v = false)
                 vs))%nat.
Proof.
  induction vs as [|v vs IH]; intros g Hg; [done|].
  rewrite imap_cons, !filter_cons.
  assert (∀ i v, ∃ now, (g ∘ S) i v = mark id txHash now v) as Hg'
    by (intros i w; apply (Hg (S i) w)).
  specialize (IH (g ∘ S) Hg'). destruct (Hg 0%nat v) as [now ->].
  destruct (decide (StoredVoucher.channelId v = id)) as [Hid|Hid];
    destruct (StoredVoucher.claimed v) eqn:Hcl.
  - rewrite mark_already, Hcl by done.
    repeat case_decide; try (exfalso; intuition congruence). exact IH.
  - pose proof (mark_claimed id txHash now v Hid) as Hm. rewrite Hm.
    repeat case_decide; try (exfalso; intuition congruence). cbn [length]. rewrite IH. lia.
  - rewrite mark_other, Hcl by done.
    repeat case_decide; try (exfalso; intuition congruence). exact IH.
  - rewrite mark_other, Hcl by done.
    repeat case_decide; try (exfalso; intuition congruence). cbn [length]. rewrite IH. lia.
Qed.

Lemma unclaimed_count_mark id txHash vs clock :
  length (filter (λ v, StoredVoucher.claimed v = false) vs)
  = (length (filter (λ v, StoredVoucher.claimed v = false)
               (imap (λ i v, mark id txHash (clock i) v) vs))
     + length (filter (λ v, StoredVoucher.channelId v = id ∧ StoredVoucher.claimed v = false)
                 vs))%nat.
Proof. apply (unclaimed_count_marked id txHash). intros i v. by exists (clock i). Qed.

Lemma earned_markClaimed id txHash clock s :
  totalEarned (data (markClaimed id txHash clock s)) = totalEarned (data s)
  ∧ totalClaimed (data (markClaimed id txHash clock s)) = totalClaimed (data s).
Proof. done. Qed.

Lemma earned_handleClaimError env k e s :
  totalEarned (data (DrainService.handleClaimError env k e s)) = totalEarned (data s)
  ∧ totalClaimed (data (DrainService.handleClaimError env k e s)) = totalClaimed (data s).
Proof. unfold DrainService.handleClaimError. by destruct (DrainService.isPermanent e). Qed.

Lemma earned_submit env k v p :
  totalEarned (data (DrainService.storage (DrainService.submit env k v p)))
  = totalEarned (data (DrainService.storage p))
  ∧ totalClaimed (data (DrainService.storage (DrainService.submit env k v p)))
    = totalClaimed (data (DrainService.storage p)).
Proof.
  unfold DrainService.submit.
  destruct (Env.readBalance env _) as [[| |]|eb]; cbn [DrainService.storage]; [done|..];
    (destruct (Env.writeClaim env _ _ _ _) as [h|ec]; cbn [DrainService.storage];
     [done | apply earned_handleClaimError]).
Qed.

Lemma earned_submit_all env es : ∀ p,
  totalEarned (data (DrainService.storage (submit_all env es p)))
  = totalEarned (data (DrainService.storage p))
  ∧ totalClaimed (data (DrainService.storage (submit_all env es p)))
    = totalClaimed (data (DrainService.storage p)).
Proof.
  induction es as [|[k v] es IH]; intros p; [done|].
  rewrite submit_all_cons. destruct (IH (DrainService.submit env k v p)) as [-> ->].
  apply earned_submit.
Qed.

Lemma earned_resolveChannel t1 t2 id cd s :
  totalEarned (data (DrainService.resolveChannel t1 t2 id cd s).2) = totalEarned (data s)
  ∧ totalClaimed (data (DrainService.resolveChannel t1 t2 id cd s).2) = totalClaimed (data s).
Proof.
  unfold DrainService.resolveChannel. destruct (getChannel id s); [|done].
  by case_bool_decide.
Qed.

Lemma earned_step svc s s' :
  service_step svc s s' →
  totalEarned (data s') = totalEarned (data s)
  ∧ totalClaimed (data s') = totalClaimed (data s).
Proof.
  destruct 1 as [env t1 t2 voucher c s|t3 t4 voucher cs cost s s' H|env forceAll s
                |env dateNow bufferSeconds s].
  - destruct (validate_storage svc env t1 t2 voucher c s) as [->|(cd & _ & ->)]; [done|].
    apply earned_resolveChannel.
  - unfold DrainService.storeVoucher in H.
    destruct (JS.BigInt (VoucherHeader.amount voucher)); [|done].
    destruct (JS.BigInt (VoucherHeader.nonce voucher)); [|done].
    by injection H as <-.
  - rewrite claimPayments_submit_all. apply earned_submit_all.
  - rewrite claimExpiring_submit_all. apply earned_submit_all.
Qed.

Lemma earned_rtc svc s s' :
  rtc (service_step svc) s s' →
  totalEarned (data s') = totalEarned (data s)
  ∧ totalClaimed (data s') = totalClaimed (data s).
Proof.
  induction 1 as [|s1 s2 s3 Hstep _ [IH1 IH2]]; [done|].
  destruct (earned_step _ _ _ Hstep) as [H1 H2]. by rewrite IH1, IH2.
Qed.

End StatsFacts.

(** X5: the counts of [getStats] under the two operations that change the
    stored vouchers.  A commit ([storeVoucher] of the service) raises
    [totalVouchers] and [unclaimedVouchers] by one, and [activeChannels]
    by one when the channel had no ledger entry; [markClaimed] keeps
    [totalVouchers] and [activeChannels] and lowers [unclaimedVouchers] by
    the number of unclaimed vouchers of the channel.  Neither changes
    [totalEarned], and [getStats] throws after the operation exactly when
    it threw before. *)
Theorem X5_stats_of_operations (s : VoucherStorage.t) :
  (∀ t3 t4 voucher channelState cost s',
     DrainService.storeVoucher t3 t4 voucher channelState cost s = JS.Ok s' →
     VoucherStorage.getStats s'
     = match VoucherStorage.getStats s with
       | JS.Ok st =>
           JS.Ok (VoucherStorage.Stats.mk
                    (S (VoucherStorage.Stats.totalVouchers st))
                    (S (VoucherStorage.Stats.unclaimedVouchers st))
                    (match VoucherStorage.getChannel (VoucherHeader.channelId voucher) s with
                     | Some _ => VoucherStorage.Stats.activeChannels st
                     | None => S (VoucherStorage.Stats.activeChannels st)
                     end)
                    (VoucherStorage.Stats.totalEarned st))
       | JS.Throw e => JS.Throw e
       end)
  ∧ (∀ id txHash clock,
       VoucherStorage.getStats (VoucherStorage.markClaimed id txHash clock s)
       = match VoucherStorage.getStats s with
         | JS.Ok st =>
             JS.Ok (VoucherStorage.Stats.mk
                      (VoucherStorage.Stats.totalVouchers st)
                      (VoucherStorage.Stats.unclaimedVouchers st
                       - length (unclaimedOf id s))
                      (VoucherStorage.Stats.activeChannels st)
                      (VoucherStorage.Stats.totalEarned st))
         | JS.Throw e => JS.Throw e
         end).
Proof.
  split.
  - intros t3 t4 voucher cs cost s' H. unfold DrainService.storeVoucher in H.
    destruct (JS.BigInt (VoucherHeader.amount voucher)) as [a|]; [|done].
    destruct (JS.BigInt (VoucherHeader.nonce voucher)) as [n|]; [|done].
    injection H as <-. unfold VoucherStorage.getStats. cbn.
    destruct (JS.BigInt (VoucherStorage.totalEarned (VoucherStorage.data s))); [|done].
    f_equal. rewrite length_app, filter_app, length_app. cbn.
    rewrite decide_True by done. cbn [length].
    rewrite map_size_insert. unfold VoucherStorage.getChannel.
    destruct (VoucherStorage.channels (VoucherStorage.data s) !! _); cbn;
      f_equal; lia.
  - intros id txHash clock. unfold VoucherStorage.getStats. cbn.
    destruct (JS.BigInt (VoucherStorage.totalEarned (VoucherStorage.data s))); [|done].
    f_equal. rewrite length_imap. f_equal.
    pose proof (unclaimed_count_mark id txHash
                  (VoucherStorage.vouchers (VoucherStorage.data s)) clock) as Hc.
    unfold unclaimedOf. cbn. lia.
Qed.

(** X6: no operation of the service ever writes [totalEarned] or
    [totalClaimed]: through validations, commits and claim passes of either
    kind both keep the text they were loaded with, and the [totalEarned]
    of [getStats] is the same after as before. *)
Theorem X6_totalEarned_never_updated (svc : DrainService.t) (s s' : VoucherStorage.t) :
  rtc (service_step svc) s s' →
  VoucherStorage.totalEarned (VoucherStorage.data s')
  = VoucherStorage.totalEarned (VoucherStorage.data s)
  ∧ VoucherStorage.totalClaimed (VoucherStorage.data s')
    = VoucherStorage.totalClaimed (VoucherStorage.data s)
  ∧ (∀ st, VoucherStorage.getStats s = JS.Ok st →
       ∃ st', VoucherStorage.getStats s' = JS.Ok st'
              ∧ VoucherStorage.Stats.totalEarned st' = VoucherStorage.Stats.totalEarned st).
Proof.
  intros H. destruct (earned_rtc _ _ _ H) as [H1 H2]. split_and!; [done..|].
  intros st. unfold VoucherStorage.getStats. rewrite H1.
  destruct (JS.BigInt _) as [e|]; [|done]. intros [= <-]. by eexists.
Qed.

(** X6 on a store started without a file: a voucher of 500000 is
    claimed with success, and [totalEarned] still reads 0. *)
Lemma X6_witness :
  let s := storeOf [voucherOf "0xc1" 500000 1] [] in
  let env := Env.mk (λ _, JS.Throw (JS.mkThrown true "rpc" None None))
               (λ _, JS.Ok 500000) (λ _ _ _ _, JS.Ok "0xtx")
               (λ _ _ _ _ _ _ _, JS.Ok true) (λ _, ticking 1700000000000) in
  let pass := DrainService.claimPayments provider1 env true s in
  DrainService.txHashes pass = ["0xtx"]
  ∧ VoucherStorage.totalEarned (VoucherStorage.data (DrainService.storage pass)) = "0"%string.
Proof.
  split; [reflexivity|].
  refine (proj1 (X6_totalEarned_never_updated provider1
                   (storeOf [voucherOf "0xc1" 500000 1] []) _ _)).
  eapply rtc_l; [apply step_claimPayments | apply rtc_refl].
Defined.

Section LoadFacts.
Import VoucherStorage.

Lemma load_voucher_readable v : is_Some (load_voucher v) ↔ readable_voucher v.
Proof.
  unfold load_voucher, readable_voucher.
  destruct (JS.BigInt (j_amount v)) as [a|]; cbn;
    [destruct (JS.BigInt (j_nonce v)) as [n|]; cbn|].
  - split; [by intros _; split; eexists | by intros _; eexists].
  - split; [by intros [? [=]] | by intros [_ [? [=]]]].
  - split; [by intros [? [=]] | by intros [[? [=]] _]].
Qed.

Lemma load_channel_readable ch : is_Some (load_channel ch) ↔ readable_channel ch.
Proof.
  unfold load_channel, readable_channel.
  destruct (JS.BigInt (k_deposit ch)) as [dep|]; cbn;
    [|split; [by intros [? [=]] | by intros [[? [=]] _]]].
  destruct (JS.BigInt (k_totalCharged ch)) as [tot|]; cbn;
    [|split; [by intros [? [=]] | by intros (_ & [? [=]] & _)]].
  destruct (k_lastVoucher ch) as [v|]; cbn.
  - rewrite <- load_voucher_readable. destruct (load_voucher v) as [sv|]; cbn.
    + split; [by intros _; split_and!; eexists | by intros _; eexists].
    + split; [by intros [? [=]] | by intros (_ & _ & [? [=]])].
  - split; [by intros _; split_and!; try eexists | by intros _; eexists].
Qed.

Lemma load_document_readable d : is_Some (load_document d) ↔ readable d.
Proof.
  unfold load_document, readable.
  assert (Forall readable_voucher (d_vouchers d) ↔ is_Some (mapM load_voucher (d_vouchers d)))
    as ->.
  { rewrite mapM_is_Some. apply Forall_proper; [|done]. intros v. cbn.
    symmetry. apply load_voucher_readable. }
  assert (map_Forall (λ _ ch, readable_channel ch) (d_channels d)
          ↔ map_Forall (λ _ ch, is_Some (load_channel ch)) (d_channels d)) as ->.
  { unfold map_Forall. split; intros H k ch Hk; apply load_channel_readable; eauto;
      by apply load_channel_readable, (H k). }
  destruct (mapM load_voucher (d_vouchers d)) as [vs|]; cbn.
  - case_bool_decide as Hch.
    + split; [by intros _; split; [eexists|] | by intros _; eexists].
    + split; [by intros [? [=]] | by intros [_ ?]].
  - split; [by intros [? [=]] | by intros [[? [=]] _]].
Qed.

Lemma load_unreadable d : ¬ readable d → load (Json d) = fresh.
Proof.
  intros H. cbn. destruct (load_document d) as [x|] eqn:E; [|done].
  exfalso. apply H, load_document_readable. by eexists.
Qed.

End LoadFacts.

(** X7: [load] reads a file wholly or not at all.  When every number of
    the document is a BigInt literal, each voucher and each channel of the
    document is loaded, in place, and the two totals are kept as text.
    When a single number is not a literal (or the file is missing or is
    no JSON), the store starts empty, and the first write after that
    replaces the file with a document that holds the new voucher only. *)
Theorem X7_load_all_or_nothing (d : VoucherStorage.Document) :
  (readable d →
     (∀ i, VoucherStorage.vouchers (VoucherStorage.load (VoucherStorage.Json d)) !! i
           = VoucherStorage.d_vouchers d !! i ≫= VoucherStorage.load_voucher)
     ∧ (∀ k, VoucherStorage.channels (VoucherStorage.load (VoucherStorage.Json d)) !! k
             = VoucherStorage.d_channels d !! k ≫= VoucherStorage.load_channel)
     ∧ VoucherStorage.totalEarned (VoucherStorage.load (VoucherStorage.Json d))
       = VoucherStorage.d_totalEarned d
     ∧ VoucherStorage.totalClaimed (VoucherStorage.load (VoucherStorage.Json d))
       = VoucherStorage.d_totalClaimed d)
  ∧ (¬ readable d →
     VoucherStorage.load (VoucherStorage.Json d) = VoucherStorage.fresh
     ∧ ∀ v,
         VoucherStorage.disk
           (VoucherStorage.storeVoucher v (VoucherStorage.open (VoucherStorage.Json d)))
         = VoucherStorage.Json
             (VoucherStorage.mkDocument [VoucherStorage.save_voucher v] ∅ "0" "0"))
  ∧ VoucherStorage.load VoucherStorage.Missing = VoucherStorage.fresh
  ∧ VoucherStorage.load VoucherStorage.Unparsable = VoucherStorage.fresh.
Proof.
  split_and!; [| |done..].
  - intros Hr. pose proof (proj2 (load_document_readable d) Hr) as [x Hx].
    cbn. rewrite Hx. cbn. unfold VoucherStorage.load_document in Hx.
    destruct (mapM VoucherStorage.load_voucher (VoucherStorage.d_vouchers d)) as [vs|] eqn:Ev;
      [|done]. cbn in Hx.
    case_bool_decide; [|done]. injection Hx as <-. cbn. split_and!; [| |done..].
    + intros i. apply mapM_Some in Ev.
      destruct (VoucherStorage.d_vouchers d !! i) as [j|] eqn:Ej; cbn.
      * destruct (Forall2_lookup_l _ _ _ _ _ Ev Ej) as (y & -> & Hy). by rewrite Hy.
      * apply lookup_ge_None in Ej. apply lookup_ge_None.
        by rewrite <- (Forall2_length _ _ _ Ev).
    + intros k. by rewrite lookup_omap.
  - intros Hn. split; [by apply load_unreadable|].
    intros v. unfold VoucherStorage.open. rewrite load_unreadable by done. done.
Qed.

(** X7 on a file whose second voucher has the amount [12a]: the readable
    first voucher is dropped with it. *)
Lemma X7_witness :
  let good := VoucherStorage.mkVoucherJson "0xc1" "250" "1" "0xsig" "0xC0ffee"
                1700000000000 false None None in
  let bad := VoucherStorage.mkVoucherJson "0xc1" "12a" "2" "0xsig" "0xC0ffee"
               1700000000000 false None None in
  VoucherStorage.load (VoucherStorage.Json (VoucherStorage.mkDocument [good; bad] ∅ "0" "0"))
  = VoucherStorage.fresh.
Proof.
  refine (proj1 (proj1 (proj2 (X7_load_all_or_nothing _)) _)).
  intros [H _]. apply Forall_cons in H as [_ H]. apply Forall_cons in H as [[[x Hx] _] _].
  discriminate Hx.
Defined.

(** X21: whose object the last voucher is.  While the process runs, the
    [lastVoucher] of a channel is the very object pushed on the voucher
    array, so that [markClaimed] for the channel shows in it.  A restart
    reads the file into separate objects: every [lastVoucher] of a
    reloaded store is a copy, and [markClaimed] leaves such a copy as it
    was, unclaimed if it was unclaimed. *)
Theorem X21_last_voucher_identity (s : VoucherStorage.t) (id txHash : string)
    (clock : nat → Z) (channel : ChannelState.t) :
  VoucherStorage.getChannel id s = Some channel →
  let s' := VoucherStorage.markClaimed id txHash clock s in
  (∀ i v, ChannelState.lastVoucher channel = Some (InArray i) →
          VoucherStorage.vouchers (VoucherStorage.data s) !! i = Some v →
          StoredVoucher.channelId v = id →
          StoredVoucher.claimed <$> lastVoucherAt id s' = Some true)
  ∧ (∀ v, ChannelState.lastVoucher channel = Some (Detached v) →
          lastVoucherAt id s' = Some v)
  ∧ (∃ channel', VoucherStorage.getChannel id (reload (VoucherStorage.save s)) = Some channel'
       ∧ ChannelState.lastVoucher channel'
         = Detached <$> VoucherStorage.lastVoucherOf
                          (VoucherStorage.vouchers (VoucherStorage.data s)) channel).
Proof.
  intros Hch. cbn zeta. split_and!.
  - intros i v Hlv Hi Hid. unfold lastVoucherAt.
    change (VoucherStorage.getChannel id (VoucherStorage.markClaimed id txHash clock s))
      with (VoucherStorage.getChannel id s).
    rewrite Hch. cbn [mbind option_bind]. unfold VoucherStorage.lastVoucherOf.
    rewrite Hlv. cbn [mbind option_bind VoucherStorage.deref].
    rewrite markClaimed_lookup, Hi. cbn. by rewrite mark_claimed.
  - intros v Hlv. unfold lastVoucherAt.
    change (VoucherStorage.getChannel id (VoucherStorage.markClaimed id txHash clock s))
      with (VoucherStorage.getChannel id s).
    rewrite Hch. cbn [mbind option_bind]. unfold VoucherStorage.lastVoucherOf.
    by rewrite Hlv.
  - unfold reload, VoucherStorage.open, VoucherStorage.save, VoucherStorage.getChannel.
    cbn [VoucherStorage.disk VoucherStorage.data]. rewrite load_serializable.
    cbn [VoucherStorage.channels]. rewrite lookup_fmap.
    unfold VoucherStorage.getChannel in Hch. rewrite Hch. cbn. by eexists.
Qed.

(** X21 on a channel whose last voucher is claimed after a restart: the
    voucher of the array is claimed, the copy the channel holds is not. *)
Lemma X21_witness :
  let s := storeOf [voucherOf "0xc1" 250 2]
             [("0xc1", channelOf "0xc1" 250 1700003600 (Some (InArray 0%nat)))] in
  let before := VoucherStorage.markClaimed "0xc1" "0xtx" (ticking 1700000000000) s in
  let after := VoucherStorage.markClaimed "0xc1" "0xtx" (ticking 1700000000000) (reload s) in
  StoredVoucher.claimed <$> lastVoucherAt "0xc1" before = Some true
  ∧ StoredVoucher.claimed <$> VoucherStorage.vouchers (VoucherStorage.data after) = [true]
  ∧ StoredVoucher.claimed <$> lastVoucherAt "0xc1" after = Some false.
Proof.
  split; [|split; reflexivity].
  refine (proj1 (X21_last_voucher_identity
                   (storeOf [voucherOf "0xc1" 250 2]
                      [("0xc1", channelOf "0xc1" 250 1700003600 (Some (InArray 0%nat)))])
                   "0xc1" "0xtx" (ticking 1700000000000)
                   (channelOf "0xc1" 250 1700003600 (Some (InArray 0%nat))) _)
            0%nat (voucherOf "0xc1" 250 2) _ _ _); reflexivity.
Defined.

(* ===================================================================== *)
(** * Further properties: commits and claim passes                       *)
(* ===================================================================== *)

Section CommitFacts.
Import VoucherStorage DrainService.

Lemma storeVoucher_Ok t3 t4 voucher cs cost s amount nonce :
  JS.BigInt (VoucherHeader.amount voucher) = Some amount →
  JS.BigInt (VoucherHeader.nonce voucher) = Some nonce →
  ∃ s', DrainService.storeVoucher t3 t4 voucher cs cost s = JS.Ok s'.
Proof. intros Ha Hn. unfold DrainService.storeVoucher. rewrite Ha, Hn. by eexists. Qed.

Lemma chargeRequest_flag svc r s :
  (chargeRequest svc r s).2 = true
  ↔ valid (validateVoucher svc (Request.env r) (Request.createdAt_now r)
             (Request.activity_now r) (Request.voucher r) (Request.cost r) s).1 = true
    ∧ Request.work_ok r = true.
Proof.
  unfold chargeRequest.
  destruct (validateVoucher svc (Request.env r) (Request.createdAt_now r)
              (Request.activity_now r) (Request.voucher r) (Request.cost r) s)
    as [validation s1] eqn:Ev. cbn [fst].
  destruct (valid validation) eqn:Hv; cbn [negb]; [|split; [done | by intros [? ?]]].
  destruct (Request.work_ok r) eqn:Hw; cbn [negb]; [|split; [done | by intros [? ?]]].
  assert (valid (validateVoucher svc (Request.env r) (Request.createdAt_now r)
             (Request.activity_now r) (Request.voucher r) (Request.cost r) s).1 = true)
    as Hacc by (by rewrite Ev).
  apply validate_accepted in Hacc as (amount & nonce & cd & Hg & _ & _ & _ & _ & Hres).
  rewrite Ev in Hres. cbn [fst] in Hres. subst validation. cbn [channel accept].
  destruct Hg as (Ha & Hn & _).
  destruct (storeVoucher_Ok (Request.received_now r) (Request.stored_now r) (Request.voucher r)
              (resolveChannel (Request.createdAt_now r) (Request.activity_now r)
                 (VoucherHeader.channelId (Request.voucher r)) cd s).1
              (Request.cost r) s1 amount nonce Ha Hn) as [s2 ->].
  done.
Qed.

Lemma chargeRequest_committed_last svc r s s' :
  chargeRequest svc r s = (s', true) →
  ∃ amount nonce lv,
    JS.BigInt (VoucherHeader.amount (Request.voucher r)) = Some amount
    ∧ JS.BigInt (VoucherHeader.nonce (Request.voucher r)) = Some nonce
    ∧ lastVoucherAt (VoucherHeader.channelId (Request.voucher r)) s' = Some lv
    ∧ StoredVoucher.amount lv = amount ∧ StoredVoucher.nonce lv = nonce
    ∧ StoredVoucher.claimed lv = false.
Proof.
  intros H. apply chargeRequest_done in H. cbn zeta in H.
  destruct H as (amount & nonce & cd & (Ha & Hn & _) & _ & _ & ->).
  eexists amount, nonce, _. split; [done|]. split; [done|]. split.
  - unfold lastVoucherAt, VoucherStorage.updateChannel, VoucherStorage.storeVoucher,
      VoucherStorage.getChannel, VoucherStorage.lastVoucherOf.
    cbn. rewrite lookup_insert_eq. cbn.
    rewrite resolveChannel_vouchers.
    by rewrite lookup_app_r, Nat.sub_diag by lia.
  - done.
Qed.

(** What the validator reads of the store: the ledger entries, and of
    the last voucher of an entry its nonce. *)
Lemma validate_reads svc env t1 t2 voucher c s s' :
  channels (data s') = channels (data s) →
  (∀ ch, StoredVoucher.nonce <$> lastVoucherOf (vouchers (data s')) ch
         = StoredVoucher.nonce <$> lastVoucherOf (vouchers (data s)) ch) →
  (validateVoucher svc env t1 t2 voucher c s').1 = (validateVoucher svc env t1 t2 voucher c s).1.
Proof.
  intros Hch Hlv. unfold validateVoucher.
  destruct (JS.BigInt (VoucherHeader.amount voucher)) as [amount|]; [|done].
  destruct (JS.BigInt (VoucherHeader.nonce voucher)) as [nonce|]; [|done].
  destruct (Env.readChannel env _) as [cd|e]; [|done].
  case_bool_decide; [done|]. case_bool_decide; [done|].
  assert ((resolveChannel t1 t2 (VoucherHeader.channelId voucher) cd s').1
          = (resolveChannel t1 t2 (VoucherHeader.channelId voucher) cd s).1) as Hres.
  { unfold resolveChannel, getChannel. rewrite Hch.
    destruct (channels (data s) !! _); [|done]. by case_bool_decide. }
  destruct (resolveChannel t1 t2 (VoucherHeader.channelId voucher) cd s') as [cs1 s1] eqn:E1.
  destruct (resolveChannel t1 t2 (VoucherHeader.channelId voucher) cd s) as [cs0 s0] eqn:E0.
  cbn [fst] in *. subst cs1.
  assert (vouchers (data s1) = vouchers (data s')) as ->.
  { change s1 with (cs0, s1).2. rewrite <- E1. apply resolveChannel_vouchers. }
  assert (vouchers (data s0) = vouchers (data s)) as ->.
  { change s0 with (cs0, s0).2. rewrite <- E0. apply resolveChannel_vouchers. }
  unfold checkVoucher. specialize (Hlv cs0).
  destruct (lastVoucherOf (vouchers (data s')) cs0) as [l1|];
    destruct (lastVoucherOf (vouchers (data s)) cs0) as [l0|]; cbn in Hlv; try done.
  by injection Hlv as ->.
Qed.

Lemma nonce_markClaimed id txHash clock s ch :
  StoredVoucher.nonce <$> lastVoucherOf (vouchers (data (markClaimed id txHash clock s))) ch
  = StoredVoucher.nonce <$> lastVoucherOf (vouchers (data s)) ch.
Proof.
  unfold lastVoucherOf. destruct (ChannelState.lastVoucher ch) as [[i|v]|]; cbn; [|done..].
  rewrite list_lookup_imap. destruct (vouchers (data s) !! i) as [v|]; cbn; [|done].
  f_equal. unfold mark. by destruct (_ && _).
Qed.

Lemma nonce_handleClaimError env k e s ch :
  StoredVoucher.nonce <$> lastVoucherOf (vouchers (data (handleClaimError env k e s))) ch
  = StoredVoucher.nonce <$> lastVoucherOf (vouchers (data s)) ch.
Proof.
  unfold handleClaimError. destruct (isPermanent e); [apply nonce_markClaimed | done].
Qed.

Lemma nonce_submit env k v p ch :
  StoredVoucher.nonce <$> lastVoucherOf (vouchers (data (storage (submit env k v p)))) ch
  = StoredVoucher.nonce <$> lastVoucherOf (vouchers (data (storage p))) ch.
Proof.
  unfold submit.
  destruct (Env.readBalance env _) as [[| |]|eb]; cbn [storage];
    [apply nonce_markClaimed|..];
    (destruct (Env.writeClaim env _ _ _ _) as [h|ec]; cbn [storage];
     [apply nonce_markClaimed | apply nonce_handleClaimError]).
Qed.

Lemma ledger_submit_all env es : ∀ p,
  channels (data (storage (submit_all env es p))) = channels (data (storage p))
  ∧ ∀ ch, StoredVoucher.nonce
            <$> lastVoucherOf (vouchers (data (storage (submit_all env es p)))) ch
          = StoredVoucher.nonce <$> lastVoucherOf (vouchers (data (storage p))) ch.
Proof.
  induction es as [|[k v] es IH]; intros p; [done|].
  rewrite submit_all_cons. destruct (IH (submit env k v p)) as [-> Hn]. split.
  - apply channels_submit.
  - intros ch. rewrite Hn. apply nonce_submit.
Qed.

End CommitFacts.

(** X8: a request is charged exactly when its voucher is accepted and
    the upstream work succeeded: once the validation has passed, the
    commit itself cannot fail.  A request that is not charged leaves the
    stored vouchers, every [totalCharged] and every last voucher as they
    were. *)
Theorem X8_charged_iff_accepted_and_served (svc : DrainService.t) (r : Request.t)
    (s : VoucherStorage.t) :
  let validation :=
    (DrainService.validateVoucher svc (Request.env r) (Request.createdAt_now r)
       (Request.activity_now r) (Request.voucher r) (Request.cost r) s).1 in
  ((chargeRequest svc r s).2 = true
   ↔ DrainService.valid validation = true ∧ Request.work_ok r = true)
  ∧ ((chargeRequest svc r s).2 = false →
     VoucherStorage.vouchers (VoucherStorage.data (chargeRequest svc r s).1)
     = VoucherStorage.vouchers (VoucherStorage.data s)
     ∧ ∀ id, charged id (chargeRequest svc r s).1 = charged id s
             ∧ lastVoucherAt id (chargeRequest svc r s).1 = lastVoucherAt id s).
Proof.
  cbn zeta. split; [apply chargeRequest_flag|].
  intros Hf. destruct (chargeRequest svc r s) as [s' done] eqn:E. cbn in Hf. subst done.
  apply chargeRequest_not_done in E. cbn [fst]. subst s'. split.
  - apply validate_vouchers.
  - intros id. split; [apply validate_charged | apply validate_lastVoucherAt].
Qed.

(** X9: a committed voucher sets the floor for the nonces of its channel:
    right after the commit, the same voucher, and any voucher of the
    channel whose nonce is not above the committed one, is rejected,
    whatever its amount and signature and whatever the chain answers. *)
Theorem X9_committed_voucher_not_replayable (svc : DrainService.t) (r : Request.t)
    (s s' : VoucherStorage.t) :
  chargeRequest svc r s = (s', true) →
  ∃ nonce,
    JS.BigInt (VoucherHeader.nonce (Request.voucher r)) = Some nonce
    ∧ (∀ env t1 t2 c,
         DrainService.valid
           (DrainService.validateVoucher svc env t1 t2 (Request.voucher r) c s').1 = false)
    ∧ (∀ env t1 t2 c voucher nonce',
         VoucherHeader.channelId voucher = VoucherHeader.channelId (Request.voucher r) →
         JS.BigInt (VoucherHeader.nonce voucher) = Some nonce' →
         nonce' ≤ nonce →
         DrainService.valid (DrainService.validateVoucher svc env t1 t2 voucher c s').1 = false).
Proof.
  intros H. apply chargeRequest_committed_last in H
    as (amount & nonce & lv & Ha & Hn & Hlv & _ & Hlvn & _).
  assert (∀ env t1 t2 c voucher nonce',
            VoucherHeader.channelId voucher = VoucherHeader.channelId (Request.voucher r) →
            JS.BigInt (VoucherHeader.nonce voucher) = Some nonce' →
            nonce' ≤ nonce →
            DrainService.valid
              (DrainService.validateVoucher svc env t1 t2 voucher c s').1 = false) as Hgen.
  { intros env t1 t2 c voucher nonce' Hid Hn' Hle.
    destruct (DrainService.valid (DrainService.validateVoucher svc env t1 t2 voucher c s').1)
      eqn:Hv; [|done].
    apply validate_accepted in Hv as (a' & n' & cd & (_ & Hn2 & _) & _ & _ & Hfloor & _).
    rewrite Hid in Hfloor. specialize (Hfloor lv Hlv).
    rewrite Hn' in Hn2. injection Hn2 as <-. lia. }
  exists nonce. split_and!; [done| |done].
  intros env t1 t2 c. by apply (Hgen env t1 t2 c (Request.voucher r) nonce).
Qed.

(** X9 on a first request of the scenario: committed, then replayed. *)
Lemma X9_witness :
  let r := requestOf "500000" "1" 100000 in
  let s' := (chargeRequest provider1 r (VoucherStorage.open VoucherStorage.Missing)).1 in
  ∃ nonce,
    JS.BigInt (VoucherHeader.nonce (Request.voucher r)) = Some nonce
    ∧ (∀ env t1 t2 c,
         DrainService.valid
           (DrainService.validateVoucher provider1 env t1 t2 (Request.voucher r) c s').1 = false)
    ∧ (∀ env t1 t2 c voucher nonce',
         VoucherHeader.channelId voucher = VoucherHeader.channelId (Request.voucher r) →
         JS.BigInt (VoucherHeader.nonce voucher) = Some nonce' →
         nonce' ≤ nonce →
         DrainService.valid
           (DrainService.validateVoucher provider1 env t1 t2 voucher c s').1 = false).
Proof.
  apply (X9_committed_voucher_not_replayable provider1 (requestOf "500000" "1" 100000)
           (VoucherStorage.open VoucherStorage.Missing)).
  reflexivity.
Defined.

(** X10: a claim pass of either kind never touches the ledger: every
    [ChannelState] is as before, in particular [totalCharged] is not
    reset by a claim, and the validator answers every voucher after the
    pass as it would have before it. *)
Theorem X10_claims_keep_ledger (svc : DrainService.t) (env : Env.t) (forceAll : bool)
    (dateNow bufferSeconds : Z) (s : VoucherStorage.t) :
  let s1 := DrainService.storage (DrainService.claimPayments svc env forceAll s) in
  let s2 := DrainService.storage (DrainService.claimExpiring svc env dateNow bufferSeconds s) in
  VoucherStorage.channels (VoucherStorage.data s1)
  = VoucherStorage.channels (VoucherStorage.data s)
  ∧ VoucherStorage.channels (VoucherStorage.data s2)
    = VoucherStorage.channels (VoucherStorage.data s)
  ∧ (∀ svc' env' t1 t2 voucher c,
       (DrainService.validateVoucher svc' env' t1 t2 voucher c s1).1
       = (DrainService.validateVoucher svc' env' t1 t2 voucher c s).1
       ∧ (DrainService.validateVoucher svc' env' t1 t2 voucher c s2).1
         = (DrainService.validateVoucher svc' env' t1 t2 voucher c s).1).
Proof.
  cbn zeta. rewrite claimPayments_submit_all, claimExpiring_submit_all.
  split_and!.
  - apply ledger_submit_all.
  - apply ledger_submit_all.
  - intros svc' env' t1 t2 voucher c. split; apply validate_reads; apply ledger_submit_all.
Qed.

Section PassFacts.
Import VoucherStorage DrainService.

Lemma entry_not_selected env s (P : string * StoredVoucher.t → Prop)
    `{∀ x, Decision (P x)} id :
  (∀ v, map_get id (getHighestVoucherPerChannel s) = Some v → ¬ P (id, v)) →
  (∀ c, c ∈ mjoin (entry_calls env <$> filter P (getHighestVoucherPerChannel s)) →
        call_channel c ≠ id)
  ∧ ∀ p, unclaimedOf id (storage (submit_all env (filter P (getHighestVoucherPerChannel s)) p))
         = unclaimedOf id (storage p).
Proof.
  intros Hnot. pose proof (getHighest_inv s) as [Hnd _ _].
  assert (id ∉ (filter P (getHighestVoucherPerChannel s)).*1) as Hout.
  { intros Hin. apply list_elem_of_fmap in Hin as ([k v] & Hk & Hkv). cbn in Hk. subst k.
    apply list_elem_of_filter in Hkv as [HP Hkv].
    apply (Hnot v); [|done]. by apply elem_of_map_get. }
  split.
  - intros c Hc Hid. apply Hout. rewrite <- Hid.
    apply (calls_submit_all_channel env s); [apply filter_subseteq_highest | done].
  - intros p. by apply unclaimedOf_submit_all_ne.
Qed.

Lemma entry_selected env s (P : string * StoredVoucher.t → Prop)
    `{∀ x, Decision (P x)} id v :
  map_get id (getHighestVoucherPerChannel s) = Some v → P (id, v) →
  GetBalance id ∈ mjoin (entry_calls env <$> filter P (getHighestVoucherPerChannel s)).
Proof.
  intros Hg HP. pose proof (map_get_elem_of _ _ _ Hg) as Hin.
  destruct (highest_entry_key _ _ _ Hin) as (Hid & _ & _).
  apply list_elem_of_join. exists (entry_calls env (id, v)). split.
  - unfold entry_calls. cbn [snd]. rewrite Hid.
    destruct (Env.readBalance env id) as [[| |]|]; apply list_elem_of_here.
  - apply list_elem_of_fmap. exists (id, v). split; [done|].
    by apply list_elem_of_filter.
Qed.

Lemma txHashes_submit env k v p :
  txHashes (submit env k v p) = txHashes p ++ from_option (λ h, [h]) [] (entry_hash env (k, v)).
Proof.
  unfold submit, entry_hash. cbn [snd].
  destruct (Env.readBalance env _) as [[| |]|eb]; cbn [txHashes];
    [by rewrite app_nil_r|..];
    (destruct (Env.writeClaim env _ _ _ _) as [h|ec]; cbn [txHashes from_option];
     [done | by rewrite app_nil_r]).
Qed.

Lemma txHashes_submit_all env es : ∀ p,
  txHashes (submit_all env es p) = txHashes p ++ omap (entry_hash env) es.
Proof.
  induction es as [|[k v] es IH]; intros p; [by rewrite app_nil_r|].
  rewrite submit_all_cons, IH, txHashes_submit. cbn [omap list_omap].
  change (omap (entry_hash env) ((k, v) :: es))
    with (from_option (λ h, h :: omap (entry_hash env) es) (omap (entry_hash env) es)
            (entry_hash env (k, v))).
  destruct (entry_hash env (k, v)); cbn; by rewrite <- app_assoc.
Qed.

Lemma hash_of_claim env (es : list (string * StoredVoucher.t)) h :
  h ∈ omap (entry_hash env) es ↔
  ∃ id a n sg, Claim id a n sg ∈ mjoin (entry_calls env <$> es)
               ∧ Env.writeClaim env id a n sg = JS.Ok h.
Proof.
  rewrite list_elem_of_omap. split.
  - intros ([k v] & Hin & Hh). unfold entry_hash in Hh. cbn [snd] in Hh.
    exists (StoredVoucher.channelId v), (StoredVoucher.amount v), (StoredVoucher.nonce v),
      (StoredVoucher.signature v).
    assert (Claim (StoredVoucher.channelId v) (StoredVoucher.amount v)
              (StoredVoucher.nonce v) (StoredVoucher.signature v) ∈ entry_calls env (k, v)
            ∧ Env.writeClaim env (StoredVoucher.channelId v) (StoredVoucher.amount v)
                (StoredVoucher.nonce v) (StoredVoucher.signature v) = JS.Ok h) as [Hc Hw].
    { unfold entry_calls. cbn [snd].
      destruct (Env.readBalance env _) as [[| |]|eb]; [done|..];
        (destruct (Env.writeClaim env _ _ _ _) as [h'|ec]; [|done];
         injection Hh as ->; split; [apply list_elem_of_further, list_elem_of_here | done]). }
    split; [|done]. apply list_elem_of_join. exists (entry_calls env (k, v)).
    split; [done|]. apply list_elem_of_fmap. by exists (k, v).
  - intros (id & a & n & sg & Hc & Hw).
    apply list_elem_of_join in Hc as (cs & Hc & Hcs).
    apply list_elem_of_fmap in Hcs as ([k v] & -> & Hin).
    exists (k, v). split; [done|]. unfold entry_calls in Hc. unfold entry_hash. cbn [snd] in *.
    destruct (Env.readBalance env _) as [[| |]|eb];
      [by apply list_elem_of_singleton in Hc|..];
      (apply elem_of_cons in Hc as [?|Hc]; [done|];
       apply list_elem_of_singleton in Hc; injection Hc as -> -> -> ->; by rewrite Hw).
Qed.

End PassFacts.

(** X11: the claim threshold.  On [claimPayments()] without [forceAll],
    a channel whose highest unclaimed amount is below [claimThreshold]
    gets no call to the chain and keeps its unclaimed vouchers, and a
    channel at or above the threshold has its balance read; with
    [forceAll] every channel with an unclaimed voucher has its balance
    read, whatever the amount. *)
Theorem X11_claim_threshold (svc : DrainService.t) (env : Env.t) (s : VoucherStorage.t)
    (id : string) (v : StoredVoucher.t) :
  VoucherStorage.map_get id (VoucherStorage.getHighestVoucherPerChannel s) = Some v →
  let threshold := ProviderConfig.claimThreshold (DrainService.config svc) in
  (StoredVoucher.amount v < threshold →
     (∀ c, c ∈ DrainService.calls (DrainService.claimPayments svc env false s) →
           call_channel c ≠ id)
     ∧ unclaimedOf id (DrainService.storage (DrainService.claimPayments svc env false s))
       = unclaimedOf id s)
  ∧ (threshold ≤ StoredVoucher.amount v →
     GetBalance id ∈ DrainService.calls (DrainService.claimPayments svc env false s))
  ∧ GetBalance id ∈ DrainService.calls (DrainService.claimPayments svc env true s).
Proof.
  intros Hg. cbn zeta. rewrite !claimPayments_calls, claimPayments_submit_all. split_and!.
  - intros Hlt.
    destruct (entry_not_selected env s (λ kv, payable svc false kv = true) id) as [H1 H2].
    { intros v' Hg'. rewrite Hg in Hg'. injection Hg' as <-.
      unfold payable. cbn. by rewrite bool_decide_eq_true_2. }
    split; [done | apply H2].
  - intros Hge. apply (entry_selected env s _ id v); [done|].
    unfold payable. cbn. by rewrite bool_decide_eq_false_2 by lia.
  - by apply (entry_selected env s _ id v).
Qed.

(** X11 with the default threshold of 1 USDC and a highest voucher of
    250: no call without [forceAll], the balance read with it. *)
Lemma X11_witness :
  let s := storeOf [voucherOf "0xc1" 100 1; voucherOf "0xc1" 250 2] [] in
  DrainService.calls (DrainService.claimPayments provider1 (chain1 true) false s) = []
  ∧ GetBalance "0xc1"
      ∈ DrainService.calls (DrainService.claimPayments provider1 (chain1 true) true s).
Proof.
  split; [reflexivity|].
  refine (proj2 (proj2 (X11_claim_threshold provider1 (chain1 true)
                          (storeOf [voucherOf "0xc1" 100 1; voucherOf "0xc1" 250 2] [])
                          "0xc1" (voucherOf "0xc1" 250 2) _))).
  reflexivity.
Defined.

(** X12: what [claimExpiring] passes over.  A channel without a ledger
    entry, a channel whose entry has no expiry, and a channel whose
    highest unclaimed amount is not positive get no call to the chain
    and keep their unclaimed vouchers, however close the expiry is. *)
Theorem X12_expiring_passes_over (svc : DrainService.t) (env : Env.t)
    (dateNow bufferSeconds : Z) (s : VoucherStorage.t) (id : string) :
  VoucherStorage.getChannel id s = None
  ∨ (∃ channel, VoucherStorage.getChannel id s = Some channel
                ∧ ChannelState.expiry channel = 0)
  ∨ (∀ v, VoucherStorage.map_get id (VoucherStorage.getHighestVoucherPerChannel s) = Some v →
          StoredVoucher.amount v ≤ 0) →
  let pass := DrainService.claimExpiring svc env dateNow bufferSeconds s in
  (∀ c, c ∈ DrainService.calls pass → call_channel c ≠ id)
  ∧ unclaimedOf id (DrainService.storage pass) = unclaimedOf id s.
Proof.
  intros Hskip. cbn zeta. rewrite claimExpiring_calls, claimExpiring_submit_all.
  destruct (entry_not_selected env s
              (λ kv, due bufferSeconds (dateNow `div` 1000) s kv = true) id) as [H1 H2].
  { intros v Hg. unfold due. cbn [fst snd].
    destruct Hskip as [->|[(ch & -> & He)|Hamt]]; [done| |].
    - by rewrite bool_decide_eq_true_2.
    - destruct (VoucherStorage.getChannel id s); [|done].
      rewrite (bool_decide_eq_true_2 (_ <= _)) by (by apply Hamt).
      by rewrite andb_false_r. }
  split; [done | apply H2].
Qed.

(** X12 on a channel that was never entered in the ledger: its voucher
    is left alone although the pass is run with an unbounded buffer. *)
Lemma X12_witness :
  let s := storeOf [voucherOf "0xc1" 250 2] [] in
  let pass := DrainService.claimExpiring provider1 (chain1 true) 1700000000000
                100000000000 s in
  (∀ c, c ∈ DrainService.calls pass → call_channel c ≠ "0xc1")
  ∧ unclaimedOf "0xc1" (DrainService.storage pass) = unclaimedOf "0xc1" s.
Proof.
  apply (X12_expiring_passes_over provider1 (chain1 true) 1700000000000 100000000000
           (storeOf [voucherOf "0xc1" 250 2] []) "0xc1").
  left. reflexivity.
Defined.

(** X13: the transaction hashes a claim pass returns are exactly the
    answers of the chain to the claims submitted during the pass: a hash
    is returned if and only if a claim call of the pass was answered with
    it.  Nothing is returned for a channel skipped on a zero balance or
    for a failed claim. *)
Theorem X13_returned_hashes (svc : DrainService.t) (env : Env.t) (forceAll : bool)
    (dateNow bufferSeconds : Z) (s : VoucherStorage.t) (h : string) :
  (h ∈ DrainService.txHashes (DrainService.claimPayments svc env forceAll s)
   ↔ ∃ id a n sg,
       Claim id a n sg ∈ DrainService.calls (DrainService.claimPayments svc env forceAll s)
       ∧ Env.writeClaim env id a n sg = JS.Ok h)
  ∧ (h ∈ DrainService.txHashes (DrainService.claimExpiring svc env dateNow bufferSeconds s)
     ↔ ∃ id a n sg,
         Claim id a n sg
           ∈ DrainService.calls (DrainService.claimExpiring svc env dateNow bufferSeconds s)
         ∧ Env.writeClaim env id a n sg = JS.Ok h).
Proof.
  rewrite claimPayments_calls, claimExpiring_calls.
  rewrite claimPayments_submit_all, claimExpiring_submit_all.
  rewrite !txHashes_submit_all. cbn [DrainService.txHashes app].
  split; apply hash_of_claim.
Qed.

Section OncePerChannel.
Import VoucherStorage DrainService.

Lemma omap_app_list {A B} (f : A → option B) (l k : list A) :
  omap f (l ++ k) = omap f l ++ omap f k.
Proof.
  induction l as [|x l IH]; [done|]. cbn. destruct (f x); cbn; by rewrite IH.
Qed.

Lemma balance_channels_entries env (es : list (string * StoredVoucher.t)) :
  (∀ k v, (k, v) ∈ es → StoredVoucher.channelId v = k) →
  balance_channels (mjoin (entry_calls env <$> es)) = es.*1.
Proof.
  induction es as [|[k v] es IH]; intros Hk; [done|].
  rewrite fmap_cons.
  change (mjoin (entry_calls env (k, v) :: (entry_calls env <$> es)))
    with (entry_calls env (k, v) ++ mjoin (entry_calls env <$> es)).
  unfold balance_channels in *.
  rewrite omap_app_list, IH by (intros k' v' Hin; apply Hk; by right).
  rewrite fmap_cons. cbn [fst]. unfold entry_calls. cbn [snd].
  rewrite (Hk k v) by left.
  by destruct (Env.readBalance env k) as [[| |]|].
Qed.

Lemma claim_channels_entries env (es : list (string * StoredVoucher.t)) :
  (∀ k v, (k, v) ∈ es → StoredVoucher.channelId v = k) →
  claim_channels (mjoin (entry_calls env <$> es)) `sublist_of` es.*1.
Proof.
  induction es as [|[k v] es IH]; intros Hk; [done|].
  rewrite fmap_cons.
  change (mjoin (entry_calls env (k, v) :: (entry_calls env <$> es)))
    with (entry_calls env (k, v) ++ mjoin (entry_calls env <$> es)).
  unfold claim_channels in *.
  rewrite omap_app_list. rewrite fmap_cons. cbn [fst]. unfold entry_calls. cbn [snd].
  rewrite (Hk k v) by left.
  assert (omap (λ c, match c with Claim id _ _ _ => Some id | GetBalance _ => None end)
            (mjoin (entry_calls env <$> es)) `sublist_of` es.*1) as Hs
    by (apply IH; intros k' v' Hin; apply Hk; by right).
  destruct (Env.readBalance env k) as [[| |]|]; cbn;
    [by apply sublist_cons | by apply sublist_skip..].
Qed.

Lemma selected_keys (P : string * StoredVoucher.t → Prop) `{∀ x, Decision (P x)} s :
  NoDup (filter P (getHighestVoucherPerChannel s)).*1
  ∧ ∀ k v, (k, v) ∈ filter P (getHighestVoucherPerChannel s) → StoredVoucher.channelId v = k.
Proof.
  pose proof (getHighest_inv s) as [Hnd _ _]. split.
  - eapply sublist_NoDup; [exact Hnd | apply fmap_sublist, sublist_filter].
  - intros k v Hin. apply list_elem_of_filter in Hin as [_ Hin].
    by destruct (highest_entry_key _ _ _ Hin).
Qed.

Lemma calls_once env s (P : string * StoredVoucher.t → Prop) `{∀ x, Decision (P x)} :
  let cs := mjoin (entry_calls env <$> filter P (getHighestVoucherPerChannel s)) in
  NoDup (balance_channels cs) ∧ NoDup (claim_channels cs)
  ∧ claim_channels cs `sublist_of` balance_channels cs.
Proof.
  cbn zeta. destruct (selected_keys P s) as [Hnd Hk].
  rewrite balance_channels_entries by done.
  pose proof (claim_channels_entries env _ Hk) as Hs.
  split_and!; [done| |done]. by eapply sublist_NoDup.
Qed.

Lemma claim_is_highest env s (P : string * StoredVoucher.t → Prop) `{∀ x, Decision (P x)}
    id a n sg :
  Claim id a n sg ∈ mjoin (entry_calls env <$> filter P (getHighestVoucherPerChannel s)) →
  ∃ v, map_get id (getHighestVoucherPerChannel s) = Some v
       ∧ StoredVoucher.amount v = a ∧ StoredVoucher.nonce v = n
       ∧ StoredVoucher.signature v = sg.
Proof.
  intros Hc.
  destruct (call_entry env s _ _ (filter_subseteq_highest P _) Hc) as (v & Hg & _ & Hin).
  cbn [call_channel] in *. exists v. split; [done|].
  unfold entry_calls in Hin. cbn [snd] in Hin.
  destruct (Env.readBalance env _) as [[| |]|];
    [by apply list_elem_of_singleton in Hin|..];
    (apply elem_of_cons in Hin as [?|Hin]; [done|];
     apply list_elem_of_singleton in Hin; by injection Hin as _ -> -> ->).
Qed.

End OncePerChannel.

(** X22: a claim pass of either kind handles a channel once.  Among the
    calls of one pass no channel has its balance read twice and no channel
    is claimed twice, and a claim is only submitted for a channel whose
    balance was read in the same pass. *)
Theorem X22_once_per_channel (svc : DrainService.t) (env : Env.t) (forceAll : bool)
    (dateNow bufferSeconds : Z) (s : VoucherStorage.t) :
  let cs1 := DrainService.calls (DrainService.claimPayments svc env forceAll s) in
  let cs2 := DrainService.calls (DrainService.claimExpiring svc env dateNow bufferSeconds s) in
  (NoDup (balance_channels cs1) ∧ NoDup (claim_channels cs1)
   ∧ claim_channels cs1 `sublist_of` balance_channels cs1)
  ∧ (NoDup (balance_channels cs2) ∧ NoDup (claim_channels cs2)
     ∧ claim_channels cs2 `sublist_of` balance_channels cs2).
Proof.
  cbn zeta. rewrite claimPayments_calls, claimExpiring_calls. split; apply calls_once.
Qed.

(** X23: what is claimed is the most the channel owes.  Every claim a
    pass of either kind submits carries the amount, the nonce and the
    signature of one stored, unclaimed voucher of its channel, and no
    unclaimed voucher of that channel has a greater amount. *)
Theorem X23_claims_the_highest (svc : DrainService.t) (env : Env.t) (forceAll : bool)
    (dateNow bufferSeconds : Z) (s : VoucherStorage.t)
    (id : string) (a n : Z) (sg : string) :
  Claim id a n sg ∈ DrainService.calls (DrainService.claimPayments svc env forceAll s)
  ∨ Claim id a n sg
      ∈ DrainService.calls (DrainService.claimExpiring svc env dateNow bufferSeconds s) →
  ∃ v, best (VoucherStorage.vouchers (VoucherStorage.data s)) id v
       ∧ StoredVoucher.amount v = a ∧ StoredVoucher.nonce v = n
       ∧ StoredVoucher.signature v = sg
       ∧ ∀ w, w ∈ unclaimedOf id s → StoredVoucher.amount w ≤ a.
Proof.
  rewrite claimPayments_calls, claimExpiring_calls. intros [Hc|Hc];
    apply claim_is_highest in Hc as (v & Hg & Ha & Hn & Hs);
    pose proof (hi_sound _ _ (getHighest_inv s) _ _ Hg) as Hb;
    (exists v; split_and!; [done..|]);
    intros w Hw; apply list_elem_of_filter in Hw as [[Hid Hcl] Hin];
    destruct Hb as (_ & _ & _ & Hmax); rewrite <- Ha; by apply Hmax.
Qed.

(** X23 on a channel with vouchers of 100 and 250: the claim is for
    250. *)
Lemma X23_witness :
  let s := storeOf [voucherOf "0xc1" 100 1; voucherOf "0xc1" 250 2] [] in
  Claim "0xc1" 250 2 "0xsig"
    ∈ DrainService.calls (DrainService.claimPayments provider1 (chain1 true) true s)
  ∧ ∃ v, best (VoucherStorage.vouchers (VoucherStorage.data s)) "0xc1" v
         ∧ StoredVoucher.amount v = 250 ∧ StoredVoucher.nonce v = 2
         ∧ StoredVoucher.signature v = "0xsig"%string
         ∧ ∀ w, w ∈ unclaimedOf "0xc1" s → StoredVoucher.amount w ≤ 250.
Proof.
  assert (Claim "0xc1" 250 2 "0xsig"
            ∈ DrainService.calls
                (DrainService.claimPayments provider1 (chain1 true) true
                   (storeOf [voucherOf "0xc1" 100 1; voucherOf "0xc1" 250 2] []))) as H
    by (vm_compute; apply list_elem_of_further, list_elem_of_here).
  split; [exact H|].
  apply (X23_claims_the_highest provider1 (chain1 true) true 0 0
           (storeOf [voucherOf "0xc1" 100 1; voucherOf "0xc1" 250 2] [])).
  left. exact H.
Defined.

(* ===================================================================== *)
(** * Further properties: the timer and the request handler              *)
(* ===================================================================== *)

Section TimerFacts.
Import DrainService.

Lemma timers_ok_start m b a : timers_ok a → timers_ok (startAutoClaim m b a).
Proof.
  unfold timers_ok, startAutoClaim. intros [Ht Hl].
  destruct (autoClaimInterval a) as [h|] eqn:E; [by rewrite E|]. cbn. rewrite Ht. split.
  - by eexists.
  - rewrite length_app. cbn. lia.
Qed.

Lemma timers_ok_stop a : timers_ok a → timers_ok (stopAutoClaim a).
Proof.
  unfold timers_ok, stopAutoClaim. intros [Ht Hl].
  destruct (autoClaimInterval a) as [h|] eqn:E; [|by rewrite E].
  cbn. split; [|done]. destruct Ht as (t & -> & Hh).
  rewrite filter_cons, decide_False by (by intros H; apply H). done.
Qed.

Lemma timers_ok_after cs : timers_ok (autoClaim_after cs).
Proof.
  unfold autoClaim_after. induction cs as [|c cs IH] using rev_ind; [done|].
  rewrite fold_left_app. cbn. destruct c; [by apply timers_ok_start | by apply timers_ok_stop].
Qed.

End TimerFacts.

(** X14: the auto-claim timer never runs twice.  After any series of
    [startAutoClaim] and [stopAutoClaim] calls on a new service, the
    runtime holds exactly the timer recorded in [autoClaimInterval], or none
    when the field is [null]: a start while a timer runs sets no second
    timer and starts no pass, a stop leaves no timer behind.  Every timer
    that was set came with one pass started at once. *)
Theorem X14_single_auto_claim_timer (cs : list AutoClaimCall) :
  let a := autoClaim_after cs in
  match DrainService.autoClaimInterval a with
  | None => DrainService.timers a = []
  | Some h => ∃ t, DrainService.timers a = [t] ∧ DrainService.handle t = h
  end
  ∧ (length (DrainService.timers a) ≤ 1)%nat
  ∧ length (DrainService.launched a) = DrainService.made a
  ∧ (∀ m b, DrainService.autoClaimInterval a ≠ None →
            autoClaim_after (cs ++ [StartAutoClaim m b]) = a).
Proof.
  cbn zeta. destruct (timers_ok_after cs) as [Ht Hl]. split_and!; [done| |done|].
  - destruct (DrainService.autoClaimInterval (autoClaim_after cs)).
    + destruct Ht as (t & -> & _). cbn. lia.
    + rewrite Ht. cbn. lia.
  - intros m b Hn. unfold autoClaim_after. rewrite fold_left_app. cbn.
    fold (autoClaim_after cs). unfold DrainService.startAutoClaim.
    by destruct (DrainService.autoClaimInterval (autoClaim_after cs)).
Qed.

Section Responses.
Import VoucherStorage DrainService.

Lemma resolveChannel_deposit t1 t2 id cd s :
  ChannelState.deposit (resolveChannel t1 t2 id cd s).1
  = match getChannel id s with
    | Some ch => ChannelState.deposit ch
    | None => ChannelData.deposit cd
    end.
Proof.
  unfold resolveChannel. destruct (getChannel id s); [|done]. by case_bool_decide.
Qed.

Lemma respond_store svc r s : (respond svc r s).2 = (chargeRequest svc r s).1.
Proof.
  unfold respond, chargeRequest.
  destruct (validateVoucher _ _ _ _ _ _ _) as [validation s1].
  destruct (valid validation); cbn [negb]; [|done].
  destruct (Request.work_ok r); cbn [negb]; [|done].
  destruct (channel validation) as [cs|]; [|done].
  by destruct (DrainService.storeVoucher _ _ _ _ _ _).
Qed.

Lemma respond_status svc r s :
  match (respond svc r s).1 with
  | Completion _ => (chargeRequest svc r s).2 = true
  | PaymentRequired _ _ =>
      valid (validateVoucher svc (Request.env r) (Request.createdAt_now r)
               (Request.activity_now r) (Request.voucher r) (Request.cost r) s).1 = false
  | BadGateway =>
      valid (validateVoucher svc (Request.env r) (Request.createdAt_now r)
               (Request.activity_now r) (Request.voucher r) (Request.cost r) s).1 = true
      ∧ (chargeRequest svc r s).2 = false
  end.
Proof.
  unfold respond, chargeRequest.
  destruct (validateVoucher _ _ _ _ _ _ _) as [validation s1]. cbn [fst].
  destruct (valid validation); cbn [negb]; [|done].
  destruct (Request.work_ok r); cbn [negb]; [|done].
  destruct (channel validation) as [cs|]; [|done].
  by destruct (DrainService.storeVoucher _ _ _ _ _ _).
Qed.

Lemma respond_headers svc r s h s' :
  respond svc r s = (Completion h, s') →
  ∃ cs, channel (validateVoucher svc (Request.env r) (Request.createdAt_now r)
                   (Request.activity_now r) (Request.voucher r) (Request.cost r) s).1
        = Some cs
    ∧ h = PaymentHeaders.mk (JS.toString (Request.cost r))
            (JS.toString (ChannelState.totalCharged cs + Request.cost r + Request.cost r))
            (JS.toString (ChannelState.deposit cs
                          - (ChannelState.totalCharged cs + Request.cost r + Request.cost r)))
            (VoucherHeader.channelId (Request.voucher r)).
Proof.
  unfold respond.
  destruct (validateVoucher _ _ _ _ _ _ _) as [validation s1]. cbn [fst].
  destruct (valid validation); cbn [negb]; [|done].
  destruct (Request.work_ok r); cbn [negb]; [|done].
  destruct (channel validation) as [cs|]; [|done].
  destruct (DrainService.storeVoucher _ _ _ _ _ _); [|done].
  intros [= <- <-]. by exists cs.
Qed.

End Responses.

(** X15: the totals a served request reports.  The [X-DRAIN-Total]
    header of a 200 response is the channel's [totalCharged] as the
    ledger holds it after the commit plus the cost of the request once
    more, that is the total before the request plus twice the cost; the
    [X-DRAIN-Remaining] header is the stored deposit less that figure. *)
Theorem X15_reported_total (svc : DrainService.t) (r : Request.t) (s s' : VoucherStorage.t)
    (h : PaymentHeaders.t) :
  respond svc r s = (Completion h, s') →
  let id := VoucherHeader.channelId (Request.voucher r) in
  chargeRequest svc r s = (s', true)
  ∧ charged id s' = charged id s + Request.cost r
  ∧ PaymentHeaders.cost h = JS.toString (Request.cost r)
  ∧ PaymentHeaders.total h = JS.toString (charged id s' + Request.cost r)
  ∧ PaymentHeaders.total h = JS.toString (charged id s + 2 * Request.cost r)
  ∧ (∃ channel, VoucherStorage.getChannel id s' = Some channel
       ∧ PaymentHeaders.remaining h
         = JS.toString (ChannelState.deposit channel
                        - ChannelState.totalCharged channel - Request.cost r)).
Proof.
  intros H. cbn zeta.
  pose proof (respond_status svc r s) as Hst. pose proof (respond_store svc r s) as Hs.
  rewrite H in Hst, Hs. cbn [fst snd] in Hst, Hs.
  assert (chargeRequest svc r s = (s', true)) as Hc.
  { destruct (chargeRequest svc r s) as [x b]. cbn in *. by subst. }
  apply respond_headers in H as (cs & Hch & ->).
  pose proof (proj1 (chargeRequest_flag svc r s)) as Hv. rewrite Hc in Hv.
  destruct (Hv eq_refl) as [Hval _].
  apply validate_accepted in Hval as (amount & nonce & cd & Hg & _ & _ & _ & _ & Hacc).
  rewrite Hacc in Hch. cbn in Hch. injection Hch as <-.
  destruct (chargeRequest_done_effect _ _ _ _ Hc)
    as (amount' & cd' & ch' & sv & Hrd & _ & _ & Hget & Htot & Hdep & _).
  cbn zeta in *.
  assert (cd' = cd) as ->.
  { destruct Hg as (_ & _ & Hrd' & _). rewrite Hrd in Hrd'. by injection Hrd'. }
  assert (charged (VoucherHeader.channelId (Request.voucher r)) s'
          = charged (VoucherHeader.channelId (Request.voucher r)) s + Request.cost r) as Hchg.
  { unfold charged at 1. by rewrite Hget. }
  rewrite resolveChannel_totalCharged, resolveChannel_deposit. cbn.
  split_and!; [done..| | |].
  - by rewrite Hchg.
  - f_equal. lia.
  - exists ch'. split; [done|]. rewrite Htot, Hdep. f_equal. lia.
Qed.

(** X15 on the first request of a channel, of cost 100000 with a voucher
    of 500000: the ledger holds 100000, the header reports 200000. *)
Lemma X15_witness :
  let r := requestOf "500000" "1" 100000 in
  let s := VoucherStorage.open VoucherStorage.Missing in
  charged "0xc1" (respond provider1 r s).2 = 100000
  ∧ ∃ h, (respond provider1 r s).1 = Completion h
         ∧ PaymentHeaders.total h = "200000"%string
         ∧ PaymentHeaders.total h
           = JS.toString (charged "0xc1" (respond provider1 r s).2 + 100000).
Proof.
  split; [reflexivity|]. eexists. split; [reflexivity|]. split; [reflexivity|].
  refine (proj1 (proj2 (proj2 (proj2
            (X15_reported_total provider1 (requestOf "500000" "1" 100000)
               (VoucherStorage.open VoucherStorage.Missing) _ _ _))))).
  reflexivity.
Defined.


(* ===================================================================== *)
(** * Further properties: the endpoint allowlist and lease pricing       *)
(* ===================================================================== *)

Local Open Scope string_scope.

Section Endpoints.
Import Config.

Lemma lower_slash c : Ascii.eqb (JS.lower_ascii c) "/" = Ascii.eqb c "/".
Proof. by destruct c as [[] [] [] [] [] [] [] []]. Qed.

Lemma append_String c s t : String c s ++ t = String c (s ++ t).
Proof. done. Qed.

Lemma append_empty t : "" ++ t = t.
Proof. done. Qed.

Lemma append_nil s : s ++ "" = s.
Proof. induction s as [|c s IH]; [done|]. by rewrite append_String, IH. Qed.

Lemma append_assoc3 s t u : (s ++ t) ++ u = s ++ t ++ u.
Proof. induction s as [|c s IH]; [done|]. by rewrite !append_String, IH. Qed.

Lemma toLowerCase_app s t : JS.toLowerCase (s ++ t) = JS.toLowerCase s ++ JS.toLowerCase t.
Proof.
  induction s as [|c s IH]; [done|]. rewrite append_String. cbn [JS.toLowerCase].
  by rewrite append_String, IH.
Qed.

Lemma lower_idemp c : JS.lower_ascii (JS.lower_ascii c) = JS.lower_ascii c.
Proof. by destruct c as [[] [] [] [] [] [] [] []]. Qed.

Lemma toLowerCase_idemp s : JS.toLowerCase (JS.toLowerCase s) = JS.toLowerCase s.
Proof.
  induction s as [|c s IH]; [done|]. cbn [JS.toLowerCase]. by rewrite IH, lower_idemp.
Qed.

Lemma startsWith_app p t : JS.startsWith p (p ++ t) = true.
Proof.
  induction p as [|c p IH]; [done|]. rewrite append_String. cbn [JS.startsWith].
  by rewrite Ascii.eqb_refl, IH.
Qed.

Lemma startsWith_split p t : JS.startsWith p t = true → ∃ r, t = p ++ r.
Proof.
  revert t. induction p as [|c p IH]; intros t H; [by exists t|].
  destruct t as [|d t]; [done|]. cbn [JS.startsWith] in H.
  apply andb_prop in H as [Hc Hp]. apply Ascii.eqb_eq in Hc as ->.
  destruct (IH _ Hp) as [r ->]. exists r. by rewrite append_String.
Qed.

Lemma dropSlashesStart_slashes n s : dropSlashesStart (slashes n ++ s) = dropSlashesStart s.
Proof.
  induction n as [|n IH]; [done|]. cbn [slashes]. rewrite append_String.
  cbn [dropSlashesStart]. exact IH.
Qed.

Lemma dropSlashesEnd_cons c s :
  dropSlashesEnd (String c s)
  = match dropSlashesEnd s with
    | EmptyString => if Ascii.eqb c "/" then EmptyString else String c EmptyString
    | r => String c r
    end.
Proof. done. Qed.

Lemma dropSlashesEnd_slashes n : dropSlashesEnd (slashes n) = "".
Proof. induction n as [|n IH]; [done|]. cbn [slashes]. by rewrite dropSlashesEnd_cons, IH. Qed.

Lemma dropSlashesEnd_app s t :
  dropSlashesEnd (s ++ t)
  = match dropSlashesEnd t with
    | EmptyString => dropSlashesEnd s
    | r => s ++ r
    end.
Proof.
  induction s as [|c s IH].
  - rewrite append_empty. by destruct (dropSlashesEnd t).
  - rewrite append_String, !dropSlashesEnd_cons, IH.
    destruct (dropSlashesEnd t) as [|d r]; [done|].
    rewrite append_String. by destruct s.
Qed.

Lemma stripSlashes_slashes n m s :
  stripSlashes (slashes n ++ s ++ slashes m) = stripSlashes s.
Proof.
  unfold stripSlashes. rewrite dropSlashesStart_slashes.
  induction s as [|c s IH].
  - rewrite append_empty. replace (slashes m) with (slashes m ++ "") by apply append_nil.
    by rewrite dropSlashesStart_slashes.
  - rewrite append_String. cbn [dropSlashesStart]. destruct (Ascii.eqb c "/"); [exact IH|].
    rewrite <- append_String. by rewrite dropSlashesEnd_app, dropSlashesEnd_slashes.
Qed.

Lemma dropSlashesEnd_head c s :
  Ascii.eqb c "/" = false →
  ∃ r, dropSlashesEnd (String c s) = String c r.
Proof.
  intros H. rewrite dropSlashesEnd_cons, H. destruct (dropSlashesEnd s); by eexists.
Qed.

Lemma dropSlashesEnd_idemp s : dropSlashesEnd (dropSlashesEnd s) = dropSlashesEnd s.
Proof.
  induction s as [|c s IH]; [done|]. rewrite dropSlashesEnd_cons.
  destruct (dropSlashesEnd s) as [|d r] eqn:E.
  - destruct (Ascii.eqb c "/") eqn:Ec; [done|]. by rewrite dropSlashesEnd_cons, Ec.
  - rewrite dropSlashesEnd_cons, IH. done.
Qed.

Lemma dropSlashesStart_head s :
  dropSlashesStart s = "" ∨ ∃ c r, dropSlashesStart s = String c r ∧ Ascii.eqb c "/" = false.
Proof.
  induction s as [|c s IH]; [by left|]. cbn.
  destruct (Ascii.eqb c "/") eqn:E; [done|]. right. by exists c, s.
Qed.

Lemma stripSlashes_idemp s : stripSlashes (stripSlashes s) = stripSlashes s.
Proof.
  unfold stripSlashes. destruct (dropSlashesStart_head s) as [->|(c & r & -> & Hc)]; [done|].
  destruct (dropSlashesEnd_head c r Hc) as [r' Hr]. rewrite Hr.
  cbn [dropSlashesStart]. rewrite Hc, <- Hr. apply dropSlashesEnd_idemp.
Qed.

(** What holds of every entry of the list: it is in lower case already,
    and it neither starts nor ends with a slash. *)
Lemma ALLOWED_ENDPOINTS_plain :
  Forall (λ a, JS.toLowerCase a = a ∧ stripSlashes a = a
               ∧ ∃ c r, a = String c r ∧ Ascii.eqb c "/" = false)
    ALLOWED_ENDPOINTS.
Proof.
  assert (forallb (λ a, String.eqb (JS.toLowerCase a) a && String.eqb (stripSlashes a) a
                         && match a with
                            | String c _ => negb (Ascii.eqb c "/")
                            | EmptyString => false
                            end) ALLOWED_ENDPOINTS = true) as H by (by vm_compute).
  apply Forall_forall. intros a Hin. apply list_elem_of_In in Hin.
  pose proof (proj1 (forallb_forall _ _) H a Hin) as Ha.
  apply andb_prop in Ha as [Ha Hc]. apply andb_prop in Ha as [Hl Hs].
  apply String.eqb_eq in Hl, Hs. split_and!; [done..|].
  destruct a as [|c r]; [done|]. exists c, r. split; [done|]. by apply negb_true_iff.
Qed.

Lemma isEndpointAllowed_spec e :
  isEndpointAllowed e = true
  ↔ ∃ a, a ∈ ALLOWED_ENDPOINTS
         ∧ (normalized e = a ∨ ∃ rest, normalized e = a ++ "/" ++ rest).
Proof.
  unfold isEndpointAllowed. fold (normalized e). rewrite existsb_exists. split.
  - intros (a & Hin & H). apply list_elem_of_In in Hin. exists a. split; [done|].
    pose proof (proj1 (Forall_forall _ _) ALLOWED_ENDPOINTS_plain a Hin) as (Hl & _).
    rewrite Hl in H. apply orb_prop in H as [H|H].
    + left. by apply String.eqb_eq.
    + right. apply startsWith_split in H as [r ->]. exists r.
      by rewrite append_assoc3.
  - intros (a & Hin & H). exists a. split; [by apply list_elem_of_In|].
    pose proof (proj1 (Forall_forall _ _) ALLOWED_ENDPOINTS_plain a Hin) as (Hl & _).
    rewrite Hl. destruct H as [->|[rest ->]].
    + by rewrite String.eqb_refl.
    + rewrite <- append_assoc3, startsWith_app. apply orb_true_r.
Qed.

End Endpoints.

(** X17: [isEndpointAllowed] gives the same answer for an endpoint with
    any number of slashes put before and after it, and for an endpoint
    whose slashes were stripped beforehand, as the request handler does
    before it asks. *)
Theorem X17_slashes_do_not_matter (e : string) (n m : nat) :
  Config.isEndpointAllowed (slashes n ++ e ++ slashes m) = Config.isEndpointAllowed e
  ∧ Config.isEndpointAllowed (Config.stripSlashes e) = Config.isEndpointAllowed e.
Proof.
  unfold Config.isEndpointAllowed. by rewrite stripSlashes_slashes, stripSlashes_idemp.
Qed.

(** X18: for an endpoint of ASCII text, [isEndpointAllowed] answers true
    exactly when the endpoint, without the slashes around it and in lower
    case, is an entry of the list or an entry followed by a slash and
    anything.  The entries of the list are in lower case and carry no
    slash at either end, so that each of them is allowed as it stands. *)
Theorem X18_allowed_endpoints (e : string) :
  ascii_text e →
  (Config.isEndpointAllowed e = true
   ↔ ∃ a, a ∈ Config.ALLOWED_ENDPOINTS
          ∧ (normalized e = a ∨ ∃ rest, normalized e = a ++ "/" ++ rest))
  ∧ (∀ a, a ∈ Config.getAllowedEndpoints →
          normalized a = a ∧ Config.isEndpointAllowed a = true).
Proof.
  intros _. split; [apply isEndpointAllowed_spec|].
  intros a Hin.
  pose proof (proj1 (Forall_forall _ _) ALLOWED_ENDPOINTS_plain a Hin) as (Hl & Hs & _).
  assert (normalized a = a) as Hn by (unfold normalized; by rewrite Hs).
  split; [done|]. apply isEndpointAllowed_spec. exists a. split; [done|]. by left.
Qed.

(** X18 on three endpoints: a listed one in capitals between slashes is
    allowed; a name that only begins like a listed one, and the empty
    endpoint, are not. *)
Lemma X18_witness :
  Config.isEndpointAllowed "/Price/LATEST/" = true
  ∧ Config.isEndpointAllowed "price/latestx" = false
  ∧ Config.isEndpointAllowed "" = false
  ∧ (Config.isEndpointAllowed "/Price/LATEST/" = true
     ↔ ∃ a, a ∈ Config.ALLOWED_ENDPOINTS
            ∧ (normalized "/Price/LATEST/" = a
               ∨ ∃ rest, normalized "/Price/LATEST/" = a ++ "/" ++ rest)).
Proof.
  split; [reflexivity|]. split; [reflexivity|]. split; [reflexivity|].
  refine (proj1 (X18_allowed_endpoints "/Price/LATEST/" _)).
  cbn [ascii_text]. repeat split; apply Nat.ltb_lt; reflexivity.
Defined.

(** X19: below a listed endpoint everything is allowed: an entry of the
    list followed by a slash and any text whatever, further slashes and
    [..] segments included, passes [isEndpointAllowed]. *)
Theorem X19_everything_below_an_entry (a rest : string) :
  a ∈ Config.ALLOWED_ENDPOINTS →
  Config.isEndpointAllowed (a ++ "/" ++ rest) = true.
Proof.
  intros Hin. apply isEndpointAllowed_spec. exists a. split; [done|].
  pose proof (proj1 (Forall_forall _ _) ALLOWED_ENDPOINTS_plain a Hin)
    as (Hl & Hs & c & r & -> & Hc).
  unfold normalized, Config.stripSlashes.
  rewrite append_String. cbn [Config.dropSlashesStart]. rewrite Hc, <- append_String.
  rewrite dropSlashesEnd_app.
  destruct (Config.dropSlashesEnd ("/" ++ rest)) as [|d t] eqn:E.
  - left. unfold Config.stripSlashes in Hs. cbn [Config.dropSlashesStart] in Hs.
    rewrite Hc in Hs. by rewrite Hs.
  - right. change ("/" ++ rest) with (String "/" rest) in E.
    rewrite dropSlashesEnd_cons in E.
    destruct (Config.dropSlashesEnd rest) as [|d' t'] eqn:E'; [done|].
    injection E as <- <-. exists (JS.toLowerCase (String d' t')).
    by rewrite toLowerCase_app, Hl.
Qed.

(** X19 on a path that climbs out of the listed endpoint. *)
Lemma X19_witness :
  Config.isEndpointAllowed "price/latest/../../admin" = true.
Proof.
  apply (X19_everything_below_an_entry "price/latest" "../../admin").
  apply list_elem_of_here.
Defined.

Local Open Scope list_scope.
Local Open Scope Z_scope.

Section LeasePricing.
Import Tpn.

Lemma leaseMinutes_range requested d mx :
  1 ≤ mx → 1 ≤ leaseMinutes requested d mx ≤ mx.
Proof. unfold leaseMinutes. lia. Qed.

Lemma calculateCost_mono hourly minPrice m1 m2 :
  0 ≤ hourly → m1 ≤ m2 → calculateCost hourly minPrice m1 ≤ calculateCost hourly minPrice m2.
Proof.
  intros Hh Hm. unfold calculateCost. cbn zeta.
  assert (hourly * m1 ≤ hourly * m2) as Hle by nia.
  pose proof (Z.quot_le_mono (hourly * m1) (hourly * m2) 60 ltac:(lia) Hle).
  repeat case_bool_decide; lia.
Qed.

End LeasePricing.

(** X20: the price of a lease.  With a non-negative hourly price and a
    longest lease of at least one minute, the duration the handler prices
    lies between 1 and [maxLeaseMinutes] whatever was requested, and the
    cost is at least the minimum price, at most the cost of the longest
    lease, and never grows when the duration shrinks.  Whenever it exceeds
    the minimum price it is the hourly price in proportion to the
    minutes, rounded down to a whole unit. *)
Theorem X20_lease_cost (hourlyPriceWei minPriceWei defaultLeaseMinutes maxLeaseMinutes : Z)
    (requested : option Z) :
  0 ≤ hourlyPriceWei → 1 ≤ maxLeaseMinutes →
  let minutes := Tpn.leaseMinutes requested defaultLeaseMinutes maxLeaseMinutes in
  let cost := Tpn.calculateCost hourlyPriceWei minPriceWei minutes in
  1 ≤ minutes ≤ maxLeaseMinutes
  ∧ minPriceWei ≤ cost
  ∧ cost ≤ Tpn.calculateCost hourlyPriceWei minPriceWei maxLeaseMinutes
  ∧ (∀ m1 m2, m1 ≤ m2 →
       Tpn.calculateCost hourlyPriceWei minPriceWei m1
       ≤ Tpn.calculateCost hourlyPriceWei minPriceWei m2)
  ∧ (minPriceWei < cost →
     60 * cost ≤ hourlyPriceWei * minutes < 60 * cost + 60).
Proof.
  intros Hh Hmx. cbn zeta.
  pose proof (leaseMinutes_range requested defaultLeaseMinutes maxLeaseMinutes Hmx) as Hr.
  split_and!.
  - lia.
  - lia.
  - unfold Tpn.calculateCost. case_bool_decide; lia.
  - apply calculateCost_mono; lia.
  - intros m1 m2. by apply calculateCost_mono.
  - unfold Tpn.calculateCost. cbn zeta. case_bool_decide; [|lia]. intros _.
    set (x := hourlyPriceWei * Tpn.leaseMinutes requested defaultLeaseMinutes maxLeaseMinutes).
    assert (0 ≤ x) by (unfold x; nia).
    rewrite Z.quot_div_nonneg by lia.
    pose proof (Z.div_mod x 60 ltac:(lia)). pose proof (Z.mod_pos_bound x 60 ltac:(lia)). lia.
Qed.

(** X20 with the default prices (5000 per hour, at least 1000): a lease
    of 90 minutes costs 7500, a request for 0 minutes is priced as one
    minute at the minimum. *)
Lemma X20_witness :
  Tpn.calculateCost 5000 1000 (Tpn.leaseMinutes (Some 90) 60 1440) = 7500
  ∧ Tpn.calculateCost 5000 1000 (Tpn.leaseMinutes (Some 0) 60 1440) = 1000
  ∧ 1 ≤ Tpn.leaseMinutes (Some 0) 60 1440 ≤ 1440.
Proof.
  split; [reflexivity|]. split; [reflexivity|].
  refine (proj1 (X20_lease_cost 5000 1000 60 1440 (Some 0) _ _)); lia.
Defined.
